(** * job-scanner: the request / extract / validate pipeline

    A shallow embedding of the JavaScript sources of the job scanner:

    - [Extractor]: [extractJsonFromText] of the direct-API client, with the
      two regular expressions it relies on written out as the backtracking
      searches the JavaScript engine performs;
    - [Transport]: the transport outcomes, the console and timer effects and
      the small state/exception monad they are threaded through;
    - [Legacy]: the direct-API client ([fetchStructuredJobData],
      [fetchAIInsights], [runSimpleApiTest], [handleSearch]);
    - [App]: the serverless-backed client of [src/App.jsx];
    - [Render], [Feedback]: the link rendered for a listing and the
      thumbs-up / thumbs-down toggle, which both clients share verbatim;
    - [Server]: the serverless functions [api/search.js] and
      [api/insights.js] that the client of [src/App.jsx] calls. *)

From Stdlib Require Import NArith ZArith Lia.
From Stdlib Require Import Ascii String DecimalString.
From Stdlib Require DecimalN DecimalPos.
From stdpp Require Import gmap strings list.

Local Open Scope N_scope.

(** ** JavaScript strings

    A JavaScript string is kept as its sequence of UTF-16 code units, which
    is what [includes], [startsWith], [trim] and a regular expression without
    the [u] flag operate on. *)

Abbreviation code_unit := N.
Abbreviation jsstring := (list code_unit).

(** The code units of a literal of the source files, which are UTF-8. *)
Fixpoint utf16 (s : string) : jsstring :=
  match s with
  | EmptyString => []
  | String a0 s1 =>
      let b0 := N_of_ascii a0 in
      if b0 <? 128 then b0 :: utf16 s1 else
      match s1 with
      | EmptyString => []
      | String a1 s2 =>
          let b1 := N_of_ascii a1 mod 64 in
          if b0 <? 224 then (b0 mod 32 * 64 + b1) :: utf16 s2 else
          match s2 with
          | EmptyString => []
          | String a2 s3 =>
              let b2 := N_of_ascii a2 mod 64 in
              if b0 <? 240 then (b0 mod 16 * 4096 + b1 * 64 + b2) :: utf16 s3 else
              match s3 with
              | EmptyString => []
              | String a3 s4 =>
                  let b3 := N_of_ascii a3 mod 64 in
                  let v := b0 mod 8 * 262144 + b1 * 4096 + b2 * 64 + b3 - 65536 in
                  (55296 + v / 1024) :: (56320 + v mod 1024) :: utf16 s4
              end
          end
      end
  end.

(** [strip_prefix p s] is what is left of [s] after the literal [p], when
    [s] starts with it. *)
Fixpoint strip_prefix (p s : jsstring) : option jsstring :=
  match p, s with
  | [], _ => Some s
  | a :: p', b :: s' => if a =? b then strip_prefix p' s' else None
  | _ :: _, [] => None
  end.

(** [s.startsWith(p)] *)
Definition startsWith (s p : jsstring) : bool :=
  match strip_prefix p s with Some _ => true | None => false end.

(** [s.includes(p)] *)
Fixpoint includes (s p : jsstring) : bool :=
  startsWith s p || match s with [] => false | _ :: s' => includes s' p end.

(** [a === b] on strings *)
Fixpoint same (a b : jsstring) : bool :=
  match a, b with
  | [], [] => true
  | x :: a', y :: b' => (x =? y) && same a' b'
  | _, _ => false
  end.

(** [!s] on a string: only the empty string is falsy. *)
Definition is_empty (s : jsstring) : bool :=
  match s with [] => true | _ :: _ => false end.

(** [String(n)] and template interpolation of a non-negative integer. *)
Definition decimal (n : N) : jsstring :=
  utf16 (NilEmpty.string_of_uint (N.to_uint n)).

(** [parts.join(sep)] *)
Fixpoint join (sep : jsstring) (parts : list jsstring) : jsstring :=
  match parts with
  | [] => []
  | [p] => p
  | p :: rest => p ++ sep ++ join sep rest
  end.

(** A double quote, for the literals that contain one. *)
Definition dq : string := String (ascii_of_nat 34) EmptyString.
(** A line feed, for the template literals that span lines. *)
Definition lf : string := String (ascii_of_nat 10) EmptyString.

Module Extractor.

(** [\s] in a regular expression and the characters removed by [trim()]
    are the same set: WhiteSpace and LineTerminator of ECMA-262. *)
Definition is_space (c : code_unit) : bool :=
  ((9 <=? c) && (c <=? 13)) || (c =? 32) || (c =? 160) || (c =? 5760)
  || ((8192 <=? c) && (c <=? 8202))
  || (c =? 8232) || (c =? 8233) || (c =? 8239) || (c =? 8287)
  || (c =? 12288) || (c =? 65279).

Definition backtick : code_unit := 96.
Definition lbracket : code_unit := 91.
Definition rbracket : code_unit := 93.

(** The three backticks of a fence, and the optional tag. *)
Definition fence : jsstring := [backtick; backtick; backtick].
Definition json_tag : jsstring := [106; 115; 111; 110].

(** *** [/```(?:json)?\s*([\s\S]*?)\s*```/]

    Each function below is one component of the pattern, anchored at the
    head of its argument, and tries its alternatives in the order of the
    backtracking matcher.  The value is capture group 1. *)

(** [\s*```]: the longest whitespace run first, then shorter ones. *)
Fixpoint closing (s : jsstring) : bool :=
  match s with
  | [] => false
  | c :: s' =>
      (is_space c && closing s') || startsWith s fence
  end.

(** [([\s\S]*?)\s*```]: the shortest capture first. *)
Fixpoint lazy_capture (s : jsstring) : option (jsstring) :=
  match s with
  | [] => None
  | c :: s' =>
      if closing s then Some [] else cons c <$> lazy_capture s'
  end.

(** [\s*([\s\S]*?)\s*```]: the longest whitespace run first; a character is
    given back only when the rest of the pattern failed. *)
Fixpoint after_tag (s : jsstring) : option (jsstring) :=
  match s with
  | [] => lazy_capture []
  | c :: s' =>
      if is_space c then
        match after_tag s' with
        | Some b => Some b
        | None => lazy_capture s
        end
      else lazy_capture s
  end.

(** [(?:json)?...]: with the tag first, without it when that failed. *)
Definition after_fence (s : jsstring) : option (jsstring) :=
  match strip_prefix json_tag s with
  | Some s' =>
      match after_tag s' with
      | Some b => Some b
      | None => after_tag s
      end
  | None => after_tag s
  end.

Definition match_fence_here (s : jsstring) : option (jsstring) :=
  match strip_prefix fence s with
  | Some s' => after_fence s'
  | None => None
  end.

(** [text.match(...)]: the leftmost start index at which the pattern
    matches; [None] is JavaScript's [null]. *)
Fixpoint markdownMatch (s : jsstring) : option (jsstring) :=
  match match_fence_here s with
  | Some b => Some b
  | None =>
      match s with
      | [] => None
      | _ :: s' => markdownMatch s'
      end
  end.

(** *** [/(\[[\s\S]*\])/] *)

(** [[\s\S]*\]]: the longest run first. *)
Fixpoint greedy_to_bracket (s : jsstring) : option (jsstring) :=
  match s with
  | [] => None
  | c :: s' =>
      match greedy_to_bracket s' with
      | Some b => Some (c :: b)
      | None => if c =? rbracket then Some [c] else None
      end
  end.

Definition match_array_here (s : jsstring) : option (jsstring) :=
  match s with
  | c :: s' => if c =? lbracket then cons c <$> greedy_to_bracket s' else None
  | [] => None
  end.

Fixpoint arrayMatch (s : jsstring) : option (jsstring) :=
  match match_array_here s with
  | Some b => Some b
  | None =>
      match s with
      | [] => None
      | _ :: s' => arrayMatch s'
      end
  end.

(** *** [String.prototype.trim] *)

Fixpoint trimStart (s : jsstring) : jsstring :=
  match s with
  | c :: s' => if is_space c then trimStart s' else s
  | [] => []
  end.

Definition trimEnd (s : jsstring) : jsstring :=
  rev (trimStart (rev s)).

Definition trim (s : jsstring) : jsstring :=
  trimEnd (trimStart s).

(** *** [extractJsonFromText] *)

Definition extractJsonFromText (text : jsstring) : jsstring :=
  match markdownMatch text with
  | Some group1 => trim group1
  | None =>
      match arrayMatch text with
      | Some group1 => trim group1
      | None => trim text
      end
  end.

End Extractor.


(** ** Listings *)

(** The JSON scalars an [id] can be.  Numbers are the integers, printed by
    [String] in decimal, as JavaScript does below 10^21. *)
Inductive scalar :=
| SNull
| SBool (b : bool)
| SNum (n : Z)
| SStr (s : jsstring).

(** A listing, by the properties the clients read.  [None] is [undefined]:
    the property is missing. *)
Record listing := {
  id : option scalar;
  title : jsstring;
  company : jsstring;
  location : jsstring;
  type : jsstring;
  description : jsstring;
  url : option jsstring;
  salary : option jsstring;
  posted : option jsstring
}.

(** [v ? _ : _] *)
Definition truthy (v : option scalar) : bool :=
  match v with
  | None => false
  | Some SNull => false
  | Some (SBool b) => b
  | Some (SNum n) => negb (n =? 0)%Z
  | Some (SStr s) => negb (is_empty s)
  end.

(** [String(v)] *)
Definition String_ (v : option scalar) : jsstring :=
  match v with
  | None => utf16 "undefined"
  | Some SNull => utf16 "null"
  | Some (SBool true) => utf16 "true"
  | Some (SBool false) => utf16 "false"
  | Some (SNum n) => (if (n <? 0)%Z then utf16 "-" else []) ++ decimal (Z.abs_N n)
  | Some (SStr s) => s
  end.

(** Completion of a piece of JavaScript: a value, or a thrown [Error]. *)
Record exn := Error { message : jsstring }.

Inductive completion (A : Type) :=
| Normal (a : A)
| Throw (e : exn).
Arguments Normal {A} a.
Arguments Throw {A} e.

(** [{ ...job, id: job.id ? String(job.id) : `fallback-job-${index}` }] *)
Definition withStringId (job : listing) (index : nat) : listing :=
  {| id := Some (SStr (if truthy (id job) then String_ (id job)
                       else utf16 "fallback-job-" ++ decimal (N.of_nat index)));
     title := title job;
     company := company job;
     location := location job;
     type := type job;
     description := description job;
     url := url job;
     salary := salary job;
     posted := posted job |}.

(** [jobResults.map((job, index) => ...)], from [index] on.  An element of
    a parsed array can be [null] (here [None]); reading [job.id] then
    throws a TypeError. *)
Fixpoint map_withStringId (index : nat) (jobResults : list (option listing))
  : completion (list listing) :=
  match jobResults with
  | [] => Normal []
  | None :: _ =>
      Throw (Error (utf16 "Cannot read properties of null (reading 'id')"))
  | Some job :: rest =>
      match map_withStringId (S index) rest with
      | Normal final => Normal (withStringId job index :: final)
      | Throw e => Throw e
      end
  end.

(** The ids of a result set, in order, as React keys. *)
Definition keys (jobs : list listing) : list jsstring :=
  map (fun job => String_ (id job)) jobs.
(** ** The fallback dataset and the simulated analysis

    Both clients carry the same [RICH_FALLBACK_JOBS] and the same text
    returned by [fetchAIInsights] when [isFallback] is set. *)

Definition RICH_FALLBACK_JOBS : list listing := [
  {| id := Some (SNum 101);
     title := utf16 "English-Speaking Office Coordinator";
     company := utf16 "TechHub Vienna";
     location := utf16 "Vienna, 1010";
     type := utf16 "Full-time";
     description := utf16 "Manage office logistics and support the international team. Requires excellent English communication skills.";
     url := Some (utf16 "#");
     salary := Some (utf16 "€32,000 - €36,000");
     posted := Some (utf16 "1 day ago") |};
  {| id := Some (SNum 102);
     title := utf16 "Part-Time Animal Care Assistant";
     company := utf16 "Mödling Vet Clinic";
     location := utf16 "Mödling";
     type := utf16 "Part-time";
     description := utf16 "Assist veterinarians with basic patient care and administrative tasks. No German required.";
     url := Some (utf16 "#");
     salary := Some (utf16 "€15/hour");
     posted := Some (utf16 "3 days ago") |};
  {| id := Some (SNum 103);
     title := utf16 "Entry-Level Data Entry Specialist";
     company := utf16 "Global Logistics AG";
     location := utf16 "Vienna, 1030";
     type := utf16 "Contract";
     description := utf16 "Input and verify shipping data for European distribution networks. Fast-paced, detail-oriented work.";
     url := Some (utf16 "#");
     salary := Some (utf16 "Not specified");
     posted := Some (utf16 "1 week ago") |};
  {| id := Some (SNum 104);
     title := utf16 "Hotel Front Desk Intern (Summer)";
     company := utf16 "Imperial Palace Hotel";
     location := utf16 "Vienna, 1070";
     type := utf16 "Internship";
     description := utf16 "Join our hospitality team for a 3-month paid internship. Focus on guest relations and check-in procedures.";
     url := Some (utf16 "#");
     salary := Some (utf16 "€800/month");
     posted := Some (utf16 "5 days ago") |}
].

Definition simulated_analysis : jsstring :=
  utf16 (
    ("📊 AI Analysis: Based on the **Fallback Data** provided, the results are a good match for " +:+ dq +:+ "English-speaking entry-level" +:+ dq +:+ " roles in the hospitality and administrative sectors. You successfully targeted specific locations like Mödling and Vienna.") +:+ lf
    +:+ "        " +:+ lf
    +:+ "💡 Tip: Since the job market for English-only roles is competitive, consider broadening your search terms to include roles that may be bilingual but accept English as the primary internal language." +:+ lf
    +:+ lf
    +:+ "🔑 Suggested keywords to add: 'customer support', 'Bilingual', 'office assistant', 'minijob'" +:+ lf
    +:+ "❌ Consider removing: 'fast food' (unless specifically desired), 'animal care' (if you want to focus on office/hospitality)").

(** ** Search criteria *)

Module Criteria.
Record t := {
  location : jsstring;
  keywords : jsstring;
  excludeKeywords : jsstring;
  jobTypes : list jsstring
}.
End Criteria.

(** ** Effects: the network, the console and the timer *)

(** A request body, by what the clients put in it. *)
Inductive payload :=
| GeminiPayload (contents : jsstring) (systemInstruction : option jsstring)
                (google_search : bool)
| SearchBody (combinedPrompt : jsstring)
| InsightsBody (searchParams : Criteria.t) (jobResultsCount : nat).

Record request := {
  req_url : jsstring;
  req_headers : list (jsstring * jsstring);
  req_body : payload
}.

(** What one call of [fetch] settles to: the promise rejects (a network
    failure), or a response arrives. *)
Inductive outcome (B : Type) :=
| Rejected (reason : jsstring)
| Responded (code : N) (parsed_body : completion B).
Arguments Rejected {B} reason.
Arguments Responded {B} code parsed_body.

(** A response: its [status], and what [response.json()] settles to. *)
Record response (B : Type) := {
  status : N;
  json : completion B
}.
Arguments status {B} r.
Arguments json {B} r.

(** [response.ok] *)
Definition ok {B} (r : response B) : bool :=
  (200 <=? status r) && (status r <=? 299).

(** An argument of a console call. *)
Inductive console_arg :=
| CStr (s : jsstring)
| CHeaders (h : list (jsstring * jsstring))
| CPayload (p : payload)
| CError (e : exn)
| CResult.

(** What a run does to the outside, in order. *)
Inductive event :=
| EFetch (r : request)
| ETimeout (delay : N)
| EConsole (method : string) (args : list console_arg).

(** The machine a client runs on: the component state [ui], the effects so
    far, and the outcomes of the [fetch] calls still to come ([network 0] is
    the next one). *)
Record machine (B U : Type) := {
  ui : U;
  trace : list event;
  network : nat -> outcome B
}.
Arguments ui {B U} m.
Arguments trace {B U} m.
Arguments network {B U} m.

Definition M (B U A : Type) : Type := machine B U -> completion A * machine B U.

Section Effects.
Context {B U : Type}.

Definition ret {A} (a : A) : M B U A := fun m => (Normal a, m).

Definition bind {A A'} (c : M B U A) (k : A -> M B U A') : M B U A' :=
  fun m =>
    match c m with
    | (Normal a, m') => k a m'
    | (Throw e, m') => (Throw e, m')
    end.

Definition throw {A} (e : exn) : M B U A := fun m => (Throw e, m).

(** [try { c } catch (error) { handler }] *)
Definition try_catch {A} (c : M B U A) (handler : exn -> M B U A) : M B U A :=
  fun m =>
    match c m with
    | (Normal a, m') => (Normal a, m')
    | (Throw e, m') => handler e m'
    end.

(** [await] of a promise that is already settled. *)
Definition await {A} (p : completion A) : M B U A := fun m => (p, m).

Definition emit (e : event) : M B U unit :=
  fun m =>
    (Normal tt,
     {| ui := ui m; trace := trace m ++ [e]; network := network m |}).

(** [await fetch(url, options)] *)
Definition fetch (r : request) : M B U (response B) :=
  fun m =>
    let m' := {| ui := ui m;
                 trace := trace m ++ [EFetch r];
                 network := fun i => network m (S i) |} in
    match network m 0%nat with
    | Rejected reason => (Throw (Error reason), m')
    | Responded code parsed_body =>
        (Normal {| status := code; json := parsed_body |}, m')
    end.

(** [await new Promise(resolve => setTimeout(resolve, delay))] *)
Definition setTimeout (delay : N) : M B U unit := emit (ETimeout delay).

Definition console (method : string) (args : list console_arg) : M B U unit :=
  emit (EConsole method args).

(** A state setter of the component. *)
Definition set (f : U -> U) : M B U unit :=
  fun m =>
    (Normal tt,
     {| ui := f (ui m); trace := trace m; network := network m |}).

(** The state the component was rendered with. *)
Definition rendered : M B U U := fun m => (Normal (ui m), m).

(** A call of a module-level function: it runs on the same network,
    console and timer, and has no access to the component state. *)
Definition call {A} (c : M B unit A) : M B U A :=
  fun m =>
    match c {| ui := tt; trace := trace m; network := network m |} with
    | (r, m') => (r, {| ui := ui m; trace := trace m'; network := network m' |})
    end.
End Effects.

Declare Scope js_scope.
Delimit Scope js_scope with js.
Notation "x <- c ;; k" := (bind c (fun x => k))
  (at level 100, c at next level, right associativity) : js_scope.
Notation "c ;; k" := (bind c (fun _ => k))
  (at level 100, right associativity) : js_scope.

(** *** Reading a trace *)

(** The waits before each call of [fetch]: element [k] is the time spent in
    [setTimeout] after the previous call (after the start, for [k = 0]) and
    before call [k]. *)
Fixpoint waits (acc : N) (tr : list event) : list N :=
  match tr with
  | [] => []
  | EFetch _ :: tr' => acc :: waits 0 tr'
  | ETimeout delay :: tr' => waits (acc + delay) tr'
  | EConsole _ _ :: tr' => waits acc tr'
  end.

Definition backoff (tr : list event) : list N := waits 0 tr.

(** The number of calls of [fetch]. *)
Definition attempts (tr : list event) : nat := length (backoff tr).

(** The credential [key] is written out by a console call. *)
Definition mentions (key : jsstring) (a : console_arg) : bool :=
  match a with
  | CStr s => includes s key
  | CHeaders h => existsb (fun kv => includes (fst kv) key || includes (snd kv) key) h
  | CPayload (GeminiPayload contents systemInstruction _) =>
      includes contents key
      || match systemInstruction with Some s => includes s key | None => false end
  | CPayload (SearchBody combinedPrompt) => includes combinedPrompt key
  | CPayload (InsightsBody _ _) => false
  | CError e => includes (message e) key
  | CResult => false
  end.

Definition logs (key : jsstring) (e : event) : bool :=
  match e with
  | EConsole _ args => existsb (mentions key) args
  | _ => false
  end.

(** ** The direct-API client

    The component that calls the Gemini endpoint from the browser
    ([extractJsonFromText], [fetchStructuredJobData], [fetchAIInsights],
    [runSimpleApiTest] and its [App]). *)

Module Legacy.

(** The body of a Gemini response once [response.json()] has parsed it:
    a falsy value, or a value whose
    [candidates?.[0]?.content?.parts?.[0]?.text] is [text]. *)
Inductive envelope :=
| Falsy
| Candidates (text : option jsstring).

(** What [JSON.parse] gives for the extracted text. *)
Inductive parsed :=
| IsArray (items : list (option listing))
| NotArray.

(** Module-level configuration and the built-ins the client calls. *)
Record env := {
  API_KEY : jsstring;
  JSON_parse : jsstring -> completion parsed;
  JSON_stringify : Criteria.t -> jsstring;
  (** the fixed system instructions of the two requests *)
  jobSearchInstruction : jsstring;
  insightsInstruction : jsstring;
  (** [response.statusText] of a status *)
  statusText : N -> jsstring
}.

Definition MODEL : jsstring := utf16 "gemini-2.5-flash-preview-05-20".
Definition BASE_API_URL : jsstring :=
  utf16 "https://generativelanguage.googleapis.com/v1beta/models".
Definition API_ENDPOINT : jsstring :=
  BASE_API_URL ++ utf16 "/" ++ MODEL ++ utf16 ":generateContent".

Definition extractJsonFromText := Extractor.extractJsonFromText.

Record state := {
  searchParams : Criteria.t;
  feedback : gmap jsstring jsstring;
  isSearching : bool;
  jobs : list listing;
  showSettings : bool;
  aiInsights : jsstring;
  searchError : jsstring;
  searchProgress : jsstring;
  isFallbackMode : bool
}.

Definition with_feedback v (s : state) : state :=
  {| searchParams := searchParams s; feedback := v; isSearching := isSearching s;
     jobs := jobs s; showSettings := showSettings s; aiInsights := aiInsights s;
     searchError := searchError s; searchProgress := searchProgress s;
     isFallbackMode := isFallbackMode s |}.
Definition with_isSearching v (s : state) : state :=
  {| searchParams := searchParams s; feedback := feedback s; isSearching := v;
     jobs := jobs s; showSettings := showSettings s; aiInsights := aiInsights s;
     searchError := searchError s; searchProgress := searchProgress s;
     isFallbackMode := isFallbackMode s |}.
Definition with_jobs v (s : state) : state :=
  {| searchParams := searchParams s; feedback := feedback s; isSearching := isSearching s;
     jobs := v; showSettings := showSettings s; aiInsights := aiInsights s;
     searchError := searchError s; searchProgress := searchProgress s;
     isFallbackMode := isFallbackMode s |}.
Definition with_aiInsights v (s : state) : state :=
  {| searchParams := searchParams s; feedback := feedback s; isSearching := isSearching s;
     jobs := jobs s; showSettings := showSettings s; aiInsights := v;
     searchError := searchError s; searchProgress := searchProgress s;
     isFallbackMode := isFallbackMode s |}.
Definition with_searchError v (s : state) : state :=
  {| searchParams := searchParams s; feedback := feedback s; isSearching := isSearching s;
     jobs := jobs s; showSettings := showSettings s; aiInsights := aiInsights s;
     searchError := v; searchProgress := searchProgress s;
     isFallbackMode := isFallbackMode s |}.
Definition with_searchProgress v (s : state) : state :=
  {| searchParams := searchParams s; feedback := feedback s; isSearching := isSearching s;
     jobs := jobs s; showSettings := showSettings s; aiInsights := aiInsights s;
     searchError := searchError s; searchProgress := v;
     isFallbackMode := isFallbackMode s |}.
Definition with_isFallbackMode v (s : state) : state :=
  {| searchParams := searchParams s; feedback := feedback s; isSearching := isSearching s;
     jobs := jobs s; showSettings := showSettings s; aiInsights := aiInsights s;
     searchError := searchError s; searchProgress := searchProgress s;
     isFallbackMode := v |}.

Section Client.
Variable E : env.
Local Open Scope js_scope.

Definition maxRetries : nat := 5.

(** The headers of both requests: the key goes into [x-goog-api-key]
    when there is one. *)
Definition headers : list (jsstring * jsstring) :=
  (utf16 "Content-Type", utf16 "application/json")
  :: (if is_empty (API_KEY E) then []
      else [(utf16 "x-goog-api-key", API_KEY E)]).

(** [for (let attempt = 0; attempt < maxRetries; attempt++)] of
    [fetchStructuredJobData], with [remaining = maxRetries - attempt]
    iterations to go.  [Some result] is the [break]; [None] is the loop
    running out with [result] still undefined. *)
Fixpoint job_search_loop (options : request) (remaining : nat) (attempt : N)
  : M envelope unit (option envelope) :=
  match remaining with
  | O => ret None
  | S remaining' =>
      try_catch
        (response <- fetch options ;;
         if status response =? 401 then
           throw (Error (utf16 "HTTP error! status: 401 (Unauthorized)"))
         else if negb (ok response) then
           throw (Error (utf16 "HTTP error! status: " ++ decimal (status response)))
         else
           result <- await (json response) ;;
           ret (Some result))
        (fun error =>
           if includes (message error) (utf16 "401") then throw error
           else if attempt =? N.of_nat maxRetries - 1 then
             console "error" [CStr (utf16 "Max retries reached. Failing."); CError error] ;;
             throw error
           else
             let delay := 2 ^ attempt * 1000 in
             setTimeout delay ;;
             job_search_loop options remaining' (attempt + 1))
  end.

Definition fetchStructuredJobData (combinedPrompt : jsstring)
  : M envelope unit parsed :=
  let systemPrompt := jobSearchInstruction E in
  let payload := GeminiPayload combinedPrompt (Some systemPrompt) true in
  (* [payload.contents] is the one-element array literal just built *)
  if is_empty combinedPrompt then
    throw (Error (utf16 "Payload validation failed: Missing prompt content."))
  else
  let finalUrl := API_ENDPOINT in
  let options := {| req_url := finalUrl; req_headers := headers; req_body := payload |} in
  console "groupCollapsed" [CStr (utf16 "Gemini API Request Details (Job Search)")] ;;
  console "log" [CStr (utf16 "Request URL:"); CStr finalUrl] ;;
  let headersForLogging :=
    filter (fun h => same (fst h) (utf16 "x-goog-api-key") = false) (req_headers options) in
  console "log" [CStr (utf16 "Headers:"); CHeaders headersForLogging] ;;
  console "log" [CStr (utf16 "Payload:"); CPayload payload] ;;
  console "groupEnd" [] ;;
  result <- job_search_loop options maxRetries 0 ;;
  match result with
  | None | Some Falsy =>
      throw (Error (utf16 "API call failed after all retries."))
  | Some (Candidates text) =>
      match text with
      | None | Some [] =>
          console "error"
            [CStr (utf16 "API Error: Received API response but found no text content in candidates structure. Full result:");
             CResult] ;;
          throw (Error (utf16 "API response was valid, but contained no content."))
      | Some rawText =>
          console "log" [CStr (utf16 "Raw API Text Content Received:"); CStr rawText] ;;
          let cleanJsonText := extractJsonFromText rawText in
          try_catch
            (await (JSON_parse E cleanJsonText))
            (fun e =>
               console "error" [CStr (utf16 "JSON Parsing Error:"); CError e] ;;
               throw (Error (utf16 "Failed to parse structured job data: The AI returned improperly formatted data.")))
      end
  end.

(** The loop of [fetchAIInsights]: the same, without the two tests for
    a 401. *)
Fixpoint insights_loop (options : request) (remaining : nat) (attempt : N)
  : M envelope unit (option envelope) :=
  match remaining with
  | O => ret None
  | S remaining' =>
      try_catch
        (response <- fetch options ;;
         if negb (ok response) then
           throw (Error (utf16 "HTTP error! status: " ++ decimal (status response)))
         else
           result <- await (json response) ;;
           ret (Some result))
        (fun error =>
           if attempt =? N.of_nat maxRetries - 1 then
             console "error" [CStr (utf16 "Max retries reached for insights. Failing."); CError error] ;;
             throw error
           else
             let delay := 2 ^ attempt * 1000 in
             setTimeout delay ;;
             insights_loop options remaining' (attempt + 1))
  end.

Definition fetchAIInsights (searchParams : Criteria.t) (jobResults : list listing)
    (isFallback : bool) : M envelope unit jsstring :=
  if isFallback then ret simulated_analysis else
  let systemPrompt := insightsInstruction E in
  let userQuery :=
    utf16 "Analyze the current search parameters: " ++ JSON_stringify E searchParams
    ++ utf16 ". The recent search returned " ++ decimal (N.of_nat (length jobResults))
    ++ utf16 " jobs. Provide insights based on this context." in
  let payload := GeminiPayload userQuery (Some systemPrompt) false in
  if is_empty userQuery then
    throw (Error (utf16 "Payload validation failed: Missing user query for insights."))
  else
  let finalUrl := API_ENDPOINT in
  let options := {| req_url := finalUrl; req_headers := headers; req_body := payload |} in
  result <- insights_loop options maxRetries 0 ;;
  match result with
  | Some (Candidates (Some (c :: text))) => ret (c :: text)
  | _ => ret (utf16 "No insights generated.")
  end.

(** [runSimpleApiTest]: one request, the key in the query string. *)
Definition runSimpleApiTest : M envelope unit envelope :=
  let testPrompt := utf16 "Hello, world!" in
  let payload := GeminiPayload testPrompt None false in
  let finalUrl := API_ENDPOINT ++ utf16 "?key=" ++ API_KEY E in
  let headers := [(utf16 "Content-Type", utf16 "application/json")] in
  let options := {| req_url := finalUrl; req_headers := headers; req_body := payload |} in
  console "groupCollapsed" [CStr (utf16 "Gemini API Request Details (Simple Test)")] ;;
  console "log" [CStr (utf16 "Request URL:"); CStr finalUrl] ;;
  console "log" [CStr (utf16 "Headers:"); CHeaders (req_headers options)] ;;
  console "log" [CStr (utf16 "Payload:"); CPayload payload] ;;
  console "groupEnd" [] ;;
  response <- fetch options ;;
  if negb (ok response) then
    throw (Error (utf16 "HTTP error! status: " ++ decimal (status response)
                  ++ utf16 " " ++ statusText E (status response)))
  else await (json response).
End Client.

Section Component.
Variable E : env.
Local Open Scope js_scope.

Definition generateAIInsights (searchParams : Criteria.t)
    (jobResults : list listing) (isFallback : bool) : M envelope state unit :=
  try_catch
    (insights <- call (fetchAIInsights E searchParams jobResults isFallback) ;;
     set (with_aiInsights insights))
    (fun error =>
       console "error" [CStr (utf16 "Insight generation failed:"); CError error] ;;
       set (with_aiInsights (utf16 "Failed to generate insights."))).

(** The prompt that [handleSearch] builds from the criteria. *)
Definition combinedPrompt_of (searchParams : Criteria.t) : jsstring :=
  utf16 "Search for job listings in Austria for an English-speaking entry-level graduate near "
  ++ Criteria.location searchParams ++ utf16 ("." +:+ lf +:+ "Keywords: ")
  ++ Criteria.keywords searchParams ++ utf16 ". Exclude: "
  ++ Criteria.excludeKeywords searchParams ++ utf16 ". Job Types: "
  ++ join (utf16 ", ") (Criteria.jobTypes searchParams) ++ utf16 ".".

Definition handleSearch : M envelope state unit :=
  now <- rendered ;;
  let searchParams := searchParams now in
  set (with_isSearching true) ;;
  set (with_jobs []) ;;
  set (with_searchError []) ;;
  set (with_aiInsights []) ;;
  set (with_isFallbackMode false) ;;
  (* [jobResults] and [isFallback] as the try statement leaves them *)
  locals <-
    try_catch
      (set (with_searchProgress (utf16 "1/3: Generating comprehensive search query...")) ;;
       let combinedPrompt := combinedPrompt_of searchParams in
       set (with_searchProgress (utf16 "2/3: Searching Google and extracting structured job data...")) ;;
       jobResults <- call (fetchStructuredJobData E combinedPrompt) ;;
       match jobResults with
       | IsArray (job :: rest) => ret (job :: rest, false)
       | IsArray [] | NotArray =>
           set (with_searchError (utf16 "Search completed, but the model could not find or extract any structured job listings based on your criteria. Try broadening your search.")) ;;
           ret (map Some RICH_FALLBACK_JOBS, true)
       end)
      (fun error =>
         console "error" [CStr (utf16 "Search error:"); CError error] ;;
         if includes (message error) (utf16 "HTTP error! status: 401") then
           set (with_searchError (utf16 "Authentication Failed (401). The live API key cannot be injected. Showing **Fallback Data** to demonstrate app functionality.")) ;;
           ret (map Some RICH_FALLBACK_JOBS, true)
         else
           set (with_searchError (utf16 "A critical API error occurred during the search. Showing fallback data. Error: " ++ message error)) ;;
           ret (map Some RICH_FALLBACK_JOBS, true)) ;;
  let jobResults := fst locals in
  let isFallback := snd locals in
  set (with_isFallbackMode isFallback) ;;
  finalJobs <- await (map_withStringId 0 jobResults) ;;
  set (with_jobs finalJobs) ;;
  set (with_feedback ∅) ;;
  set (with_searchProgress (utf16 "3/3: Generating AI insights...")) ;;
  generateAIInsights searchParams finalJobs isFallback ;;
  set (with_searchProgress []) ;;
  set (with_isSearching false).
End Component.

End Legacy.

(** Running a client from a component state, a fresh trace and the
    outcomes of the calls to come. *)
Definition run {B U A} (c : M B U A) (s : U) (net : nat -> outcome B)
  : completion A * machine B U :=
  c {| ui := s; trace := []; network := net |}.

(** A network given by its first outcomes, then [rest] for ever. *)
Definition outcomes {B} (first : list (outcome B)) (rest : outcome B)
  : nat -> outcome B :=
  fun i => nth i first rest.

(** ** The serverless-backed client ([src/App.jsx])

    The component that calls the application's own [/api/search] and
    [/api/insights] endpoints. *)

Module App.

(** An insight report, by the properties the component renders. *)
Record report := {
  analysis : option jsstring;
  suggestions : option jsstring;
  keywordsToAdd : option (list jsstring);
  keywordsToRemove : option (list jsstring)
}.

(** The values the [aiInsights] state takes. *)
Inductive insights :=
| null
| undefined
| Text (s : jsstring)
| Report (r : report).

(** The body of a backend response once [response.json()] has parsed it:
    [null], an array, or another value with its [error] and [insights]
    properties ([None]: missing or falsy). *)
Inductive data :=
| DNull
| DArray (items : list (option listing))
| DOther (error : option jsstring) (insights : option report).

(** [data.error || fallback]; reading a property of [null] throws. *)
Definition error_or (d : data) (fallback : jsstring) : completion jsstring :=
  match d with
  | DNull => Throw (Error (utf16 "Cannot read properties of null (reading 'error')"))
  | DArray _ => Normal fallback
  | DOther (Some (c :: msg)) _ => Normal (c :: msg)
  | DOther _ _ => Normal fallback
  end.

(** [data.insights] *)
Definition insights_of (d : data) : completion insights :=
  match d with
  | DNull => Throw (Error (utf16 "Cannot read properties of null (reading 'insights')"))
  | DArray _ => Normal undefined
  | DOther _ (Some r) => Normal (Report r)
  | DOther _ None => Normal undefined
  end.

Record state := {
  searchParams : Criteria.t;
  feedback : gmap jsstring jsstring;
  isSearching : bool;
  jobs : list listing;
  showSettings : bool;
  aiInsights : insights;
  searchError : jsstring;
  searchProgress : jsstring;
  isFallbackMode : bool;
  useFallbackForTesting : bool
}.

Definition with_feedback v (s : state) : state :=
  {| searchParams := searchParams s; feedback := v; isSearching := isSearching s;
     jobs := jobs s; showSettings := showSettings s; aiInsights := aiInsights s;
     searchError := searchError s; searchProgress := searchProgress s;
     isFallbackMode := isFallbackMode s;
     useFallbackForTesting := useFallbackForTesting s |}.
Definition with_isSearching v (s : state) : state :=
  {| searchParams := searchParams s; feedback := feedback s; isSearching := v;
     jobs := jobs s; showSettings := showSettings s; aiInsights := aiInsights s;
     searchError := searchError s; searchProgress := searchProgress s;
     isFallbackMode := isFallbackMode s;
     useFallbackForTesting := useFallbackForTesting s |}.
Definition with_jobs v (s : state) : state :=
  {| searchParams := searchParams s; feedback := feedback s; isSearching := isSearching s;
     jobs := v; showSettings := showSettings s; aiInsights := aiInsights s;
     searchError := searchError s; searchProgress := searchProgress s;
     isFallbackMode := isFallbackMode s;
     useFallbackForTesting := useFallbackForTesting s |}.
Definition with_aiInsights v (s : state) : state :=
  {| searchParams := searchParams s; feedback := feedback s; isSearching := isSearching s;
     jobs := jobs s; showSettings := showSettings s; aiInsights := v;
     searchError := searchError s; searchProgress := searchProgress s;
     isFallbackMode := isFallbackMode s;
     useFallbackForTesting := useFallbackForTesting s |}.
Definition with_searchError v (s : state) : state :=
  {| searchParams := searchParams s; feedback := feedback s; isSearching := isSearching s;
     jobs := jobs s; showSettings := showSettings s; aiInsights := aiInsights s;
     searchError := v; searchProgress := searchProgress s;
     isFallbackMode := isFallbackMode s;
     useFallbackForTesting := useFallbackForTesting s |}.
Definition with_searchProgress v (s : state) : state :=
  {| searchParams := searchParams s; feedback := feedback s; isSearching := isSearching s;
     jobs := jobs s; showSettings := showSettings s; aiInsights := aiInsights s;
     searchError := searchError s; searchProgress := v;
     isFallbackMode := isFallbackMode s;
     useFallbackForTesting := useFallbackForTesting s |}.
Definition with_isFallbackMode v (s : state) : state :=
  {| searchParams := searchParams s; feedback := feedback s; isSearching := isSearching s;
     jobs := jobs s; showSettings := showSettings s; aiInsights := aiInsights s;
     searchError := searchError s; searchProgress := searchProgress s;
     isFallbackMode := v;
     useFallbackForTesting := useFallbackForTesting s |}.

Section Client.
Local Open Scope js_scope.

Definition json_headers : list (jsstring * jsstring) :=
  [(utf16 "Content-Type", utf16 "application/json")].

Definition fetchStructuredJobData (combinedPrompt : jsstring) : M data unit data :=
  response <- fetch {| req_url := utf16 "/api/search";
                       req_headers := json_headers;
                       req_body := SearchBody combinedPrompt |} ;;
  data <- await (json response) ;;
  if negb (ok response) then
    msg <- await (error_or data (utf16 "HTTP error! status: " ++ decimal (status response))) ;;
    throw (Error msg)
  else ret data.

Definition fetchAIInsights (searchParams : Criteria.t) (jobResults : list listing)
    (isFallback : bool) : M data unit insights :=
  if isFallback then ret (Text simulated_analysis) else
  response <- fetch {| req_url := utf16 "/api/insights";
                       req_headers := json_headers;
                       req_body := InsightsBody searchParams (length jobResults) |} ;;
  data <- await (json response) ;;
  if negb (ok response) then
    msg <- await (error_or data (utf16 "HTTP error! status: " ++ decimal (status response))) ;;
    throw (Error msg)
  else await (insights_of data).
End Client.

Section Component.
Local Open Scope js_scope.

Definition generateAIInsights (searchParams : Criteria.t)
    (jobResults : list listing) (isFallback : bool) : M data state unit :=
  try_catch
    (insights <- call (fetchAIInsights searchParams jobResults isFallback) ;;
     set (with_aiInsights insights))
    (fun error =>
       console "error" [CStr (utf16 "Insight generation failed:"); CError error] ;;
       set (with_aiInsights
              (Report {| analysis := Some (utf16 "Insight generation failed: " ++ message error);
                         suggestions := None;
                         keywordsToAdd := None;
                         keywordsToRemove := None |}))).

Definition combinedPrompt_of (searchParams : Criteria.t) : jsstring :=
  utf16 "Search for job listings in Austria for an English-speaking entry-level graduate near "
  ++ Criteria.location searchParams ++ utf16 ("." +:+ lf +:+ "Keywords: ")
  ++ Criteria.keywords searchParams ++ utf16 ". Exclude: "
  ++ Criteria.excludeKeywords searchParams ++ utf16 ". Job Types: "
  ++ join (utf16 ", ") (Criteria.jobTypes searchParams) ++ utf16 ".".

Definition configuration_error : jsstring :=
  utf16 ("Configuration Error: The GEMINI_API_KEY is missing. " +:+ lf
         +:+ "        - If running locally with 'vercel dev', ensure your '.env.development.local' file is correct." +:+ lf
         +:+ "        - If this is a deployed app, check your Environment Variables in your Vercel project settings.").

Definition handleSearch : M data state unit :=
  now <- rendered ;;
  let searchParams := searchParams now in
  let useFallbackForTesting := useFallbackForTesting now in
  set (with_isSearching true) ;;
  set (with_jobs []) ;;
  set (with_searchError []) ;;
  set (with_aiInsights null) ;;
  set (with_isFallbackMode false) ;;
  if useFallbackForTesting then
    set (with_searchProgress (utf16 "1/1: Loading fallback data for testing...")) ;;
    set (with_isFallbackMode true) ;;
    fallbackJobs <- await (map_withStringId 0 (map Some RICH_FALLBACK_JOBS)) ;;
    set (with_jobs fallbackJobs) ;;
    set (with_searchError (utf16 "Displaying hardcoded fallback data as requested by the testing setting.")) ;;
    generateAIInsights searchParams fallbackJobs true ;;
    set (with_isSearching false) ;;
    set (with_searchProgress [])
  else
  jobResults <-
    try_catch
      (set (with_searchProgress (utf16 "1/3: Generating comprehensive search query...")) ;;
       let combinedPrompt := combinedPrompt_of searchParams in
       set (with_searchProgress (utf16 "2/3: Searching Google and extracting structured job data...")) ;;
       jobResults <- call (fetchStructuredJobData combinedPrompt) ;;
       match jobResults with
       | DArray (job :: rest) => ret (job :: rest)
       | DArray [] | DNull | DOther _ _ =>
           set (with_searchError (utf16 "No Results Found. The AI could not find any job listings matching your criteria. Try broadening your search terms.")) ;;
           ret []
       end)
      (fun error =>
         console "error" [CStr (utf16 "Search error:"); CError error] ;;
         (if includes (message error) (utf16 "GEMINI_API_KEY") then
            set (with_searchError configuration_error)
          else
            set (with_searchError (utf16 "A critical API error occurred during the search. Error: " ++ message error))) ;;
         ret []) ;;
  finalJobs <- await (map_withStringId 0 jobResults) ;;
  set (with_jobs finalJobs) ;;
  set (with_feedback ∅) ;;
  (if (0 <? length finalJobs)%nat then
     set (with_searchProgress (utf16 "3/3: Generating AI insights...")) ;;
     generateAIInsights searchParams finalJobs false
   else ret tt) ;;
  set (with_searchProgress []) ;;
  set (with_isSearching false).
End Component.

End App.

(** ** What both components render and toggle *)

(** The "View Job" anchor of a listing. *)
Record anchor := {
  href : option jsstring;
  aria_disabled : bool;
  (** whether [onClick] calls [e.preventDefault()] *)
  prevents_default : bool
}.

(** [job.url && (job.url.startsWith('http://') || job.url.startsWith('https://'))],
    as a condition. *)
Definition isValidUrl (job : listing) : bool :=
  match url job with
  | None => false
  | Some u =>
      negb (is_empty u)
      && (startsWith u (utf16 "http://") || startsWith u (utf16 "https://"))
  end.

Definition viewJob (job : listing) : anchor :=
  {| href := url job;
     aria_disabled := negb (isValidUrl job);
     prevents_default := negb (isValidUrl job) |}.

(** The link can be followed. *)
Definition actionable (a : anchor) : bool :=
  negb (aria_disabled a) && negb (prevents_default a).

(** The updater that [handleFeedback(job, type)] hands to [setFeedback]:
    [prevFeedback] is an object used as a map from ids to feedback types,
    and [job.id] is the property key [String(job.id)]. *)
Definition handleFeedback (job : listing) (type : jsstring)
    (prevFeedback : gmap jsstring jsstring) : gmap jsstring jsstring :=
  let currentFeedback := prevFeedback !! String_ (id job) in
  let newFeedback := prevFeedback in
  if bool_decide (currentFeedback = Some type)
  then delete (String_ (id job)) newFeedback
  else <[String_ (id job) := type]> newFeedback.

(** * Stating the properties *)

(** ** Fenced blocks and arrays in a text *)

(** [p] occurs in [s]. *)
Definition occurs (p s : jsstring) : Prop := ∃ a c, s = a ++ p ++ c.

(** [a ++ p ++ c] is cut at the leftmost occurrence of [p]. *)
Definition leftmost (p a c : jsstring) : Prop :=
  ∀ a' c', a ++ p ++ c = a' ++ p ++ c' → (length a ≤ length a')%nat.

(** The text holds a fenced block: a fence and, after it, another one. *)
Definition has_fenced_block (text : jsstring) : Prop :=
  ∃ a b c, text = a ++ Extractor.fence ++ b ++ Extractor.fence ++ c.

(** The first fenced block of [text] has [interior] between its optional
    [tag] and its closing fence: it opens at the leftmost fence of the
    text, the tag is taken when it is there, and the block closes at the
    leftmost fence after that. *)
Definition first_block (text tag interior : jsstring) : Prop :=
  ∃ pre post,
    text = pre ++ Extractor.fence ++ tag ++ interior ++ Extractor.fence ++ post
    ∧ leftmost Extractor.fence pre (tag ++ interior ++ Extractor.fence ++ post)
    ∧ (tag = Extractor.json_tag
       ∨ (tag = []
          ∧ startsWith (interior ++ Extractor.fence ++ post) Extractor.json_tag = false))
    ∧ leftmost Extractor.fence interior post.

(** The text holds a bracketed array: a [[] and, after it, a []]. *)
Definition has_array (text : jsstring) : Prop :=
  ∃ a b c, text = a ++ [Extractor.lbracket] ++ b ++ [Extractor.rbracket] ++ c.

(** ** Attempts of the retry loops *)

(** [f <$$> c]: the completion [c] with [f] applied to its value. *)
Definition completion_map {A A'} (f : A → A') (c : completion A) : completion A' :=
  match c with
  | Normal a => Normal (f a)
  | Throw e => Throw e
  end.
Infix "<$$>" := completion_map (at level 61, left associativity).

(** What one attempt of the job-search loop settles to on an outcome of
    [fetch]: the completion of its [try] block. *)
Definition job_search_attempt (o : outcome Legacy.envelope)
  : completion Legacy.envelope :=
  match o with
  | Rejected reason => Throw (Error reason)
  | Responded code parsed_body =>
      if code =? 401 then
        Throw (Error (utf16 "HTTP error! status: 401 (Unauthorized)"))
      else if (200 <=? code) && (code <=? 299) then parsed_body
      else Throw (Error (utf16 "HTTP error! status: " ++ decimal code))
  end.

(** The same for the insights loop. *)
Definition insights_attempt (o : outcome Legacy.envelope)
  : completion Legacy.envelope :=
  match o with
  | Rejected reason => Throw (Error reason)
  | Responded code parsed_body =>
      if (200 <=? code) && (code <=? 299) then parsed_body
      else Throw (Error (utf16 "HTTP error! status: " ++ decimal code))
  end.

(** An attempt failed and the loop goes on, unless it was the last one:
    the error is not one that [fatal] singles out. *)
Definition retryable (fatal : exn → bool) (c : completion Legacy.envelope) : bool :=
  match c with
  | Normal _ => false
  | Throw e => negb (fatal e)
  end.

(** The job-search loop rethrows at once an error whose message holds
    ["401"]; the insights loop has no such test. *)
Definition mentions_401 (e : exn) : bool := includes (message e) (utf16 "401").
Definition never (e : exn) : bool := false.

(** The waits of a retry loop from [attempt] on, in milliseconds:
    [2 ^ attempt] seconds, doubling. *)
Fixpoint doubling (attempt : N) (k : nat) : list N :=
  match k with
  | O => []
  | S k' => 2 ^ attempt * 1000 :: doubling (attempt + 1) k'
  end.

(** The waits before attempts 0 to 4. *)
Definition schedule : list N := [0; 1000; 2000; 4000; 8000].

(** The delays of the [setTimeout] calls of a trace, in order. *)
Definition timeouts (tr : list event) : list N :=
  omap (fun e => match e with ETimeout delay => Some delay | _ => None end) tr.

(** The addresses of the [fetch] calls of a trace, in order. *)
Definition fetched_urls (tr : list event) : list jsstring :=
  omap (fun e => match e with EFetch r => Some (req_url r) | _ => None end) tr.

Definition is_console (e : event) : Prop :=
  match e with EConsole _ _ => True | _ => False end.

(** The machine after one more call of [fetch], and after one more event. *)
Definition fetched {B U} (r : request) (m : machine B U) : machine B U :=
  {| ui := ui m; trace := trace m ++ [EFetch r]; network := fun i => network m (S i) |}.

Definition emitted {B U} (e : event) (m : machine B U) : machine B U :=
  {| ui := ui m; trace := trace m ++ [e]; network := network m |}.

(** ** Results *)

(** [jobs.map((job, index) => ...)] on an array without [null]. *)
Definition stringified (jobs : list listing) : list listing :=
  imap (fun index job => withStringId job index) jobs.

(** The diagnostics of the direct-API client. *)
Definition authentication_failed : jsstring :=
  utf16 "Authentication Failed (401). The live API key cannot be injected. Showing **Fallback Data** to demonstrate app functionality.".
Definition critical_error_with_fallback (underlying : jsstring) : jsstring :=
  utf16 "A critical API error occurred during the search. Showing fallback data. Error: "
  ++ underlying.
Definition nothing_extracted : jsstring :=
  utf16 "Search completed, but the model could not find or extract any structured job listings based on your criteria. Try broadening your search.".

(** The diagnostics of the serverless-backed client. *)
Definition critical_error (underlying : jsstring) : jsstring :=
  utf16 "A critical API error occurred during the search. Error: " ++ underlying.
Definition no_results_found : jsstring :=
  utf16 "No Results Found. The AI could not find any job listings matching your criteria. Try broadening your search terms.".

(** ** Sample inputs *)

Definition sample_listing (n : Z) : listing :=
  {| id := Some (SNum n);
     title := utf16 "X";
     company := utf16 "Y";
     location := utf16 "Vienna";
     type := utf16 "Internship";
     description := utf16 "d";
     url := Some (utf16 "https://e.co/1");
     salary := None;
     posted := None |}.

Definition sample_criteria : Criteria.t :=
  {| Criteria.location := utf16 "Vienna";
     Criteria.keywords := utf16 "intern";
     Criteria.excludeKeywords := [];
     Criteria.jobTypes := [utf16 "Internship"] |}.

(** An environment whose parser knows the empty array only. *)
Definition sample_env : Legacy.env :=
  {| Legacy.API_KEY := utf16 "AIza-sample-key";
     Legacy.JSON_parse := fun t =>
       if same t (utf16 "[]") then Normal (Legacy.IsArray [])
       else Throw (Error (utf16 "Unexpected token"));
     Legacy.JSON_stringify := fun _ => utf16 "{}";
     Legacy.jobSearchInstruction := utf16 "You are a highly specialized job search engine for jobs in Austria.";
     Legacy.insightsInstruction := utf16 "You are an expert career counselor.";
     Legacy.statusText := fun _ => [] |}.

Definition sample_legacy_state : Legacy.state :=
  {| Legacy.searchParams := sample_criteria;
     Legacy.feedback := ∅;
     Legacy.isSearching := false;
     Legacy.jobs := [];
     Legacy.showSettings := false;
     Legacy.aiInsights := [];
     Legacy.searchError := [];
     Legacy.searchProgress := [];
     Legacy.isFallbackMode := false |}.

Definition sample_state (useFallbackForTesting : bool) : App.state :=
  {| App.searchParams := sample_criteria;
     App.feedback := ∅;
     App.isSearching := false;
     App.jobs := [];
     App.showSettings := false;
     App.aiInsights := App.null;
     App.searchError := [];
     App.searchProgress := [];
     App.isFallbackMode := false;
     App.useFallbackForTesting := useFallbackForTesting |}.

(** A Gemini reply whose text is [text]. *)
Definition replies (text : string) : outcome Legacy.envelope :=
  Responded 200 (Normal (Legacy.Candidates (Some (utf16 text)))).

(** * The rest of the code *)

(** ** The settings panel *)

(** The updater that the [onChange] of the checkbox of [type] hands to
    [setSearchParams], with [e.target.checked] as [checked]. *)
Definition onJobTypeChange (type : jsstring) (checked : bool) (prev : Criteria.t)
  : Criteria.t :=
  if checked then
    {| Criteria.location := Criteria.location prev;
       Criteria.keywords := Criteria.keywords prev;
       Criteria.excludeKeywords := Criteria.excludeKeywords prev;
       Criteria.jobTypes := Criteria.jobTypes prev ++ [type] |}
  else
    {| Criteria.location := Criteria.location prev;
       Criteria.keywords := Criteria.keywords prev;
       Criteria.excludeKeywords := Criteria.excludeKeywords prev;
       Criteria.jobTypes :=
         List.filter (fun t => negb (same t type)) (Criteria.jobTypes prev) |}.

(** [checked={searchParams.jobTypes.includes(type)}] *)
Definition jobTypeChecked (type : jsstring) (searchParams : Criteria.t) : bool :=
  existsb (fun t => same t type) (Criteria.jobTypes searchParams).

(** ** The serverless functions

    [api/search.js] and [api/insights.js], the endpoints that the
    serverless-backed client calls.  The SDK call and [JSON.parse] are the
    environment's; the result of a handler is the one response it sends and
    what it did on the way, in order. *)

Module Server.

(** [process.env]: a variable is a string, or is not set. *)
Record process_env := {
  GEMINI_API_KEY : option jsstring;
  NODE_ENV : option jsstring
}.

(** [req.body] *)
Inductive parsed_body (F : Type) :=
| Undefined
| Object (fields : F).
Arguments Undefined {F}.
Arguments Object {F} fields.

Record request (F : Type) := {
  method : jsstring;
  body : parsed_body F
}.
Arguments method {F} r.
Arguments body {F} r.

(** The properties the two handlers read from [req.body]; [None] is a
    property that is missing. *)
Record search_fields := {
  combinedPrompt : option jsstring
}.

Record insights_fields := {
  searchParams : option Criteria.t;
  jobResultsCount : option nat
}.

(** What a handler does besides answering. *)
Inductive effect :=
| Generate (apiKey : jsstring) (googleSearch : bool) (prompt : jsstring)
| ConsoleError (args : list console_arg).

(** *** [/```json\n([\s\S]*?)\n```/] *)

Definition opening : jsstring := Extractor.fence ++ Extractor.json_tag ++ [10].
Definition closing_line : jsstring := 10 :: Extractor.fence.

(** [([\s\S]*?)\n```]: the shortest capture first. *)
Fixpoint lazy_to_close (s : jsstring) : option jsstring :=
  match s with
  | [] => None
  | c :: s' => if startsWith s closing_line then Some [] else cons c <$> lazy_to_close s'
  end.

Definition match_block_here (s : jsstring) : option jsstring :=
  match strip_prefix opening s with
  | Some s' => lazy_to_close s'
  | None => None
  end.

(** [text.match(...)]: capture group 1 at the leftmost start index at which
    the pattern matches; [None] is [null]. *)
Fixpoint json_block (s : jsstring) : option jsstring :=
  match match_block_here s with
  | Some b => Some b
  | None =>
      match s with
      | [] => None
      | _ :: s' => json_block s'
      end
  end.

(** The error both handlers throw when the key is not set. *)
Definition missing_key (E : process_env) : exn :=
  if match NODE_ENV E with
     | Some v => same v (utf16 "development")
     | None => false
     end
  then Error (utf16 "GEMINI_API_KEY not found. Did you create a .env.development.local file? If using Vercel, try running 'vercel env pull .env.development.local'.")
  else Error (utf16 "GEMINI_API_KEY is not set in the production environment. Please check your Vercel project settings.").

(** What [api/search.js] appends to the prompt it receives. *)
Definition instructions : jsstring :=
  utf16
    (lf +:+ lf +:+ "---" +:+ lf +:+ lf
     +:+ "IMPORTANT: Please perform a Google search to find real, current job listings based on the criteria."
     +:+ lf
     +:+ "Format the output as a clean JSON array of objects. Each object should have these keys: "
     +:+ dq +:+ "id" +:+ dq +:+ ", " +:+ dq +:+ "title" +:+ dq +:+ ", " +:+ dq +:+ "company"
     +:+ dq +:+ ", " +:+ dq +:+ "location" +:+ dq +:+ ", " +:+ dq +:+ "type" +:+ dq +:+ ", "
     +:+ dq +:+ "description" +:+ dq +:+ ", " +:+ dq +:+ "url" +:+ dq +:+ ", " +:+ dq
     +:+ "salary" +:+ dq +:+ ", " +:+ dq +:+ "posted" +:+ dq +:+ "." +:+ lf
     +:+ "If a field is not available, use " +:+ dq +:+ "Not specified" +:+ dq +:+ " or "
     +:+ dq +:+ "N/A" +:+ dq
     +:+ ". Ensure the 'url' is a direct, absolute URL to the job posting." +:+ lf
     +:+ "Do not include any text or markdown formatting outside of the JSON array itself. Start the response with ```json and end it with ```.").

(** The same in the revision of the handler that gives the model the
    search tool. *)
Definition grounded_instructions : jsstring :=
  utf16
    (lf +:+ lf +:+ "---" +:+ lf
     +:+ "IMPORTANT: Based on a real-time search, provide a JSON array of job listings matching the criteria."
     +:+ lf +:+ "Each object in the array must have these keys: " +:+ dq +:+ "id" +:+ dq
     +:+ ", " +:+ dq +:+ "title" +:+ dq +:+ ", " +:+ dq +:+ "company" +:+ dq +:+ ", " +:+ dq
     +:+ "location" +:+ dq +:+ ", " +:+ dq +:+ "type" +:+ dq +:+ ", " +:+ dq
     +:+ "description" +:+ dq +:+ ", " +:+ dq +:+ "url" +:+ dq +:+ ", " +:+ dq
     +:+ "company_url" +:+ dq +:+ ", " +:+ dq +:+ "salary" +:+ dq +:+ ", " +:+ dq
     +:+ "posted" +:+ dq +:+ "." +:+ lf
     +:+ "- The 'url' MUST be the direct, deep link to the specific job posting." +:+ lf
     +:+ "- The 'company_url' MUST be the root homepage URL for the company (e.g., https://www.google.com)."
     +:+ lf
     +:+ "- Both 'url' and 'company_url' are mandatory. If you cannot find a valid URL for both, omit the job listing from the results."
     +:+ lf +:+ "- For other fields like 'salary' or 'posted', use " +:+ dq +:+ "N/A" +:+ dq
     +:+ " if the information is not available." +:+ lf
     +:+ "Format the output as a clean JSON array of objects. Do not include any text or markdown formatting outside of the JSON array itself. Start the response with ```json and end it with ```.").

(** The prompt of [api/insights.js]. *)
Definition insightsPrompt (searchParams : Criteria.t) (jobResultsCount : option nat)
  : jsstring :=
  utf16
    (lf
     +:+ "      You are a helpful career assistant. Analyze the following job search and its results to provide helpful insights for the user."
     +:+ lf +:+ lf +:+ "      Search Parameters:" +:+ lf +:+ "      - Location: ")
  ++ Criteria.location searchParams
  ++ utf16 (lf +:+ "      - Keywords: ")
  ++ Criteria.keywords searchParams
  ++ utf16 (lf +:+ "      - Excluded Keywords: ")
  ++ Criteria.excludeKeywords searchParams
  ++ utf16 (lf +:+ "      - Job Types: ")
  ++ join (utf16 ", ") (Criteria.jobTypes searchParams)
  ++ utf16 (lf +:+ "      Number of Jobs Found: ")
  ++ match jobResultsCount with
     | Some n => decimal (N.of_nat n)
     | None => utf16 "undefined"
     end
  ++ utf16
    (lf +:+ lf
     +:+ "      Based on this, generate a JSON object with the following structure:" +:+ lf
     +:+ "      {" +:+ lf +:+ "        " +:+ dq +:+ "analysis" +:+ dq +:+ ": " +:+ dq
     +:+ "A brief, one-sentence summary of the search results. Mention if the results seem relevant to the keywords."
     +:+ dq +:+ "," +:+ lf +:+ "        " +:+ dq +:+ "suggestions" +:+ dq +:+ ": " +:+ dq
     +:+ "A short paragraph with 1-2 actionable tips for improving the next search. For example, suggest broadening the location or refining keywords."
     +:+ dq +:+ "," +:+ lf +:+ "        " +:+ dq +:+ "keywordsToAdd" +:+ dq +:+ ": [" +:+ dq
     +:+ "keyword1" +:+ dq +:+ ", " +:+ dq +:+ "keyword2" +:+ dq +:+ ", " +:+ dq
     +:+ "keyword3" +:+ dq +:+ "]," +:+ lf +:+ "        " +:+ dq +:+ "keywordsToRemove"
     +:+ dq +:+ ": [" +:+ dq +:+ "keywordA" +:+ dq +:+ ", " +:+ dq +:+ "keywordB" +:+ dq
     +:+ "]" +:+ lf +:+ "      }" +:+ lf +:+ lf
     +:+ "      IMPORTANT: Do not include any text or markdown formatting outside of the JSON object itself. The entire response must be a single, valid JSON object, enclosed in ```json and ```."
     +:+ lf +:+ "    ").

Section Handlers.
(** The values of [JSON.parse]. *)
Variable V : Type.

Record sdk := {
  (** [(await (await model.generateContent(prompt)).response).text()] *)
  generateContent : jsstring -> completion jsstring;
  JSON_parse : jsstring -> completion V
}.

(** The JSON body of a response: [{ error }], a parsed value as it is, or
    [{ insights }]. *)
Inductive sent :=
| ErrorBody (error : jsstring)
| Parsed (v : V)
| InsightsBody (insights : V).

(** [res.status(status).json(json)] *)
Record reply := {
  status : N;
  json : sent
}.

(** The handler of [/api/search], for the tools and the instructions of a
    revision. *)
Definition search_handler (googleSearch : bool) (instructions : jsstring)
    (E : process_env) (K : sdk) (req : request search_fields)
  : reply * list effect :=
  if negb (same (method req) (utf16 "POST")) then
    ({| status := 405; json := ErrorBody (utf16 "Method Not Allowed") |}, [])
  else
  (* [catch (error)] of the outer [try], entered after the effects [done] *)
  let catch (done : list effect) (error : exn) :=
    let errorMessage :=
      if is_empty (message error)
      then utf16 "Failed to fetch data from the AI model. Check the server logs for more details."
      else message error in
    ({| status := 500; json := ErrorBody errorMessage |},
     done ++ [ConsoleError [CStr (utf16 "Error in /api/search:"); CError error]]) in
  match GEMINI_API_KEY E with
  | None | Some [] => catch [] (missing_key E)
  | Some ((_ :: _) as apiKey) =>
      match body req with
      | Undefined =>
          catch [] (Error (utf16 "Cannot destructure property 'combinedPrompt' of 'req.body' as it is undefined."))
      | Object fields =>
          match combinedPrompt fields with
          | None | Some [] =>
              ({| status := 400; json := ErrorBody (utf16 "No prompt provided.") |}, [])
          | Some ((_ :: _) as combinedPrompt) =>
              let fullPrompt := combinedPrompt ++ instructions in
              let called := [Generate apiKey googleSearch fullPrompt] in
              match generateContent K fullPrompt with
              | Throw error => catch called error
              | Normal text =>
                  match json_block text with
                  | None | Some [] =>
                      catch
                        (called ++
                         [ConsoleError
                            [CStr (utf16 "AI response did not contain a valid JSON block. Response:");
                             CStr text]])
                        (Error (utf16 "The AI model's response was not in the expected JSON format."))
                  | Some ((_ :: _) as jsonString) =>
                      match JSON_parse K jsonString with
                      | Normal jobs => ({| status := 200; json := Parsed jobs |}, called)
                      | Throw parseError =>
                          ({| status := 500;
                              json := ErrorBody (utf16 "The AI model's response for jobs was not valid JSON.") |},
                           called ++
                           [ConsoleError
                              [CStr (utf16 "Failed to parse JSON from AI response in /api/search. Raw JSON string:");
                               CStr jsonString]])
                      end
                  end
              end
          end
      end
  end.

(** [api/search.js], and its revision with the search tool. *)
Definition handler := search_handler false instructions.
Definition grounded_handler := search_handler true grounded_instructions.

(** The handler of [/api/insights]. *)
Definition insights_handler (E : process_env) (K : sdk) (req : request insights_fields)
  : reply * list effect :=
  if negb (same (method req) (utf16 "POST")) then
    ({| status := 405; json := ErrorBody (utf16 "Method Not Allowed") |}, [])
  else
  let catch (done : list effect) (error : exn) :=
    let errorMessage :=
      if is_empty (message error)
      then utf16 "Failed to generate AI insights. Check the server logs."
      else message error in
    ({| status := 500; json := ErrorBody errorMessage |},
     done ++ [ConsoleError [CStr (utf16 "Error in /api/insights:"); CError error]]) in
  match GEMINI_API_KEY E with
  | None | Some [] => catch [] (missing_key E)
  | Some ((_ :: _) as apiKey) =>
      match body req with
      | Undefined =>
          catch [] (Error (utf16 "Cannot destructure property 'searchParams' of 'req.body' as it is undefined."))
      | Object fields =>
          match searchParams fields with
          | None =>
              ({| status := 400; json := ErrorBody (utf16 "No search parameters provided.") |}, [])
          | Some searchParams =>
              let insightsPrompt := insightsPrompt searchParams (jobResultsCount fields) in
              let called := [Generate apiKey false insightsPrompt] in
              match generateContent K insightsPrompt with
              | Throw error => catch called error
              | Normal rawText =>
                  match json_block rawText with
                  | None | Some [] =>
                      catch
                        (called ++
                         [ConsoleError
                            [CStr (utf16 "AI response for insights did not contain a valid JSON block. Response:");
                             CStr rawText]])
                        (Error (utf16 "The AI model's response for insights was not in the expected JSON format."))
                  | Some ((_ :: _) as jsonString) =>
                      match JSON_parse K jsonString with
                      | Normal insightsJson =>
                          ({| status := 200; json := InsightsBody insightsJson |}, called)
                      | Throw parseError =>
                          ({| status := 500;
                              json := ErrorBody (utf16 "The AI model's response for insights was not valid JSON.") |},
                           called ++
                           [ConsoleError
                              [CStr (utf16 "Failed to parse JSON from AI response in /api/insights. Raw JSON string:");
                               CStr jsonString];
                            ConsoleError
                              [CStr (utf16 "Original raw text from AI:"); CStr rawText]])
                      end
                  end
              end
          end
      end
  end.
End Handlers.

Arguments generateContent {V} s.
Arguments JSON_parse {V} s.
Arguments ErrorBody {V} error.
Arguments Parsed {V} v.
Arguments InsightsBody {V} insights.
Arguments status {V} r.
Arguments json {V} r.
Arguments search_handler {V} googleSearch instructions E K req.
Arguments handler {V} E K req.
Arguments grounded_handler {V} E K req.
Arguments insights_handler {V} E K req.

End Server.

(** ** The client against its endpoint *)

(** What [fetch] settles to in the client when [/api/search] answers with
    [r]: the status, and the body as [response.json()] parses it back. *)
Definition received (r : Server.reply App.data) : outcome App.data :=
  Responded (Server.status r)
    (Normal match Server.json r with
            | Server.ErrorBody error =>
                App.DOther (if is_empty error then None else Some error) None
            | Server.Parsed v => v
            | Server.InsightsBody _ => App.DOther None None
            end).

(** The request of [App.fetchStructuredJobData] as the endpoint sees it. *)
Definition posted_prompt (combinedPrompt : jsstring) : Server.request Server.search_fields :=
  {| Server.method := utf16 "POST";
     Server.body := Server.Object {| Server.combinedPrompt := Some combinedPrompt |} |}.

(** * Stating the further properties *)

(** [b] is a contiguous piece of [s]. *)
Definition substring (b s : jsstring) : Prop := ∃ a c, s = a ++ b ++ c.

(** A text has no white space at either end. *)
Definition trimmed (s : jsstring) : Prop :=
  match s with
  | [] => True
  | c :: _ => Extractor.is_space c = false
  end
  ∧ match rev s with
    | [] => True
    | c :: _ => Extractor.is_space c = false
    end.

(** The text holds a [json] block in the strict form: the opening line,
    and a closing line after it. *)
Definition has_json_block (text : jsstring) : Prop :=
  ∃ a b c, text = a ++ Server.opening ++ b ++ Server.closing_line ++ c.

(** The calls of the model among the effects of a handler, in order. *)
Definition generated (effects : list Server.effect) : list (jsstring * bool * jsstring) :=
  omap (fun e => match e with
                 | Server.Generate apiKey googleSearch prompt =>
                     Some (apiKey, googleSearch, prompt)
                 | Server.ConsoleError _ => None
                 end) effects.

(** The key is set: [!apiKey] is false. *)
Definition key_set (E : Server.process_env) : Prop :=
  ∃ c apiKey, Server.GEMINI_API_KEY E = Some (c :: apiKey).

(** The time a trace spends in [setTimeout], in milliseconds. *)
Definition total_wait (tr : list event) : N := foldr N.add 0 (timeouts tr).

(** What [App.fetchAIInsights] settles to on an outcome of [fetch]. *)
Definition insights_reply (o : outcome App.data) : completion App.insights :=
  match o with
  | Rejected reason => Throw (Error reason)
  | Responded code (Throw e) => Throw e
  | Responded code (Normal data) =>
      if (200 <=? code) && (code <=? 299) then App.insights_of data
      else match App.error_or data (utf16 "HTTP error! status: " ++ decimal code) with
           | Normal msg => Throw (Error msg)
           | Throw e => Throw e
           end
  end.

(** What [App.generateAIInsights] leaves in [aiInsights]. *)
Definition insights_shown (c : completion App.insights) : App.insights :=
  match c with
  | Normal v => v
  | Throw error =>
      App.Report {| App.analysis := Some (utf16 "Insight generation failed: " ++ message error);
                    App.suggestions := None;
                    App.keywordsToAdd := None;
                    App.keywordsToRemove := None |}
  end.

(** An SDK that answers [text] to every prompt, with a parser that gives
    [parsed] for every text. *)
Definition sample_sdk (text : string) (parsed : App.data) : Server.sdk App.data :=
  {| Server.generateContent := fun _ => Normal (utf16 text);
     Server.JSON_parse := fun _ => Normal parsed |}.

(** An environment without the key, and one with a key. *)
Definition sample_process_env (key : option string) : Server.process_env :=
  {| Server.GEMINI_API_KEY := utf16 <$> key;
     Server.NODE_ENV := Some (utf16 "production") |}.
(** An environment of the direct-API client whose parser gives [parsed]
    for every text. *)
Definition sample_env_reading (parsed : Legacy.parsed) : Legacy.env :=
  {| Legacy.API_KEY := utf16 "AIza-sample-key";
     Legacy.JSON_parse := fun _ => Normal parsed;
     Legacy.JSON_stringify := fun _ => utf16 "{}";
     Legacy.jobSearchInstruction := utf16 "You are a highly specialized job search engine for jobs in Austria.";
     Legacy.insightsInstruction := utf16 "You are an expert career counselor.";
     Legacy.statusText := fun _ => [] |}.
(** A listing that came without an [id]. *)
Definition anonymous_listing (title : string) : listing :=
  {| id := None;
     title := utf16 title;
     company := utf16 "Y";
     location := utf16 "Vienna";
     type := utf16 "Internship";
     description := utf16 "d";
     url := None;
     salary := None;
     posted := None |}.


(** A console call writes out a header named [name]. *)
Definition logs_header (name : jsstring) (e : event) : bool :=
  match e with
  | EConsole _ args =>
      existsb (fun a => match a with
                        | CHeaders h => existsb (fun kv => same (fst kv) name) h
                        | _ => false
                        end) args
  | _ => false
  end.

(** The headers of the requests sent, in order. *)
Definition sent_headers (tr : list event) : list (list (jsstring * jsstring)) :=
  omap (fun e => match e with EFetch r => Some (req_headers r) | _ => None end) tr.

(** An event of a run that sends [options] and nothing else, and writes no
    header named [name] to the console. *)
Definition discreet (name : jsstring) (options : request) (e : event) : Prop :=
  logs_header name e = false
  ∧ match e with EFetch r => r = options | _ => True end.

(** * Theorems *)

(** ** The extractor *)

Section ExtractorFacts.
Import Extractor.

Lemma strip_prefix_Some p s r : strip_prefix p s = Some r → s = p ++ r.
Proof.
  revert s. induction p as [|a p IH]; intros [|b s] H; simpl in *; try congruence.
  destruct (N.eqb_spec a b) as [->|]; [|discriminate].
  f_equal. auto.
Qed.

Lemma strip_prefix_app p r : strip_prefix p (p ++ r) = Some r.
Proof. induction p as [|a p IH]; simpl; [done|]. by rewrite N.eqb_refl. Qed.

Lemma startsWith_true s p : startsWith s p = true ↔ ∃ r, s = p ++ r.
Proof.
  unfold startsWith. split.
  - destruct (strip_prefix p s) eqn:H; [|discriminate].
    intros _. eexists. by apply strip_prefix_Some.
  - intros [r ->]. by rewrite strip_prefix_app.
Qed.

Lemma startsWith_false s p : startsWith s p = false ↔ ¬ ∃ r, s = p ++ r.
Proof.
  rewrite <- startsWith_true. destruct (startsWith s p); naive_solver.
Qed.

(** *** Leftmost occurrences *)

Lemma leftmost_nil p c : leftmost p [] c.
Proof. intros a' c' _. simpl. lia. Qed.

Lemma leftmost_cons p x a c :
  startsWith (x :: a ++ p ++ c) p = false → leftmost p a c → leftmost p (x :: a) c.
Proof.
  intros Hs Hl [|y a'] c' Heq.
  - apply startsWith_false in Hs. destruct Hs. exists c'. exact Heq.
  - simpl in *. injection Heq as _ Heq. apply Hl in Heq. lia.
Qed.

Lemma leftmost_inv p x a c :
  leftmost p (x :: a) c →
  startsWith (x :: a ++ p ++ c) p = false ∧ leftmost p a c.
Proof.
  intros Hl. split.
  - apply startsWith_false. intros [r Hr].
    specialize (Hl [] r Hr). simpl in Hl. lia.
  - intros a' c' Heq. specialize (Hl (x :: a') c'). simpl in Hl.
    rewrite Heq in Hl. specialize (Hl eq_refl). lia.
Qed.

Lemma leftmost_suffix p u v c : leftmost p (u ++ v) c → leftmost p v c.
Proof.
  induction u as [|x u IH]; [done|]. simpl. intros H.
  apply leftmost_inv in H as [_ H]. auto.
Qed.

Lemma occurs_leftmost p s :
  occurs p s → ∃ a c, s = a ++ p ++ c ∧ leftmost p a c.
Proof.
  induction s as [|x s IH]; intros (a & c & Heq).
  - destruct a; [|discriminate]. exists [], c. split; [done|apply leftmost_nil].
  - destruct (startsWith (x :: s) p) eqn:Hs.
    + apply startsWith_true in Hs as [r Hr]. exists [], r.
      split; [done|apply leftmost_nil].
    + destruct a as [|y a].
      * apply startsWith_false in Hs. destruct Hs. by exists c.
      * simpl in Heq. injection Heq as _ Heq.
        destruct IH as (a1 & c1 & Hs1 & Hl); [by exists a, c|].
        exists (x :: a1), c1. split; [by rewrite Hs1|].
        apply leftmost_cons; [by rewrite <- Hs1|done].
Qed.

(** *** Whitespace *)

Lemma trimStart_app a b :
  trimStart (a ++ b) = if forallb is_space a then trimStart b else trimStart a ++ b.
Proof.
  induction a as [|x a IH]; simpl; [done|].
  destruct (is_space x); simpl; [done|done].
Qed.

Lemma trimStart_all_space a : forallb is_space a = true → trimStart a = [].
Proof.
  induction a as [|x a IH]; simpl; [done|]. destruct (is_space x); simpl; auto; done.
Qed.

Lemma trimStart_head a x r : trimStart a = x :: r → is_space x = false.
Proof.
  induction a as [|y a IH]; simpl; [done|].
  destruct (is_space y) eqn:Hy; [auto|]. congruence.
Qed.

Lemma trimStart_fixed x r : is_space x = false → trimStart (x :: r) = x :: r.
Proof. simpl. by intros ->. Qed.

Lemma trimStart_idem a : trimStart (trimStart a) = trimStart a.
Proof.
  destruct (trimStart a) as [|x r] eqn:H; [done|].
  apply trimStart_fixed. eapply trimStart_head, H.
Qed.

Lemma trimStart_suffix a : ∃ ws, a = ws ++ trimStart a ∧ forallb is_space ws = true.
Proof.
  induction a as [|x a (ws & IH & Hws)]; [by exists []|]. simpl.
  destruct (is_space x) eqn:Hx.
  - exists (x :: ws). simpl. rewrite Hx, Hws. split; [by f_equal|done].
  - by exists [].
Qed.

Lemma forallb_rev {A} (f : A → bool) l : forallb f (rev l) = forallb f l.
Proof.
  induction l as [|x l IH]; simpl; [done|].
  rewrite forallb_app, IH. simpl. rewrite andb_true_r. apply andb_comm.
Qed.

Lemma trimEnd_cons x s :
  trimEnd (x :: s) = if forallb is_space (x :: s) then [] else x :: trimEnd s.
Proof.
  unfold trimEnd. simpl. rewrite trimStart_app, forallb_rev.
  destruct (forallb is_space s) eqn:Hs; simpl.
  - rewrite (trimStart_all_space (rev s)) by (by rewrite forallb_rev).
    destruct (is_space x); simpl; [done|done].
  - rewrite andb_false_r. by rewrite rev_app_distr.
Qed.

Lemma trimEnd_idem s : trimEnd (trimEnd s) = trimEnd s.
Proof.
  unfold trimEnd. by rewrite rev_involutive, trimStart_idem.
Qed.

Lemma trimEnd_head x r : is_space x = false → ∃ r', trimEnd (x :: r) = x :: r'.
Proof. intros Hx. rewrite trimEnd_cons. simpl. rewrite Hx. simpl. eauto. Qed.

Lemma trim_idem s : trim (trim s) = trim s.
Proof.
  unfold trim. destruct (trimStart s) as [|x r] eqn:H.
  - reflexivity.
  - pose proof (trimStart_head _ _ _ H) as Hx.
    destruct (trimEnd_head x r Hx) as [r' Hr]. rewrite Hr at 1.
    rewrite trimStart_fixed by done. rewrite <- Hr. apply trimEnd_idem.
Qed.

Lemma trim_bracketed mid :
  trim ([lbracket] ++ mid ++ [rbracket]) = [lbracket] ++ mid ++ [rbracket].
Proof.
  unfold trim.
  change ([lbracket] ++ mid ++ [rbracket]) with (lbracket :: mid ++ [rbracket]).
  rewrite trimStart_fixed by reflexivity. unfold trimEnd.
  assert (rev (lbracket :: mid ++ [rbracket]) = rbracket :: rev mid ++ [lbracket])
    as -> by (simpl; by rewrite rev_app_distr).
  rewrite trimStart_fixed by reflexivity. simpl.
  by rewrite rev_app_distr, rev_involutive.
Qed.


(** *** The fenced-block pattern *)

Lemma not_space_backtick : is_space backtick = false.
Proof. reflexivity. Qed.

Lemma startsWith_fence_head c s : startsWith (c :: s) fence = true → c = backtick.
Proof.
  intros [r Hr]%startsWith_true. simpl in Hr. by injection Hr.
Qed.

Lemma closing_trimStart s : closing s = startsWith (trimStart s) fence.
Proof.
  induction s as [|c s IH]; [done|].
  cbn [closing trimStart]. destruct (is_space c) eqn:Hc; simpl.
  - rewrite IH. destruct (startsWith (c :: s) fence) eqn:Hs; [|by rewrite orb_false_r].
    apply startsWith_fence_head in Hs. subst. by rewrite not_space_backtick in Hc.
  - reflexivity.
Qed.

Lemma trimStart_fence_app a r :
  trimStart (a ++ fence ++ r) = trimStart a ++ fence ++ r.
Proof.
  rewrite trimStart_app. destruct (forallb is_space a) eqn:H; [|done].
  by rewrite (trimStart_all_space a).
Qed.

Lemma leftmost_trimStart a c : leftmost fence a c → leftmost fence (trimStart a) c.
Proof.
  destruct (trimStart_suffix a) as (ws & Heq & _).
  rewrite Heq at 1. apply leftmost_suffix.
Qed.

Lemma lazy_capture_leftmost interior post :
  leftmost fence interior post →
  lazy_capture (interior ++ fence ++ post) = Some (trimEnd interior).
Proof.
  induction interior as [|x i IH]; intros Hl.
  - reflexivity.
  - pose proof Hl as Hl0. apply leftmost_inv in Hl as [Hx Hl].
    change ((x :: i) ++ fence ++ post) with (x :: i ++ fence ++ post).
    cbn [lazy_capture]. rewrite closing_trimStart.
    change (x :: i ++ fence ++ post) with ((x :: i) ++ fence ++ post).
    rewrite trimStart_fence_app, trimEnd_cons.
    destruct (forallb is_space (x :: i)) eqn:Hall.
    + rewrite (trimStart_all_space (x :: i)) by done. reflexivity.
    + destruct (trimStart (x :: i)) as [|y j] eqn:Hy.
      * exfalso. destruct (trimStart_suffix (x :: i)) as (ws & Heq & Hws).
        rewrite Hy, app_nil_r in Heq. rewrite Heq, Hws in Hall. discriminate.
      * apply leftmost_trimStart in Hl0. rewrite Hy in Hl0.
        apply leftmost_inv in Hl0 as [Hy0 _].
        change ((y :: j) ++ fence ++ post) with (y :: j ++ fence ++ post).
        rewrite Hy0. by rewrite IH.
Qed.

Lemma after_tag_lazy s b :
  lazy_capture (trimStart s) = Some b → after_tag s = Some b.
Proof.
  induction s as [|c s IH]; [done|]. cbn [after_tag trimStart].
  destruct (is_space c); [|done]. intros H. by rewrite (IH H).
Qed.

Lemma after_tag_leftmost interior post :
  leftmost fence interior post →
  after_tag (interior ++ fence ++ post) = Some (trim interior).
Proof.
  intros Hl. apply after_tag_lazy. rewrite trimStart_fence_app.
  apply lazy_capture_leftmost. by apply leftmost_trimStart.
Qed.

Lemma closing_occurs s : closing s = true → occurs fence s.
Proof.
  rewrite closing_trimStart. intros [r Hr]%startsWith_true.
  destruct (trimStart_suffix s) as (ws & Heq & _).
  exists ws, r. by rewrite <- Hr.
Qed.

Lemma occurs_cons p x s : occurs p s → occurs p (x :: s).
Proof. intros (a & c & ->). by exists (x :: a), c. Qed.

Lemma lazy_capture_occurs s b : lazy_capture s = Some b → occurs fence s.
Proof.
  revert b. induction s as [|c s IH]; intros b; [done|]. cbn [lazy_capture].
  destruct (closing (c :: s)) eqn:Hc.
  - intros _. by apply closing_occurs.
  - destruct (lazy_capture s); [|done]. intros _. eapply occurs_cons, IH. done.
Qed.

Lemma after_tag_occurs s b : after_tag s = Some b → occurs fence s.
Proof.
  revert b. induction s as [|c s IH]; intros b; [done|]. cbn [after_tag].
  destruct (is_space c).
  - destruct (after_tag s) eqn:Ha.
    + intros _. eapply occurs_cons, IH. done.
    + apply lazy_capture_occurs.
  - apply lazy_capture_occurs.
Qed.

Lemma occurs_fence_tail c s : c ≠ backtick → occurs fence (c :: s) → occurs fence s.
Proof.
  intros Hc ([|y a] & r & Heq).
  - simpl in Heq. injection Heq as -> _. done.
  - simpl in Heq. injection Heq as _ ->. by exists a, r.
Qed.

Lemma occurs_fence_json r : occurs fence (json_tag ++ r) → occurs fence r.
Proof.
  unfold json_tag. simpl. intros H.
  do 4 (apply occurs_fence_tail in H; [|by compute]). done.
Qed.

Lemma after_fence_occurs s b : after_fence s = Some b → occurs fence s.
Proof.
  unfold after_fence. destruct (strip_prefix json_tag s) as [s'|] eqn:Hs.
  - destruct (after_tag s') eqn:Ha; [|apply after_tag_occurs].
    intros _. apply strip_prefix_Some in Hs as ->.
    apply after_tag_occurs in Ha as (a & c & ->).
    exists (json_tag ++ a), c. by rewrite <- app_assoc.
  - apply after_tag_occurs.
Qed.

(** After an opening fence, a closing one further on makes the pattern
    match, and group 1 trims to the interior of the block. *)
Lemma after_fence_block r :
  occurs fence r →
  ∃ tag interior post,
    r = tag ++ interior ++ fence ++ post
    ∧ (tag = json_tag
       ∨ (tag = [] ∧ startsWith (interior ++ fence ++ post) json_tag = false))
    ∧ leftmost fence interior post
    ∧ after_fence r = Some (trim interior).
Proof.
  intros Hr. unfold after_fence.
  destruct (strip_prefix json_tag r) as [r'|] eqn:Hs.
  - apply strip_prefix_Some in Hs as ->.
    apply occurs_fence_json, occurs_leftmost in Hr as (i & post & -> & Hl).
    exists json_tag, i, post. rewrite (after_tag_leftmost _ _ Hl). auto.
  - apply occurs_leftmost in Hr as (i & post & -> & Hl).
    exists [], i, post. rewrite (after_tag_leftmost _ _ Hl).
    repeat split; auto. right. split; [done|]. unfold startsWith. by rewrite Hs.
Qed.

Lemma fenced_block_tail x t :
  startsWith (x :: t) fence = false → has_fenced_block (x :: t) → has_fenced_block t.
Proof.
  intros Hs ([|y a] & b & c & Heq).
  - apply startsWith_false in Hs. destruct Hs. eexists. exact Heq.
  - simpl in Heq. injection Heq as _ ->. by exists a, b, c.
Qed.

Lemma fenced_block_cons x t : has_fenced_block t → has_fenced_block (x :: t).
Proof. intros (a & b & c & ->). by exists (x :: a), b, c. Qed.

Lemma occurs_after_fence r : has_fenced_block (fence ++ r) → occurs fence r.
Proof.
  intros (a & b & c & Heq).
  assert (r = drop 3 (a ++ fence ++ b) ++ fence ++ c) as ->.
  { change r with (drop 3 (fence ++ r)). rewrite Heq.
    rewrite <- drop_app_le.
    - by rewrite <- !app_assoc.
    - rewrite !length_app. simpl. lia. }
  by eexists _, _.
Qed.

Lemma first_block_cons x t tag interior :
  startsWith (x :: t) fence = false →
  first_block t tag interior → first_block (x :: t) tag interior.
Proof.
  intros Hs (pre & post & Heq & Hl & Htag & Hi).
  exists (x :: pre), post. repeat split; auto.
  - by rewrite Heq.
  - apply leftmost_cons; [|done]. by rewrite <- Heq.
Qed.

Lemma markdownMatch_spec t :
  (∃ tag interior,
      first_block t tag interior ∧ markdownMatch t = Some (trim interior))
  ∨ (¬ has_fenced_block t ∧ markdownMatch t = None).
Proof.
  induction t as [|x t IH].
  - right. split; [|done]. intros ([|??] & b & c & Heq); discriminate.
  - cbn [markdownMatch]. unfold match_fence_here.
    destruct (strip_prefix fence (x :: t)) as [r|] eqn:Hs.
    + apply strip_prefix_Some in Hs.
      destruct (after_fence r) as [g|] eqn:Hg.
      * left. apply after_fence_occurs in Hg as Hocc.
        destruct (after_fence_block r Hocc) as (tag & i & post & -> & Htag & Hl & Ha).
        exists tag, i. split; [|congruence].
        exists [], post. rewrite Hs. repeat split; auto using leftmost_nil.
      * assert (¬ has_fenced_block (x :: t)) as Hno.
        { rewrite Hs. intros Hb%occurs_after_fence.
          destruct (after_fence_block r Hb) as (?&?&?&?&?&?&?). congruence. }
        right. split; [done|].
        destruct IH as [(tag & i & (pre & post & -> & _) & _)|[_ ->]]; [|done].
        destruct Hno. apply fenced_block_cons.
        exists pre, (tag ++ i), post. by rewrite <- !app_assoc.
    + assert (startsWith (x :: t) fence = false) as Hsw
        by (unfold startsWith; by rewrite Hs).
      destruct IH as [(tag & i & Hb & ->)|[Hno ->]].
      * left. exists tag, i. split; [|done]. by apply first_block_cons.
      * right. split; [|done]. intros Hb. by apply Hno, (fenced_block_tail x).
Qed.

(** *** The array pattern *)

Local Ltac in_app :=
  repeat first [rewrite elem_of_app | rewrite elem_of_cons]; auto 10.

Lemma greedy_to_bracket_spec s :
  ((rbracket ∉ s) ∧ greedy_to_bracket s = None)
  ∨ (∃ mid post, s = mid ++ [rbracket] ++ post ∧ (rbracket ∉ post)
       ∧ greedy_to_bracket s = Some (mid ++ [rbracket])).
Proof.
  induction s as [|c s IH]; cbn [greedy_to_bracket].
  - left. split; [apply not_elem_of_nil|done].
  - destruct IH as [[Hno ->]|(mid & post & -> & Hpost & ->)].
    + destruct (N.eqb_spec c rbracket) as [->|Hc].
      * right. exists [], s. done.
      * left. split; [|done]. intros [?|?]%elem_of_cons; [by apply Hc|by apply Hno].
    + right. exists (c :: mid), post. done.
Qed.

Lemma arrayMatch_spec t :
  (∃ pre mid post,
      t = pre ++ [lbracket] ++ mid ++ [rbracket] ++ post
      ∧ (lbracket ∉ pre) ∧ (rbracket ∉ post)
      ∧ arrayMatch t = Some ([lbracket] ++ mid ++ [rbracket]))
  ∨ (¬ has_array t ∧ arrayMatch t = None).
Proof.
  induction t as [|x t IH].
  - right. split; [|done]. intros ([|??] & b & c & Heq); discriminate.
  - cbn [arrayMatch match_array_here].
    destruct (N.eqb_spec x lbracket) as [->|Hx].
    + destruct (greedy_to_bracket_spec t) as [[Hno ->]|(mid & post & -> & Hpost & ->)].
      * right. simpl.
        assert (¬ has_array t) as Hnt.
        { intros (a & b & c & ->). apply Hno. in_app. }
        destruct IH as [(pre & mid & post & -> & _)|[_ ->]].
        -- destruct Hnt. by exists pre, mid, post.
        -- split; [|done]. intros (a & b & c & Heq). apply Hno.
           destruct a as [|a0 a]; simpl in Heq.
           ++ injection Heq as Ht. rewrite Ht. in_app.
           ++ injection Heq as _ Ht. rewrite Ht. in_app.
      * left. exists [], mid, post. simpl. repeat split; auto. apply not_elem_of_nil.
    + destruct IH as [(pre & mid & post & -> & Hpre & Hpost & ->)|[Hno ->]].
      * left. exists (x :: pre), mid, post. repeat split; auto.
        intros [?|?]%elem_of_cons; [by apply Hx|by apply Hpre].
      * right. split; [|done]. intros (a & b & c & Heq). apply Hno.
        destruct a as [|a0 a]; simpl in Heq; injection Heq as ? ->; [done|].
        by exists a, b, c.
Qed.

(** C1.  [extractJsonFromText] is total and follows its three rules in
    order.  A text that holds a fenced block gives the trimmed interior of
    its first block, the [json] tag left out.  A text with no fenced block
    that holds a bracketed array gives the array, from the first [[] to the
    last []], which trimming leaves as it is.  Any other text gives itself,
    trimmed. *)
Theorem extractJsonFromText_priority (text : jsstring) :
  (has_fenced_block text →
     ∃ tag interior,
       first_block text tag interior
       ∧ extractJsonFromText text = trim interior)
  ∧ (¬ has_fenced_block text → has_array text →
     ∃ pre mid post,
       text = pre ++ [lbracket] ++ mid ++ [rbracket] ++ post
       ∧ (lbracket ∉ pre) ∧ (rbracket ∉ post)
       ∧ trim ([lbracket] ++ mid ++ [rbracket]) = [lbracket] ++ mid ++ [rbracket]
       ∧ extractJsonFromText text = [lbracket] ++ mid ++ [rbracket])
  ∧ (¬ has_fenced_block text → ¬ has_array text →
     extractJsonFromText text = trim text).
Proof.
  unfold extractJsonFromText.
  destruct (markdownMatch_spec text) as [(tag & i & Hb & ->)|[Hno ->]].
  - split; [|split].
    + intros _. exists tag, i. split; [done|apply trim_idem].
    + intros []. destruct Hb as (pre & post & -> & _).
      exists pre, (tag ++ i), post. by rewrite <- !app_assoc.
    + intros []. destruct Hb as (pre & post & -> & _).
      exists pre, (tag ++ i), post. by rewrite <- !app_assoc.
  - split; [done|].
    destruct (arrayMatch_spec text) as [(pre & mid & post & -> & ? & ? & ->)|[Hna ->]].
    + split.
      * intros _ _. exists pre, mid, post. rewrite trim_bracketed. done.
      * intros _ []. by exists pre, mid, post.
    + split; [done|done].
Qed.

End ExtractorFacts.

(** ** The transport *)

Ltac js_unfold :=
  unfold run, console, setTimeout, bind, ret, throw, try_catch, await, emit, set,
    rendered, call;
  cbn [ui trace network fst snd].

Section TransportFacts.
Local Open Scope js_scope.

Lemma waits_console_l acc tr1 tr2 :
  Forall is_console tr1 → waits acc (tr1 ++ tr2) = waits acc tr2.
Proof.
  induction 1 as [|e tr1 He _ IH]; [done|].
  destruct e; simpl in *; [contradiction|contradiction|exact IH].
Qed.

Lemma waits_console_r acc tr1 tr2 :
  Forall is_console tr2 → waits acc (tr1 ++ tr2) = waits acc tr1.
Proof.
  intros H. revert acc. induction tr1 as [|e tr1 IH]; intros acc.
  - simpl. induction H as [|e ? He _ IH']; [done|].
    destruct e; simpl in *; [contradiction|contradiction|exact IH'].
  - destruct e; simpl; by rewrite ?IH.
Qed.

Lemma length_doubling attempt k : length (doubling attempt k) = k.
Proof. revert attempt. induction k as [|k IH]; intros a; simpl; [done|by rewrite IH]. Qed.

Lemma doubling_take k :
  (k ≤ 4)%nat → 0 :: doubling 0 k = take (S k) schedule.
Proof.
  intros Hk. do 5 (destruct k as [|k]; [reflexivity|]). lia.
Qed.

(** A retry loop, by its step equation: [settle] is its [try] block,
    [fatal] the errors it rethrows at once, [note] what it writes to the
    console when it gives up. *)
Section Retry.
Variable options : request.
Variable loop : nat → N → M Legacy.envelope unit (option Legacy.envelope).
Variable settle : outcome Legacy.envelope → completion Legacy.envelope.
Variable fatal : exn → bool.
Variable note : exn → event.
Hypothesis note_console : ∀ e, is_console (note e).
Hypothesis loop_step : ∀ n attempt m,
  loop (S n) attempt m =
  match settle (network m 0%nat) with
  | Normal v => (Normal (Some v), fetched options m)
  | Throw e =>
      if fatal e then (Throw e, fetched options m)
      else if attempt =? 4 then (Throw e, emitted (note e) (fetched options m))
      else loop n (attempt + 1)
             (emitted (ETimeout (2 ^ attempt * 1000)) (fetched options m))
  end.

Lemma retry_loop_spec n attempt m :
  N.of_nat (S n) + attempt = 5 →
  ∃ evs k,
    trace (snd (loop (S n) attempt m)) = trace m ++ evs
    ∧ (k ≤ n)%nat
    ∧ (∀ acc, waits acc evs = acc :: doubling attempt k)
    ∧ timeouts evs = doubling attempt k
    ∧ fst (loop (S n) attempt m) = Some <$$> settle (network m k)
    ∧ (∀ i, (i < k)%nat → retryable fatal (settle (network m i)) = true)
    ∧ ((k < n)%nat → retryable fatal (settle (network m k)) = false).
Proof.
  revert attempt m. induction n as [|n IH]; intros attempt m Hn.
  - assert (attempt = 4) as -> by lia. rewrite loop_step.
    destruct (settle (network m 0%nat)) as [v|e] eqn:Hs.
    + exists [EFetch options], 0%nat. rewrite Hs. repeat split; auto; lia.
    + destruct (fatal e).
      * exists [EFetch options], 0%nat. rewrite Hs. repeat split; auto; lia.
      * exists [EFetch options; note e], 0%nat. rewrite Hs. cbn.
        specialize (note_console e).
        repeat split; auto; try lia.
        -- by rewrite <- app_assoc.
        -- intros acc. by destruct (note e).
        -- by destruct (note e).
  - rewrite loop_step.
    destruct (settle (network m 0%nat)) as [v|e] eqn:Hs.
    + exists [EFetch options], 0%nat. rewrite Hs. repeat split; auto; lia.
    + destruct (fatal e) eqn:Hf.
      * exists [EFetch options], 0%nat. rewrite Hs. cbn. rewrite Hf.
        repeat split; auto; lia.
      * destruct (N.eqb_spec attempt 4) as [->|Ha]; [lia|].
        destruct (IH (attempt + 1)
                    (emitted (ETimeout (2 ^ attempt * 1000)) (fetched options m)))
          as (evs & k & Htr & Hk & Hw & Ht & Hr & Hbefore & Hat); [lia|].
        exists (EFetch options :: ETimeout (2 ^ attempt * 1000) :: evs), (S k).
        rewrite Htr, Hr. cbn. repeat split; auto.
        -- by rewrite <- !app_assoc.
        -- lia.
        -- intros acc. by rewrite Hw.
        -- by rewrite <- Ht.
        -- intros [|i] Hi; [by rewrite Hs; cbn; rewrite Hf|]. apply Hbefore. lia.
        -- intros Hlt. apply Hat. lia.
Qed.
End Retry.

Lemma job_search_loop_step options n attempt (m : machine Legacy.envelope unit) :
  Legacy.job_search_loop options (S n) attempt m =
  match job_search_attempt (network m 0%nat) with
  | Normal v => (Normal (Some v), fetched options m)
  | Throw e =>
      if mentions_401 e then (Throw e, fetched options m)
      else if attempt =? 4 then
        (Throw e,
         emitted (EConsole "error" [CStr (utf16 "Max retries reached. Failing."); CError e])
                 (fetched options m))
      else
        Legacy.job_search_loop options n (attempt + 1)
          (emitted (ETimeout (2 ^ attempt * 1000)) (fetched options m))
  end.
Proof.
  cbn [Legacy.job_search_loop].
  unfold try_catch, bind, fetch, job_search_attempt, ok, fetched, mentions_401.
  destruct (network m 0%nat) as [reason|code body]; cbn [status json message].
  - destruct (includes reason (utf16 "401")); [done|].
    destruct (attempt =? _); reflexivity.
  - destruct (code =? 401); [reflexivity|].
    destruct ((200 <=? code) && (code <=? 299)); cbn [negb].
    + destruct body as [v|e]; [reflexivity|]. unfold await.
      destruct (includes (message e) (utf16 "401")); [done|].
      destruct (attempt =? _); reflexivity.
    + cbn [throw message]. destruct (includes _ (utf16 "401")); [done|].
      destruct (attempt =? _); reflexivity.
Qed.

Lemma insights_loop_step options n attempt (m : machine Legacy.envelope unit) :
  Legacy.insights_loop options (S n) attempt m =
  match insights_attempt (network m 0%nat) with
  | Normal v => (Normal (Some v), fetched options m)
  | Throw e =>
      if never e then (Throw e, fetched options m)
      else if attempt =? 4 then
        (Throw e,
         emitted (EConsole "error" [CStr (utf16 "Max retries reached for insights. Failing."); CError e])
                 (fetched options m))
      else
        Legacy.insights_loop options n (attempt + 1)
          (emitted (ETimeout (2 ^ attempt * 1000)) (fetched options m))
  end.
Proof.
  cbn [Legacy.insights_loop].
  unfold try_catch, bind, fetch, insights_attempt, ok, fetched, never.
  destruct (network m 0%nat) as [reason|code body]; cbn [status json message].
  - destruct (attempt =? _); reflexivity.
  - destruct ((200 <=? code) && (code <=? 299)); cbn [negb].
    + destruct body as [v|e]; [reflexivity|]. unfold await.
      destruct (attempt =? _); reflexivity.
    + cbn [throw message]. destruct (attempt =? _); reflexivity.
Qed.

Lemma timeouts_app tr1 tr2 : timeouts (tr1 ++ tr2) = timeouts tr1 ++ timeouts tr2.
Proof. apply omap_app. Qed.

Lemma timeouts_console tr : Forall is_console tr → timeouts tr = [].
Proof.
  induction 1 as [|e tr He _ IH]; [done|].
  destruct e; simpl in *; [contradiction|contradiction|exact IH].
Qed.

(** The trace of a request function: console output, the events of its
    loop, console output. *)
Lemma around_loop before evs after k :
  Forall is_console before → Forall is_console after →
  (∀ acc, waits acc evs = acc :: doubling 0 k) → timeouts evs = doubling 0 k →
  backoff ((before ++ evs) ++ after) = 0 :: doubling 0 k
  ∧ timeouts ((before ++ evs) ++ after) = doubling 0 k.
Proof.
  intros Hb Ha Hw Ht. unfold backoff. split.
  - by rewrite waits_console_r, waits_console_l.
  - rewrite !timeouts_app, (timeouts_console before), (timeouts_console after) by done.
    by rewrite app_nil_r.
Qed.

Lemma fetchStructuredJobData_spec E combinedPrompt net :
  combinedPrompt ≠ [] →
  ∃ k,
    let r := run (Legacy.fetchStructuredJobData E combinedPrompt) tt net in
    (k ≤ 4)%nat
    ∧ backoff (trace (snd r)) = 0 :: doubling 0 k
    ∧ timeouts (trace (snd r)) = doubling 0 k
    ∧ (∀ i, (i < k)%nat → retryable mentions_401 (job_search_attempt (net i)) = true)
    ∧ ((k < 4)%nat → retryable mentions_401 (job_search_attempt (net k)) = false)
    ∧ (∀ e, job_search_attempt (net k) = Throw e → fst r = Throw e).
Proof.
  intros Hp. destruct combinedPrompt as [|c p]; [done|clear Hp].
  unfold Legacy.fetchStructuredJobData. cbn [is_empty]. js_unfold.
  match goal with
  | |- context [Legacy.job_search_loop ?o Legacy.maxRetries 0 ?m] =>
      destruct (retry_loop_spec o (Legacy.job_search_loop o) job_search_attempt
                  mentions_401
                  (fun e => EConsole "error" [CStr (utf16 "Max retries reached. Failing."); CError e])
                  (fun _ => I) (job_search_loop_step o) 4 0 m eq_refl)
        as (evs & k & Htr & Hk & Hw & Ht & Hr & Hbefore & Hat);
      change 5%nat with Legacy.maxRetries in Htr, Hr;
      remember (Legacy.job_search_loop o Legacy.maxRetries 0 m) as L eqn:HL in *;
      clear HL; destruct L as [lr m1]
  end.
  cbn [fst snd trace network] in *. exists k.
  assert (∀ after tr (res : completion Legacy.parsed),
            Forall is_console after →
            tr = trace m1 ++ after →
            (∀ e, lr = Throw e → res = Throw e) →
            (k ≤ 4)%nat
            ∧ backoff tr = 0 :: doubling 0 k
            ∧ timeouts tr = doubling 0 k
            ∧ (∀ i, (i < k)%nat → retryable mentions_401 (job_search_attempt (net i)) = true)
            ∧ ((k < 4)%nat → retryable mentions_401 (job_search_attempt (net k)) = false)
            ∧ (∀ e, job_search_attempt (net k) = Throw e → res = Throw e)) as Hgen.
  { intros after tr res Hafter -> Hres. rewrite Htr.
    destruct (around_loop _ evs after k
                ltac:(repeat constructor) Hafter Hw Ht) as [Hb Ht'].
    repeat split; auto.
    intros e He. apply Hres. rewrite Hr, He. done. }
  destruct lr as [[[|[[|c0 rawText]|]]|]|e].
  all: cbn [ui trace network fst snd].
  all: try (destruct (Legacy.JSON_parse E _) eqn:Hparse; cbn [ui trace network fst snd]).
  all: first
    [ apply (Hgen []); [constructor|symmetry; apply app_nil_r|congruence]
    | eapply Hgen; [|rewrite <- ?app_assoc; reflexivity|congruence];
      repeat constructor ].
Qed.

Lemma userQuery_nonempty (x : jsstring) :
  is_empty (utf16 "Analyze the current search parameters: " ++ x) = false.
Proof. reflexivity. Qed.

Lemma fetchAIInsights_spec E searchParams jobResults net :
  ∃ k,
    let r := run (Legacy.fetchAIInsights E searchParams jobResults false) tt net in
    (k ≤ 4)%nat
    ∧ backoff (trace (snd r)) = 0 :: doubling 0 k
    ∧ timeouts (trace (snd r)) = doubling 0 k
    ∧ (∀ i, (i < k)%nat → retryable never (insights_attempt (net i)) = true)
    ∧ ((k < 4)%nat → retryable never (insights_attempt (net k)) = false)
    ∧ (∀ e, insights_attempt (net k) = Throw e → fst r = Throw e).
Proof.
  unfold Legacy.fetchAIInsights.
  rewrite userQuery_nonempty.
  js_unfold.
  match goal with
  | |- context [Legacy.insights_loop ?o Legacy.maxRetries 0 ?m] =>
      destruct (retry_loop_spec o (Legacy.insights_loop o) insights_attempt
                  never
                  (fun e => EConsole "error" [CStr (utf16 "Max retries reached for insights. Failing."); CError e])
                  (fun _ => I) (insights_loop_step o) 4 0 m eq_refl)
        as (evs & k & Htr & Hk & Hw & Ht & Hr & Hbefore & Hat);
      change 5%nat with Legacy.maxRetries in Htr, Hr;
      remember (Legacy.insights_loop o Legacy.maxRetries 0 m) as L eqn:HL in *;
      clear HL; destruct L as [lr m1]
  end.
  cbn [fst snd trace network] in *. exists k.
  assert (∀ (res : completion jsstring),
            (∀ e, lr = Throw e → res = Throw e) →
            (k ≤ 4)%nat
            ∧ backoff (trace m1) = 0 :: doubling 0 k
            ∧ timeouts (trace m1) = doubling 0 k
            ∧ (∀ i, (i < k)%nat → retryable never (insights_attempt (net i)) = true)
            ∧ ((k < 4)%nat → retryable never (insights_attempt (net k)) = false)
            ∧ (∀ e, insights_attempt (net k) = Throw e → res = Throw e)) as Hgen.
  { intros res Hres. rewrite Htr.
    destruct (around_loop [] evs [] k ltac:(constructor) ltac:(constructor) Hw Ht)
      as [Hb Ht'].
    rewrite app_nil_r in Hb, Ht'. repeat split; auto.
    intros e He. apply Hres. rewrite Hr, He. done. }
  destruct lr as [[[|[[|c0 text]|]]|]|e].
  all: cbn [ui trace network fst snd].
  all: apply Hgen; congruence.
Qed.

(** A request function makes no attempt when it does not reach its loop. *)
Lemma fetchStructuredJobData_empty E net :
  run (Legacy.fetchStructuredJobData E []) tt net
  = (Throw (Error (utf16 "Payload validation failed: Missing prompt content.")),
     {| ui := tt; trace := []; network := net |}).
Proof. reflexivity. Qed.

(** C2, as amended.  Each request function of the direct-API client makes
    at most five attempts; it waits 1, 2, 4 and 8 seconds before attempts
    1, 2, 3 and 4 (that is [2 ^ k] seconds after the failed attempt [k])
    and not at all before attempt 0; when the fifth attempt fails, its
    error is what the function throws; and five failures that are not
    rethrown at once do take it to the fifth attempt. *)
Theorem retry_schedule (E : Legacy.env) (net : nat → outcome Legacy.envelope)
    (combinedPrompt : jsstring) (searchParams : Criteria.t)
    (jobResults : list listing) :
  let search := run (Legacy.fetchStructuredJobData E combinedPrompt) tt net in
  let insights := run (Legacy.fetchAIInsights E searchParams jobResults false) tt net in
  ((attempts (trace (snd search)) ≤ 5)%nat
   ∧ backoff (trace (snd search)) = take (attempts (trace (snd search))) schedule
   ∧ timeouts (trace (snd search)) = tail (backoff (trace (snd search)))
   ∧ (∀ e, attempts (trace (snd search)) = 5%nat →
        job_search_attempt (net 4%nat) = Throw e → fst search = Throw e)
   ∧ (combinedPrompt ≠ [] →
      (∀ i, (i < 5)%nat → retryable mentions_401 (job_search_attempt (net i)) = true) →
      attempts (trace (snd search)) = 5%nat))
  ∧ ((attempts (trace (snd insights)) ≤ 5)%nat
     ∧ backoff (trace (snd insights)) = take (attempts (trace (snd insights))) schedule
     ∧ timeouts (trace (snd insights)) = tail (backoff (trace (snd insights)))
     ∧ (∀ e, attempts (trace (snd insights)) = 5%nat →
          insights_attempt (net 4%nat) = Throw e → fst insights = Throw e)
     ∧ ((∀ i, (i < 5)%nat → retryable never (insights_attempt (net i)) = true) →
        attempts (trace (snd insights)) = 5%nat)).
Proof.
  intros search insights. split.
  - destruct combinedPrompt as [|c p].
    + subst search. rewrite fetchStructuredJobData_empty.
      cbn [fst snd trace]. unfold attempts, backoff, timeouts.
      cbn [waits omap length take tail].
      repeat split; [lia|discriminate|done].
    + destruct (fetchStructuredJobData_spec E (c :: p) net ltac:(done))
        as (k & Hk & Hb & Ht & Hbefore & Hat & Herr).
      fold search in Hb, Ht, Herr. unfold attempts. rewrite Hb, Ht.
      cbn [length tail]. rewrite length_doubling.
      repeat split.
      * lia.
      * by apply doubling_take.
      * intros e [= ->]. apply Herr.
      * intros _ Hall. f_equal.
        destruct (decide (k < 4)%nat) as [Hlt|]; [|lia].
        rewrite Hall in Hat by lia. by specialize (Hat Hlt).
  - destruct (fetchAIInsights_spec E searchParams jobResults net)
      as (k & Hk & Hb & Ht & Hbefore & Hat & Herr).
    fold insights in Hb, Ht, Herr. unfold attempts. rewrite Hb, Ht.
    cbn [length tail]. rewrite length_doubling.
    repeat split.
    + lia.
    + by apply doubling_take.
    + intros e [= ->]. apply Herr.
    + intros Hall. f_equal.
      destruct (decide (k < 4)%nat) as [Hlt|]; [|lia].
      rewrite Hall in Hat by lia. by specialize (Hat Hlt).
Qed.

End TransportFacts.

(** ** The orchestration *)

Ltac legacy_ui :=
  unfold nothing_extracted, authentication_failed, critical_error_with_fallback;
  lazy beta iota delta
    [Legacy.with_feedback Legacy.with_isSearching Legacy.with_jobs
     Legacy.with_aiInsights Legacy.with_searchError Legacy.with_searchProgress
     Legacy.with_isFallbackMode
     Legacy.searchParams Legacy.feedback Legacy.isSearching Legacy.jobs
     Legacy.showSettings Legacy.aiInsights Legacy.searchError
     Legacy.searchProgress Legacy.isFallbackMode].

Ltac app_ui :=
  unfold no_results_found, critical_error;
  lazy beta iota delta
    [App.with_feedback App.with_isSearching App.with_jobs
     App.with_aiInsights App.with_searchError App.with_searchProgress
     App.with_isFallbackMode
     App.searchParams App.feedback App.isSearching App.jobs
     App.showSettings App.aiInsights App.searchError
     App.searchProgress App.isFallbackMode App.useFallbackForTesting].

Section OrchestrationFacts.

Lemma map_withStringId_from index jobs :
  map_withStringId index (map Some jobs)
  = Normal (imap (fun i job => withStringId job (index + i)) jobs).
Proof.
  revert index. induction jobs as [|job jobs IH]; intros index; [done|].
  cbn [map map_withStringId imap]. rewrite IH. do 2 f_equal.
  - f_equal. lia.
  - apply imap_ext. intros i x _. cbn. f_equal. lia.
Qed.

Lemma map_withStringId_some jobs :
  map_withStringId 0 (map Some jobs) = Normal (stringified jobs).
Proof. apply map_withStringId_from. Qed.

Lemma stringified_fallback_keys :
  keys (stringified RICH_FALLBACK_JOBS)
  = [utf16 "101"; utf16 "102"; utf16 "103"; utf16 "104"].
Proof. vm_compute. reflexivity. Qed.

(** The direct-API search, by what its job-listing stage came to. *)
Lemma legacy_fallback_edge E (s : Legacy.state) net :
  let stage :=
    run (Legacy.fetchStructuredJobData E (Legacy.combinedPrompt_of (Legacy.searchParams s)))
        tt net in
  let r := run (Legacy.handleSearch E) s net in
  match fst stage with
  | Normal (Legacy.IsArray (_ :: _)) => True
  | Normal _ =>
      fst r = Normal tt
      ∧ Legacy.jobs (ui (snd r)) = stringified RICH_FALLBACK_JOBS
      ∧ Legacy.isFallbackMode (ui (snd r)) = true
      ∧ Legacy.searchError (ui (snd r)) = nothing_extracted
      ∧ Legacy.aiInsights (ui (snd r)) = simulated_analysis
      ∧ trace (snd r) = trace (snd stage)
  | Throw e =>
      fst r = Normal tt
      ∧ Legacy.jobs (ui (snd r)) = stringified RICH_FALLBACK_JOBS
      ∧ Legacy.isFallbackMode (ui (snd r)) = true
      ∧ Legacy.searchError (ui (snd r))
        = (if includes (message e) (utf16 "HTTP error! status: 401")
           then authentication_failed
           else critical_error_with_fallback (message e))
      ∧ Legacy.aiInsights (ui (snd r)) = simulated_analysis
      ∧ trace (snd r)
        = trace (snd stage) ++ [EConsole "error" [CStr (utf16 "Search error:"); CError e]]
  end.
Proof.
  intros stage r. subst stage r.
  unfold Legacy.handleSearch. js_unfold.
  destruct (Legacy.fetchStructuredJobData E _ _) as [[[[|job rest]|]|e] m1];
    cbn [fst snd ui trace network]; [| done | |].
  - rewrite map_withStringId_some.
    unfold Legacy.generateAIInsights, Legacy.fetchAIInsights. js_unfold. legacy_ui.
    repeat split.
  - rewrite map_withStringId_some.
    unfold Legacy.generateAIInsights, Legacy.fetchAIInsights. js_unfold. legacy_ui.
    repeat split.
  - destruct (includes (message e) (utf16 "HTTP error! status: 401"));
      cbn [fst snd ui trace network];
      rewrite map_withStringId_some;
      unfold Legacy.generateAIInsights, Legacy.fetchAIInsights; js_unfold; legacy_ui;
      repeat split.
Qed.

(** The serverless-backed search with the testing switch off, by what
    its job-listing stage came to. *)
Lemma app_live_edge (s : App.state) net :
  App.useFallbackForTesting s = false →
  let stage :=
    run (App.fetchStructuredJobData (App.combinedPrompt_of (App.searchParams s)))
        tt net in
  let r := run App.handleSearch s net in
  match fst stage with
  | Normal (App.DArray (_ :: _)) => True
  | Normal _ =>
      fst r = Normal tt
      ∧ App.jobs (ui (snd r)) = []
      ∧ App.isFallbackMode (ui (snd r)) = false
      ∧ App.searchError (ui (snd r)) = no_results_found
      ∧ App.aiInsights (ui (snd r)) = App.null
      ∧ trace (snd r) = trace (snd stage)
  | Throw e =>
      fst r = Normal tt
      ∧ App.jobs (ui (snd r)) = []
      ∧ App.isFallbackMode (ui (snd r)) = false
      ∧ App.searchError (ui (snd r))
        = (if includes (message e) (utf16 "GEMINI_API_KEY")
           then App.configuration_error
           else critical_error (message e))
      ∧ App.aiInsights (ui (snd r)) = App.null
      ∧ trace (snd r)
        = trace (snd stage) ++ [EConsole "error" [CStr (utf16 "Search error:"); CError e]]
  end.
Proof.
  intros Hoff stage r. subst stage r.
  unfold App.handleSearch. js_unfold. rewrite Hoff.
  destruct (App.fetchStructuredJobData _ _) as [[[|[|job rest]|]|e] m1];
    cbn [fst snd ui trace network]; [| |exact I| |].
  1-3: app_ui; repeat split.
  destruct (includes (message e) (utf16 "GEMINI_API_KEY"));
    cbn [fst snd ui trace network]; app_ui; repeat split.
Qed.

(** The serverless-backed job-listing stage is one call of [/api/search]. *)
Lemma app_stage_one_call combinedPrompt net :
  fetched_urls (trace (snd (run (App.fetchStructuredJobData combinedPrompt) tt net)))
  = [utf16 "/api/search"].
Proof.
  unfold App.fetchStructuredJobData, fetch. js_unfold.
  destruct (net 0%nat) as [reason|code [data|e]]; cbn [fst snd ui trace network status json];
    try reflexivity.
  destruct (negb _); [|reflexivity].
  destruct (App.error_or _ _); reflexivity.
Qed.

(** The serverless-backed search with the testing switch on. *)
Lemma app_forced_fallback (s : App.state) net :
  App.useFallbackForTesting s = true →
  let r := run App.handleSearch s net in
  fst r = Normal tt
  ∧ trace (snd r) = []
  ∧ App.jobs (ui (snd r)) = stringified RICH_FALLBACK_JOBS
  ∧ App.aiInsights (ui (snd r)) = App.Text simulated_analysis
  ∧ App.isFallbackMode (ui (snd r)) = true.
Proof.
  intros Hon r. subst r. unfold App.handleSearch. js_unfold. rewrite Hon.
  rewrite map_withStringId_some.
  unfold App.generateAIInsights, App.fetchAIInsights. js_unfold. app_ui.
  repeat split.
Qed.

End OrchestrationFacts.

(** ** The job-listing stage and what the search makes of it *)

Lemma legacy_on_error E (s : Legacy.state) net stage r e :
  stage = run (Legacy.fetchStructuredJobData E (Legacy.combinedPrompt_of (Legacy.searchParams s))) tt net →
  r = run (Legacy.handleSearch E) s net →
  fst stage = Throw e →
  fst r = Normal tt
  ∧ Legacy.jobs (ui (snd r)) = stringified RICH_FALLBACK_JOBS
  ∧ Legacy.isFallbackMode (ui (snd r)) = true
  ∧ Legacy.searchError (ui (snd r))
    = (if includes (message e) (utf16 "HTTP error! status: 401")
       then authentication_failed
       else critical_error_with_fallback (message e))
  ∧ Legacy.aiInsights (ui (snd r)) = simulated_analysis
  ∧ trace (snd r)
    = trace (snd stage) ++ [EConsole "error" [CStr (utf16 "Search error:"); CError e]].
Proof.
  intros Hstage Hrun He. pose proof (legacy_fallback_edge E s net) as Hedge.
  cbv zeta in Hedge. rewrite <- Hstage, <- Hrun in Hedge.
  rewrite He in Hedge. exact Hedge.
Qed.

Lemma legacy_on_empty E (s : Legacy.state) net stage r :
  stage = run (Legacy.fetchStructuredJobData E (Legacy.combinedPrompt_of (Legacy.searchParams s))) tt net →
  r = run (Legacy.handleSearch E) s net →
  fst stage = Normal Legacy.NotArray ∨ fst stage = Normal (Legacy.IsArray []) →
  fst r = Normal tt
  ∧ Legacy.jobs (ui (snd r)) = stringified RICH_FALLBACK_JOBS
  ∧ Legacy.isFallbackMode (ui (snd r)) = true
  ∧ Legacy.searchError (ui (snd r)) = nothing_extracted
  ∧ Legacy.aiInsights (ui (snd r)) = simulated_analysis
  ∧ trace (snd r) = trace (snd stage).
Proof.
  intros Hstage Hrun He. pose proof (legacy_fallback_edge E s net) as Hedge.
  cbv zeta in Hedge. rewrite <- Hstage, <- Hrun in Hedge.
  destruct He as [He|He]; rewrite He in Hedge; exact Hedge.
Qed.

Lemma app_on_error (s : App.state) net stage r e :
  App.useFallbackForTesting s = false →
  stage = run (App.fetchStructuredJobData (App.combinedPrompt_of (App.searchParams s))) tt net →
  r = run App.handleSearch s net →
  fst stage = Throw e →
  fst r = Normal tt
  ∧ App.jobs (ui (snd r)) = []
  ∧ App.isFallbackMode (ui (snd r)) = false
  ∧ App.searchError (ui (snd r))
    = (if includes (message e) (utf16 "GEMINI_API_KEY")
       then App.configuration_error
       else critical_error (message e))
  ∧ App.aiInsights (ui (snd r)) = App.null
  ∧ trace (snd r)
    = trace (snd stage) ++ [EConsole "error" [CStr (utf16 "Search error:"); CError e]].
Proof.
  intros Hoff Hstage Hrun He. pose proof (app_live_edge s net Hoff) as Hedge.
  cbv zeta in Hedge. rewrite <- Hstage, <- Hrun in Hedge.
  rewrite He in Hedge. exact Hedge.
Qed.

Lemma app_on_empty (s : App.state) net stage r :
  App.useFallbackForTesting s = false →
  stage = run (App.fetchStructuredJobData (App.combinedPrompt_of (App.searchParams s))) tt net →
  r = run App.handleSearch s net →
  (∃ d, fst stage = Normal d ∧ ∀ job rest, d ≠ App.DArray (job :: rest)) →
  fst r = Normal tt
  ∧ App.jobs (ui (snd r)) = []
  ∧ App.isFallbackMode (ui (snd r)) = false
  ∧ App.searchError (ui (snd r)) = no_results_found
  ∧ App.aiInsights (ui (snd r)) = App.null
  ∧ trace (snd r) = trace (snd stage).
Proof.
  intros Hoff Hstage Hrun (d & He & Hd). pose proof (app_live_edge s net Hoff) as Hedge.
  cbv zeta in Hedge. rewrite <- Hstage, <- Hrun in Hedge.
  rewrite He in Hedge. destruct d as [|[|job rest]|]; try exact Hedge.
  destruct (Hd job rest eq_refl).
Qed.

(** ** The retry loop and the 401 *)

Lemma combinedPrompt_head searchParams :
  is_empty (Legacy.combinedPrompt_of searchParams) = false.
Proof. reflexivity. Qed.

Lemma combinedPrompt_nonempty searchParams : Legacy.combinedPrompt_of searchParams ≠ [].
Proof.
  intros H. pose proof (combinedPrompt_head searchParams) as Hh.
  rewrite H in Hh. discriminate Hh.
Qed.

Lemma unauthorized_mentions_401 :
  includes (utf16 "HTTP error! status: 401 (Unauthorized)") (utf16 "401") = true.
Proof. vm_compute. reflexivity. Qed.

Lemma unauthorized_is_recognised :
  includes (utf16 "HTTP error! status: 401 (Unauthorized)")
           (utf16 "HTTP error! status: 401") = true.
Proof. vm_compute. reflexivity. Qed.

Lemma attempt_on_401 body :
  job_search_attempt (Responded 401 body)
  = Throw (Error (utf16 "HTTP error! status: 401 (Unauthorized)")).
Proof. reflexivity. Qed.

Lemma attempts_console_r tr after :
  Forall is_console after → attempts (tr ++ after) = attempts tr.
Proof. intros H. unfold attempts, backoff. by rewrite waits_console_r. Qed.

Lemma timeouts_console_r tr after :
  Forall is_console after → timeouts (tr ++ after) = timeouts tr.
Proof.
  intros H. by rewrite timeouts_app, (timeouts_console after), app_nil_r.
Qed.

Lemma diagnostic_unauthorized :
  (if includes (message (Error (utf16 "HTTP error! status: 401 (Unauthorized)")))
               (utf16 "HTTP error! status: 401")
   then authentication_failed
   else critical_error_with_fallback
          (message (Error (utf16 "HTTP error! status: 401 (Unauthorized)"))))
  = authentication_failed.
Proof. vm_compute. reflexivity. Qed.

Lemma unauthorized_not_retryable body :
  retryable mentions_401 (job_search_attempt (Responded 401 body)) = false.
Proof. vm_compute. reflexivity. Qed.

Lemma unauthorized_aux (E : Legacy.env) (s : Legacy.state)
    (net : nat → outcome Legacy.envelope) (body : completion Legacy.envelope)
    (stage : completion Legacy.parsed * machine Legacy.envelope unit)
    (r : completion unit * machine Legacy.envelope Legacy.state) :
  stage = run (Legacy.fetchStructuredJobData E (Legacy.combinedPrompt_of (Legacy.searchParams s)))
        tt net →
  r = run (Legacy.handleSearch E) s net →
  net 0%nat = Responded 401 body →
  fst stage = Throw (Error (utf16 "HTTP error! status: 401 (Unauthorized)"))
  ∧ attempts (trace (snd stage)) = 1%nat
  ∧ timeouts (trace (snd stage)) = []
  ∧ fst r = Normal tt
  ∧ attempts (trace (snd r)) = 1%nat
  ∧ timeouts (trace (snd r)) = []
  ∧ Legacy.searchError (ui (snd r)) = authentication_failed
  ∧ Legacy.isFallbackMode (ui (snd r)) = true
  ∧ Legacy.jobs (ui (snd r)) = stringified RICH_FALLBACK_JOBS.
Proof.
  intros Hstage Hrun H401.
  destruct (fetchStructuredJobData_spec E _ net
              (combinedPrompt_nonempty (Legacy.searchParams s)))
    as (k & _ & Hb & Ht & Hbefore & _ & Herr).
  pose proof (legacy_fallback_edge E s net) as Hedge.
  cbv zeta in Hb, Ht, Herr, Hedge.
  rewrite <- Hstage in Hb, Ht, Herr, Hedge. rewrite <- Hrun in Hedge.
  clear Hstage Hrun.
  assert (k = 0%nat) as ->.
  { destruct k as [|k]; [reflexivity|]. specialize (Hbefore 0%nat ltac:(lia)).
    rewrite H401, unauthorized_not_retryable in Hbefore. discriminate Hbefore. }
  cbn [doubling] in Hb, Ht.
  rewrite H401, attempt_on_401 in Herr. specialize (Herr _ eq_refl).
  rewrite Herr in Hedge.
  destruct Hedge as (Hr & Hjobs & Hmode & Herror & _ & Htrace).
  assert (attempts (trace (snd stage)) = 1%nat) as Hone
    by (unfold attempts; rewrite Hb; reflexivity).
  rewrite Htrace, attempts_console_r, timeouts_console_r
    by (repeat constructor).
  split; [exact Herr|]. split; [exact Hone|]. split; [exact Ht|].
  split; [exact Hr|]. split; [exact Hone|]. split; [exact Ht|].
  split.
  { rewrite Herror. exact diagnostic_unauthorized. }
  split; [exact Hmode|exact Hjobs].
Qed.

(** C3.  When the first response of the transport is a 401, the job-listing
    stage throws the distinguished error ["HTTP error! status: 401
    (Unauthorized)"] after that one attempt and no wait; the search as a
    whole makes that one call of [fetch] and no other, never waits, reports
    the authentication failure and shows the fallback dataset. *)
Theorem unauthorized_is_final (E : Legacy.env) (s : Legacy.state)
    (net : nat → outcome Legacy.envelope) (body : completion Legacy.envelope) :
  net 0%nat = Responded 401 body →
  let stage :=
    run (Legacy.fetchStructuredJobData E (Legacy.combinedPrompt_of (Legacy.searchParams s)))
        tt net in
  let r := run (Legacy.handleSearch E) s net in
  fst stage = Throw (Error (utf16 "HTTP error! status: 401 (Unauthorized)"))
  ∧ attempts (trace (snd stage)) = 1%nat
  ∧ timeouts (trace (snd stage)) = []
  ∧ fst r = Normal tt
  ∧ attempts (trace (snd r)) = 1%nat
  ∧ timeouts (trace (snd r)) = []
  ∧ Legacy.searchError (ui (snd r)) = authentication_failed
  ∧ Legacy.isFallbackMode (ui (snd r)) = true
  ∧ Legacy.jobs (ui (snd r)) = stringified RICH_FALLBACK_JOBS.
Proof.
  intros H401. exact (unauthorized_aux E s net body _ _ eq_refl eq_refl H401).
Qed.

Lemma unauthorized_is_final_witness :
  (fun _ : nat => Responded 401 (Normal Legacy.Falsy)) 0%nat
  = Responded 401 (Normal Legacy.Falsy)
  ∧ attempts (trace (snd (run (Legacy.handleSearch sample_env) sample_legacy_state
                            (fun _ => Responded 401 (Normal Legacy.Falsy))))) = 1%nat.
Proof.
  split; [reflexivity|].
  exact (proj1 (proj2 (proj2 (proj2 (proj2
    (unauthorized_is_final sample_env sample_legacy_state
       (fun _ => Responded 401 (Normal Legacy.Falsy)) _ eq_refl)))))).
Defined.

(** The counterexample to C2 as stated: after a first failure the loop
    waits one second before attempt 1, not two. *)
Lemma first_retry_waits_one_second :
  let search :=
    run (Legacy.fetchStructuredJobData sample_env (utf16 "jobs in Vienna")) tt
        (outcomes [Responded 500 (Normal Legacy.Falsy)] (replies "[]")) in
  fst search = Normal (Legacy.IsArray [])
  ∧ backoff (trace (snd search)) = [0; 1000]
  ∧ backoff (trace (snd search)) !! 1%nat ≠ Some (2 ^ 1 * 1000).
Proof. vm_compute. repeat split. discriminate. Qed.

(** ** The fallback edge *)

(** The three diagnostics of the direct-API client differ from one another. *)
Lemma legacy_diagnostics_differ :
  authentication_failed ≠ nothing_extracted
  ∧ ∀ underlying,
      critical_error_with_fallback underlying ≠ authentication_failed
      ∧ critical_error_with_fallback underlying ≠ nothing_extracted.
Proof.
  split; [|intros underlying; split]; intros H; vm_compute in H; discriminate H.
Qed.

(** The counterexample to C4 as stated: when the request of the
    serverless-backed client fails, the result set is empty and is not
    marked as fallback data. *)
Lemma serverless_failure_shows_no_fallback :
  let r := run App.handleSearch (sample_state false)
               (fun _ => Rejected (utf16 "Failed to fetch")) in
  fst r = Normal tt
  ∧ App.jobs (ui (snd r)) = []
  ∧ App.isFallbackMode (ui (snd r)) = false
  ∧ App.searchError (ui (snd r)) = critical_error (utf16 "Failed to fetch").
Proof. vm_compute. repeat split. Qed.

(** C4, as amended.  In the direct-API client, a job-listing stage that
    throws, or that yields a value that is not an array or an empty array,
    makes the search show the fallback dataset, marked as fallback data,
    with one of three different diagnostics: the authentication failure for
    an error that holds ["HTTP error! status: 401"], the critical error
    with the message of any other error, and the no-results text.  In the
    serverless-backed client with the testing switch off, the same
    conditions leave the result set empty and not marked as fallback data,
    with a diagnostic for a missing API key, for any other error with its
    message, and for no results. *)
Theorem fallback_policy (E : Legacy.env) (s : Legacy.state)
    (net : nat → outcome Legacy.envelope)
    (s' : App.state) (net' : nat → outcome App.data) :
  (let stage :=
     run (Legacy.fetchStructuredJobData E (Legacy.combinedPrompt_of (Legacy.searchParams s)))
         tt net in
   let final := ui (snd (run (Legacy.handleSearch E) s net)) in
   (∀ e, fst stage = Throw e →
      Legacy.jobs final = stringified RICH_FALLBACK_JOBS
      ∧ Legacy.isFallbackMode final = true
      ∧ Legacy.searchError final
        = (if includes (message e) (utf16 "HTTP error! status: 401")
           then authentication_failed
           else critical_error_with_fallback (message e)))
   ∧ (fst stage = Normal Legacy.NotArray ∨ fst stage = Normal (Legacy.IsArray []) →
      Legacy.jobs final = stringified RICH_FALLBACK_JOBS
      ∧ Legacy.isFallbackMode final = true
      ∧ Legacy.searchError final = nothing_extracted))
  ∧ (authentication_failed ≠ nothing_extracted
     ∧ ∀ underlying,
         critical_error_with_fallback underlying ≠ authentication_failed
         ∧ critical_error_with_fallback underlying ≠ nothing_extracted)
  ∧ (App.useFallbackForTesting s' = false →
     let stage :=
       run (App.fetchStructuredJobData (App.combinedPrompt_of (App.searchParams s')))
           tt net' in
     let final := ui (snd (run App.handleSearch s' net')) in
     (∀ e, fst stage = Throw e →
        App.jobs final = []
        ∧ App.isFallbackMode final = false
        ∧ App.searchError final
          = (if includes (message e) (utf16 "GEMINI_API_KEY")
             then App.configuration_error
             else critical_error (message e)))
     ∧ ((∃ d, fst stage = Normal d ∧ ∀ job rest, d ≠ App.DArray (job :: rest)) →
        App.jobs final = []
        ∧ App.isFallbackMode final = false
        ∧ App.searchError final = no_results_found)).
Proof.
  split; [|split].
  - split.
    + intros e He.
      destruct (legacy_on_error E s net _ _ e eq_refl eq_refl He)
        as (_ & Hjobs & Hmode & Herror & _).
      split; [exact Hjobs|]. split; [exact Hmode|exact Herror].
    + intros He.
      destruct (legacy_on_empty E s net _ _ eq_refl eq_refl He)
        as (_ & Hjobs & Hmode & Herror & _).
      split; [exact Hjobs|]. split; [exact Hmode|exact Herror].
  - exact legacy_diagnostics_differ.
  - intros Hoff. split.
    + intros e He.
      destruct (app_on_error s' net' _ _ e Hoff eq_refl eq_refl He)
        as (_ & Hjobs & Hmode & Herror & _).
      split; [exact Hjobs|]. split; [exact Hmode|exact Herror].
    + intros He.
      destruct (app_on_empty s' net' _ _ Hoff eq_refl eq_refl He)
        as (_ & Hjobs & Hmode & Herror & _).
      split; [exact Hjobs|]. split; [exact Hmode|exact Herror].
Qed.

(** C5.  With the testing switch on, a search makes no call of [fetch] (it
    has no effect on the outside at all), and for every state and every
    network it ends with the same result set, the fallback dataset with
    its ids as the strings ["101"] to ["104"], the same simulated analysis,
    and the fallback mark. *)
Theorem forced_fallback_is_offline (s : App.state) (net : nat → outcome App.data) :
  App.useFallbackForTesting s = true →
  let r := run App.handleSearch s net in
  fst r = Normal tt
  ∧ trace (snd r) = []
  ∧ attempts (trace (snd r)) = 0%nat
  ∧ App.jobs (ui (snd r)) = stringified RICH_FALLBACK_JOBS
  ∧ keys (App.jobs (ui (snd r))) = [utf16 "101"; utf16 "102"; utf16 "103"; utf16 "104"]
  ∧ App.aiInsights (ui (snd r)) = App.Text simulated_analysis
  ∧ App.isFallbackMode (ui (snd r)) = true
  ∧ (∀ s2 net2, App.useFallbackForTesting s2 = true →
       App.jobs (ui (snd (run App.handleSearch s2 net2))) = App.jobs (ui (snd r))
       ∧ App.aiInsights (ui (snd (run App.handleSearch s2 net2)))
         = App.aiInsights (ui (snd r))).
Proof.
  intros Hon r.
  destruct (app_forced_fallback s net Hon) as (Hr & Htr & Hjobs & Hins & Hmode).
  fold r in Hr, Htr, Hjobs, Hins, Hmode. clearbody r.
  split; [exact Hr|]. split; [exact Htr|].
  split; [rewrite Htr; reflexivity|]. split; [exact Hjobs|].
  split; [rewrite Hjobs; exact stringified_fallback_keys|].
  split; [exact Hins|]. split; [exact Hmode|].
  intros s2 net2 Hon2.
  destruct (app_forced_fallback s2 net2 Hon2) as (_ & _ & Hjobs2 & Hins2 & _).
  split.
  - rewrite Hjobs. exact Hjobs2.
  - rewrite Hins. exact Hins2.
Qed.

Lemma forced_fallback_is_offline_witness :
  App.useFallbackForTesting (sample_state true) = true
  ∧ trace (snd (run App.handleSearch (sample_state true)
                   (fun _ => Rejected (utf16 "offline")))) = [].
Proof.
  split; [reflexivity|].
  exact (proj1 (proj2
    (forced_fallback_is_offline (sample_state true)
       (fun _ => Rejected (utf16 "offline")) eq_refl))).
Defined.

(** ** The insights stage *)

Lemma fetched_urls_console_r tr after :
  Forall is_console after → fetched_urls (tr ++ after) = fetched_urls tr.
Proof.
  intros H. unfold fetched_urls. rewrite omap_app.
  assert (omap (λ e, match e with EFetch r => Some (req_url r) | _ => None end) after = [])
    as ->; [|apply app_nil_r].
  induction H as [|e after He _ IH]; [reflexivity|].
  destruct e; simpl in *; [contradiction|contradiction|exact IH].
Qed.

(** The counterexample to C6 as stated: in the direct-API client a live
    search that finds nothing does not skip the insights stage; the stage
    runs on the fallback dataset and sets the simulated analysis. *)
Lemma empty_live_search_still_sets_insights :
  let stage :=
    run (Legacy.fetchStructuredJobData sample_env
           (Legacy.combinedPrompt_of (Legacy.searchParams sample_legacy_state)))
        tt (fun _ => replies "[]") in
  let r := run (Legacy.handleSearch sample_env) sample_legacy_state
               (fun _ => replies "[]") in
  fst stage = Normal (Legacy.IsArray [])
  ∧ Legacy.aiInsights (ui (snd r)) = simulated_analysis
  ∧ is_empty (Legacy.aiInsights (ui (snd r))) = false.
Proof. vm_compute. repeat split. Qed.

(** C6, as amended.  In the serverless-backed client with the testing
    switch off, a job-listing stage that produced no record (it threw, or
    gave a value that is not an array or an empty array) leaves the insights
    unset and the one call of [/api/search] is the only call of [fetch];
    with the switch on, the insights are the simulated analysis and nothing
    is called.  In the direct-API client a stage that produced no record
    turns the search to the fallback dataset, and the insights stage then
    runs without any further call of [fetch] and gives the simulated
    analysis. *)
Theorem insights_stage (E : Legacy.env) (s : Legacy.state)
    (net : nat → outcome Legacy.envelope)
    (s' : App.state) (net' : nat → outcome App.data) :
  (App.useFallbackForTesting s' = false →
   let stage :=
     run (App.fetchStructuredJobData (App.combinedPrompt_of (App.searchParams s')))
         tt net' in
   let r := run App.handleSearch s' net' in
   (∃ e, fst stage = Throw e)
   ∨ (∃ d, fst stage = Normal d ∧ ∀ job rest, d ≠ App.DArray (job :: rest)) →
   App.aiInsights (ui (snd r)) = App.null
   ∧ fetched_urls (trace (snd r)) = [utf16 "/api/search"])
  ∧ (App.useFallbackForTesting s' = true →
     let r := run App.handleSearch s' net' in
     App.aiInsights (ui (snd r)) = App.Text simulated_analysis
     ∧ trace (snd r) = [])
  ∧ (let stage :=
       run (Legacy.fetchStructuredJobData E (Legacy.combinedPrompt_of (Legacy.searchParams s)))
           tt net in
     let r := run (Legacy.handleSearch E) s net in
     (∃ e, fst stage = Throw e)
     ∨ fst stage = Normal Legacy.NotArray ∨ fst stage = Normal (Legacy.IsArray []) →
     Legacy.aiInsights (ui (snd r)) = simulated_analysis
     ∧ fetched_urls (trace (snd r)) = fetched_urls (trace (snd stage))).
Proof.
  split; [|split].
  - intros Hoff stage r Hzero.
    pose proof (app_stage_one_call (App.combinedPrompt_of (App.searchParams s')) net')
      as Hone.
    fold stage in Hone.
    destruct Hzero as [[e He]|Hd].
    + destruct (app_on_error s' net' stage r e Hoff eq_refl eq_refl He)
        as (_ & _ & _ & _ & Hins & Htr).
      split; [exact Hins|].
      rewrite Htr, fetched_urls_console_r by (repeat constructor). exact Hone.
    + destruct (app_on_empty s' net' stage r Hoff eq_refl eq_refl Hd)
        as (_ & _ & _ & _ & Hins & Htr).
      split; [exact Hins|]. rewrite Htr. exact Hone.
  - intros Hon r.
    destruct (app_forced_fallback s' net' Hon) as (_ & Htr & _ & Hins & _).
    split; [exact Hins|exact Htr].
  - intros stage r Hzero.
    destruct Hzero as [[e He]|Hd].
    + destruct (legacy_on_error E s net stage r e eq_refl eq_refl He)
        as (_ & _ & _ & _ & Hins & Htr).
      split; [exact Hins|].
      rewrite Htr, fetched_urls_console_r by (repeat constructor). reflexivity.
    + destruct (legacy_on_empty E s net stage r eq_refl eq_refl Hd)
        as (_ & _ & _ & _ & Hins & Htr).
      split; [exact Hins|]. rewrite Htr. reflexivity.
Qed.

(** ** The credential in the console *)

Lemma startsWith_refl s : startsWith s s = true.
Proof. apply startsWith_true. exists []. by rewrite app_nil_r. Qed.

Lemma includes_suffix a key : includes (a ++ key) key = true.
Proof.
  induction a as [|x a IH].
  - destruct key as [|c key]; [reflexivity|].
    cbn [app includes]. by rewrite startsWith_refl.
  - cbn [app includes]. rewrite IH. apply orb_true_r.
Qed.

(** C7, at its failing input.  [runSimpleApiTest] writes the request
    address to the console with the key in its query string: whatever the
    key and the network, its console output holds the key. *)
Theorem simple_test_logs_the_key (E : Legacy.env) (net : nat → outcome Legacy.envelope) :
  let r := run (Legacy.runSimpleApiTest E) tt net in
  EConsole "log"
    [CStr (utf16 "Request URL:");
     CStr (Legacy.API_ENDPOINT ++ utf16 "?key=" ++ Legacy.API_KEY E)]
  ∈ trace (snd r)
  ∧ existsb (logs (Legacy.API_KEY E)) (trace (snd r)) = true.
Proof.
  intros r.
  assert (∃ rest first,
            trace (snd r)
            = first
              :: EConsole "log"
                   [CStr (utf16 "Request URL:");
                    CStr (Legacy.API_ENDPOINT ++ utf16 "?key=" ++ Legacy.API_KEY E)]
              :: rest) as (rest & first & Htr).
  { subst r. unfold Legacy.runSimpleApiTest, fetch. js_unfold.
    destruct (net 0%nat) as [reason|code body]; cbn [fst snd ui trace network status json].
    - eexists _, _. reflexivity.
    - destruct (negb _); eexists _, _; reflexivity. }
  clearbody r. rewrite Htr. split.
  - apply list_elem_of_further, list_elem_of_here.
  - cbn [existsb logs mentions].
    rewrite (app_assoc Legacy.API_ENDPOINT), includes_suffix.
    rewrite orb_true_l, orb_true_r. apply orb_true_r.
Qed.

(** The sibling path: the job search removes the key from the headers it
    writes out, and its console output does not hold the key. *)
Lemma job_search_does_not_log_the_key :
  let r := run (Legacy.fetchStructuredJobData sample_env (utf16 "jobs in Vienna")) tt
               (fun _ => replies "[]") in
  existsb (logs (Legacy.API_KEY sample_env)) (trace (snd r)) = false
  ∧ existsb (logs (Legacy.API_KEY sample_env))
      (trace (snd (run (Legacy.runSimpleApiTest sample_env) tt (fun _ => replies "[]"))))
    = true.
Proof. vm_compute. split; reflexivity. Qed.

(** ** Ids *)

(** C8, at its failing input.  Two listings that both come with the id 1
    keep it: post-processing gives both the key ["1"], in the pure map and
    in the state that the serverless-backed search ends with. *)
Theorem duplicate_ids_are_kept :
  let reply := [Some (sample_listing 1); Some (sample_listing 1)] in
  let r := run App.handleSearch (sample_state false)
               (fun _ => Responded 200 (Normal (App.DArray reply))) in
  map_withStringId 0 reply
  = Normal (stringified [sample_listing 1; sample_listing 1])
  ∧ keys (stringified [sample_listing 1; sample_listing 1]) = [utf16 "1"; utf16 "1"]
  ∧ keys (App.jobs (ui (snd r))) = [utf16 "1"; utf16 "1"]
  ∧ ¬ NoDup (keys (App.jobs (ui (snd r)))).
Proof.
  vm_compute. repeat split. intros H. inversion H as [|x l Hin _]; subst.
  apply Hin. left.
Qed.

(** ** The link of a listing *)

Lemma isValidUrl_spec job :
  isValidUrl job = true
  ↔ ∃ rest, url job = Some (utf16 "http://" ++ rest)
            ∨ url job = Some (utf16 "https://" ++ rest).
Proof.
  unfold isValidUrl. split.
  - destruct (url job) as [u|]; [|discriminate].
    intros [_ [H|H]%orb_true_iff]%andb_true_iff;
      apply startsWith_true in H as [rest ->]; exists rest; auto.
  - intros [rest [->| ->]].
    + assert (startsWith (utf16 "http://" ++ rest) (utf16 "http://") = true) as ->
        by (apply startsWith_true; eauto).
      reflexivity.
    + assert (startsWith (utf16 "https://" ++ rest) (utf16 "https://") = true) as ->
        by (apply startsWith_true; eauto).
      rewrite orb_true_r. reflexivity.
Qed.

(** C9.  The "View Job" link of a listing can be followed exactly when the
    listing has a [url] that starts with ["http://"] or ["https://"].  For
    every other listing (no [url], an empty one, a relative one, ["#"]) the
    link is marked disabled and its click handler prevents the default
    action; the listings of the fallback dataset are all of that kind. *)
Theorem view_job_link (job : listing) :
  (actionable (viewJob job) = true
   ↔ ∃ rest, url job = Some (utf16 "http://" ++ rest)
             ∨ url job = Some (utf16 "https://" ++ rest))
  ∧ (actionable (viewJob job) = false
     ↔ aria_disabled (viewJob job) = true ∧ prevents_default (viewJob job) = true)
  ∧ (url job = None ∨ url job = Some [] ∨ url job = Some (utf16 "#")
     ∨ (∃ path, url job = Some (utf16 "/" ++ path)) →
     actionable (viewJob job) = false)
  ∧ Forall (fun job => actionable (viewJob job) = false) (stringified RICH_FALLBACK_JOBS).
Proof.
  assert (actionable (viewJob job) = isValidUrl job) as Hact.
  { unfold actionable, viewJob. cbn [aria_disabled prevents_default].
    destruct (isValidUrl job); reflexivity. }
  split; [|split; [|split]].
  - rewrite Hact. apply isValidUrl_spec.
  - rewrite Hact. unfold viewJob. cbn [aria_disabled prevents_default].
    destruct (isValidUrl job); split; try discriminate; auto.
    intros [H _]. discriminate H.
  - rewrite Hact. unfold isValidUrl.
    intros [->|[->|[->|[path ->]]]]; reflexivity.
  - repeat constructor.
Qed.

(** ** Feedback *)



(** * Further properties *)

(** ** What the extractor returns *)

Section ExtractorPieces.
Import Extractor.

Lemma substring_refl s : substring s s.
Proof. exists [], []. by rewrite app_nil_r. Qed.

Lemma substring_trans a b c : substring a b → substring b c → substring a c.
Proof.
  intros (a1 & a2 & ->) (b1 & b2 & ->).
  exists (b1 ++ a1), (a2 ++ b2). by rewrite <- !app_assoc.
Qed.

Lemma trimEnd_prefix s : ∃ ws, s = trimEnd s ++ ws ∧ forallb is_space ws = true.
Proof.
  unfold trimEnd. destruct (trimStart_suffix (rev s)) as (ws & Heq & Hws).
  exists (rev ws). split; [|by rewrite forallb_rev].
  rewrite <- rev_app_distr, <- Heq. by rewrite rev_involutive.
Qed.

(** [trim] removes a run of white space at each end, and nothing else. *)
Lemma trim_cut s :
  ∃ before after,
    s = before ++ trim s ++ after
    ∧ forallb is_space before = true ∧ forallb is_space after = true.
Proof.
  destruct (trimStart_suffix s) as (before & Hs & Hb).
  destruct (trimEnd_prefix (trimStart s)) as (after & He & Ha).
  exists before, after. unfold trim. by rewrite <- He.
Qed.

Lemma trim_substring s : substring (trim s) s.
Proof. destruct (trim_cut s) as (before & after & Heq & _). by exists before, after. Qed.

Lemma trim_trimmed s : trimmed (trim s).
Proof.
  unfold trimmed, trim. split.
  - destruct (trimStart s) as [|x r] eqn:H; [exact I|].
    pose proof (trimStart_head _ _ _ H) as Hx.
    destruct (trimEnd_head x r Hx) as [r' ->]. exact Hx.
  - unfold trimEnd. rewrite rev_involutive.
    destruct (trimStart (rev (trimStart s))) as [|x r] eqn:H; [exact I|].
    exact (trimStart_head _ _ _ H).
Qed.

(** X1.  Whatever the text, [extractJsonFromText] returns a contiguous
    piece of it, with no white space at either end: it never adds or
    rewrites a character, and a second [trim] would change nothing. *)
Theorem extractJsonFromText_cuts_a_piece (text : jsstring) :
  substring (extractJsonFromText text) text
  ∧ trimmed (extractJsonFromText text)
  ∧ trim (extractJsonFromText text) = extractJsonFromText text.
Proof.
  unfold extractJsonFromText.
  destruct (markdownMatch_spec text) as [(tag & i & Hb & ->)|[_ ->]].
  - rewrite trim_idem. split; [|split; [apply trim_trimmed|apply trim_idem]].
    destruct Hb as (pre & post & -> & _).
    apply (substring_trans _ i); [apply trim_substring|].
    exists (pre ++ fence ++ tag), (fence ++ post). by rewrite <- !app_assoc.
  - destruct (arrayMatch_spec text) as [(pre & mid & post & -> & _ & _ & ->)|[_ ->]].
    + rewrite trim_bracketed. split; [|split].
      * exists pre, post. by rewrite <- !app_assoc.
      * rewrite <- trim_bracketed. apply trim_trimmed.
      * apply trim_bracketed.
    + split; [apply trim_substring|]. split; [apply trim_trimmed|apply trim_idem].
Qed.

End ExtractorPieces.

(** ** The pattern of the serverless functions *)

Section ServerPattern.
Import Extractor.

Lemma lazy_to_close_spec s :
  (∃ g post, s = g ++ Server.closing_line ++ post
             ∧ leftmost Server.closing_line g post
             ∧ Server.lazy_to_close s = Some g)
  ∨ (¬ occurs Server.closing_line s ∧ Server.lazy_to_close s = None).
Proof.
  induction s as [|x s IH].
  - right. split; [|done]. intros ([|??] & c & Heq); discriminate.
  - cbn [Server.lazy_to_close].
    destruct (startsWith (x :: s) Server.closing_line) eqn:Hs.
    + left. apply startsWith_true in Hs as [post Hs].
      exists [], post. split; [done|]. split; [apply leftmost_nil|done].
    + destruct IH as [(g & post & -> & Hl & ->)|[Hno ->]].
      * left. exists (x :: g), post. split; [done|]. split; [|done].
        apply leftmost_cons; [exact Hs|exact Hl].
      * right. split; [|done]. intros ([|y a] & c & Heq).
        -- apply startsWith_false in Hs. apply Hs. by exists c.
        -- injection Heq as _ Heq. apply Hno. by exists a, c.
Qed.

Lemma has_json_block_cons x t : has_json_block t → has_json_block (x :: t).
Proof. intros (a & b & c & ->). by exists (x :: a), b, c. Qed.

Lemma has_json_block_tail x t :
  startsWith (x :: t) Server.opening = false →
  has_json_block (x :: t) → has_json_block t.
Proof.
  intros Hs ([|y a] & b & c & Heq).
  - apply startsWith_false in Hs. destruct Hs.
    exists (b ++ Server.closing_line ++ c). by rewrite Heq.
  - injection Heq as _ ->. by exists a, b, c.
Qed.

(** An opening line cannot start inside another one. *)
Lemma opening_apart r a' r' :
  Server.opening ++ r = a' ++ Server.opening ++ r' →
  a' = [] ∨ ∃ d, a' = Server.opening ++ d.
Proof.
  intros Heq. destruct a' as [|c0 a']; [by left|]. right.
  do 7 (destruct a' as [|? a'];
        [exfalso; cbn in Heq; injection Heq as; congruence|]).
  cbn in Heq. injection Heq as <- <- <- <- <- <- <- <- Heq.
  by exists a'.
Qed.

(** X2.  The pattern of the serverless functions finds the first block in
    the strict form: the block starts at the leftmost opening line
    [```json] that a closing line follows and ends at the first closing
    line after it, and the capture is what lies between the two lines;
    there is no match exactly when the text holds no such block. *)
Theorem json_block_finds_the_first_block (t : jsstring) :
  (∃ pre g post,
      t = pre ++ Server.opening ++ g ++ Server.closing_line ++ post
      ∧ leftmost Server.opening pre (g ++ Server.closing_line ++ post)
      ∧ leftmost Server.closing_line g post
      ∧ Server.json_block t = Some g)
  ∨ (¬ has_json_block t ∧ Server.json_block t = None).
Proof.
  induction t as [|x t IH].
  - right. split; [|done]. intros ([|??] & b & c & Heq); discriminate.
  - cbn [Server.json_block]. unfold Server.match_block_here.
    destruct (strip_prefix Server.opening (x :: t)) as [r|] eqn:Hs.
    + apply strip_prefix_Some in Hs.
      destruct (lazy_to_close_spec r) as [(g & post & -> & Hl & ->)|[Hno ->]].
      * left. exists [], g, post. rewrite Hs. repeat split; auto using leftmost_nil.
      * assert (¬ has_json_block (x :: t)) as Hnone.
        { rewrite Hs. intros (a & b & c & Heq).
          destruct (opening_apart _ _ _ Heq) as [->|[d ->]].
          - apply (app_inv_head Server.opening) in Heq. apply Hno. by exists b, c.
          - rewrite <- !app_assoc in Heq.
            apply (app_inv_head Server.opening) in Heq.
            apply Hno. exists (d ++ Server.opening ++ b), c.
            by rewrite Heq, <- !app_assoc. }
        right. split; [exact Hnone|].
        destruct IH as [(pre & g & post & -> & _)|[_ ->]]; [|done].
        destruct Hnone. apply has_json_block_cons. by exists pre, g, post.
    + assert (startsWith (x :: t) Server.opening = false) as Hsw
        by (unfold startsWith; by rewrite Hs).
      destruct IH as [(pre & g & post & -> & Hlo & Hlc & ->)|[Hno ->]].
      * left. exists (x :: pre), g, post. repeat split; auto.
        apply leftmost_cons; [exact Hsw|exact Hlo].
      * right. split; [|done]. intros Hb. by apply Hno, (has_json_block_tail x).
Qed.

End ServerPattern.

(** ** The serverless functions *)

Lemma same_refl a : same a a = true.
Proof. induction a as [|x a IH]; [done|]. simpl. by rewrite N.eqb_refl. Qed.

Lemma same_eq a b : same a b = true ↔ a = b.
Proof.
  split; [|intros ->; apply same_refl].
  revert b. induction a as [|x a IH]; intros [|y b]; simpl; try done.
  intros [Hx Ha]%andb_true_iff. apply N.eqb_eq in Hx. f_equal; auto.
Qed.

Ltac literal_nonempty :=
  let H := fresh in intros H; vm_compute in H; discriminate H.

(** The error for a key that is not set names the variable, in development
    and in production. *)
Lemma missing_key_message E :
  message (Server.missing_key E) ≠ []
  ∧ includes (message (Server.missing_key E)) (utf16 "GEMINI_API_KEY") = true.
Proof.
  unfold Server.missing_key.
  destruct (match Server.NODE_ENV E with Some v => same v _ | None => false end);
    (split; [literal_nonempty|vm_compute; reflexivity]).
Qed.



Section HandlerFacts.
Context {V : Type}.
Implicit Types (E : Server.process_env) (K : Server.sdk V).

(** X3.  [/api/search], in both revisions, answers 200 with the parsed
    value, or 405, 400 or 500 with an [error] message that is not empty.
    It answers 200 exactly when the request is a POST, the key is set, the
    prompt is not empty, the model answers the prompt followed by the
    instructions with a text that holds a [json] block in the strict form
    whose interior is not empty, and [JSON.parse] accepts the interior;
    the body is then what it parsed. *)
Theorem search_handler_answers googleSearch instructions E K
    (req : Server.request Server.search_fields) :
  let r := fst (Server.search_handler googleSearch instructions E K req) in
  ((∃ jobs, Server.status r = 200 ∧ Server.json r = Server.Parsed jobs)
   ∨ (∃ error, (Server.status r = 405 ∨ Server.status r = 400 ∨ Server.status r = 500)
               ∧ Server.json r = Server.ErrorBody error ∧ error ≠ []))
  ∧ (Server.status r = 200
     ↔ Server.method req = utf16 "POST"
       ∧ key_set E
       ∧ ∃ c combinedPrompt text jsonString jobs,
           Server.body req
           = Server.Object {| Server.combinedPrompt := Some (c :: combinedPrompt) |}
           ∧ Server.generateContent K ((c :: combinedPrompt) ++ instructions) = Normal text
           ∧ Server.json_block text = Some jsonString ∧ jsonString ≠ []
           ∧ Server.JSON_parse K jsonString = Normal jobs
           ∧ Server.json r = Server.Parsed jobs).
Proof.
  cbv zeta. unfold Server.search_handler, key_set.
  destruct (same (Server.method req) (utf16 "POST")) eqn:Hm; cbn [negb fst];
    [apply same_eq in Hm|
     assert (Server.method req ≠ utf16 "POST") as Hne
       by (intros H; apply same_eq in H; congruence)].
  2:{ cbn [Server.status Server.json]. split.
      - right. eexists. split; [by left|]. split; [reflexivity|literal_nonempty].
      - split; [discriminate|]. intros [H _]. by destruct Hne. }
  destruct (Server.GEMINI_API_KEY E) as [[|k0 apiKey]|] eqn:Hkey.
  1,3: cbn [fst Server.status Server.json]; split;
    [right; eexists; split; [by right; right|]; split; [reflexivity|];
     destruct (missing_key_message E) as [Hne _];
     destruct (message (Server.missing_key E)); [by destruct Hne|discriminate]
    |split; [discriminate|]; intros (_ & (c & k & [=]) & _)].
  destruct req as [method [|[[[|c combinedPrompt]|]]]];
    cbn [Server.body Server.combinedPrompt Server.method] in *.
  1,2,4: cbn [fst Server.status Server.json is_empty message]; split;
    [right; eexists; split; [|split; [reflexivity|literal_nonempty]]; auto
    |split; [discriminate|]; intros (_ & _ & (? & ? & ? & ? & ? & [=] & _))].
  destruct (Server.generateContent K ((c :: combinedPrompt) ++ instructions))
    as [text|error] eqn:Hgen.
  2:{ cbn [fst Server.status Server.json]. split.
      - right. eexists. split; [by right; right|]. split; [reflexivity|].
        destruct (message error); [literal_nonempty|discriminate].
      - split; [discriminate|].
        intros (_ & _ & (? & ? & ? & ? & ? & [= <- <-] & Hg & _)). congruence. }
  destruct (Server.json_block text) as [[|j0 jsonString]|] eqn:Hblock.
  1,3: cbn [fst Server.status Server.json is_empty message]; split;
    [right; eexists; split; [by right; right|]; split; [reflexivity|literal_nonempty]
    |split; [discriminate|];
     intros (_ & _ & (? & ? & ? & ? & ? & [= <- <-] & Hg & Hb & Hj & _));
     rewrite Hgen in Hg; injection Hg as <-; congruence].
  destruct (Server.JSON_parse K (j0 :: jsonString)) as [jobs|parseError] eqn:Hparse;
    cbn [fst Server.status Server.json].
  - split; [left; by exists jobs|]. split; [|done]. intros _.
    split; [exact Hm|]. split; [by exists k0, apiKey|].
    exists c, combinedPrompt, text, (j0 :: jsonString), jobs. done.
  - split.
    + right. eexists. split; [by right; right|]. split; [reflexivity|literal_nonempty].
    + split; [discriminate|].
      intros (_ & _ & (? & ? & ? & ? & ? & [= <- <-] & Hg & Hb & Hj & Hp & _)).
      rewrite Hgen in Hg; injection Hg as <-. rewrite Hblock in Hb. injection Hb as <-.
      congruence.
Qed.

(** X4.  [/api/insights] answers in the same way: 200 with the parsed
    value as [insights], or 405, 400 or 500 with an [error] message that is
    not empty; 200 exactly when the request is a POST, the key is set, the
    body has search parameters, the model answers the prompt with a text
    that holds a [json] block in the strict form whose interior is not
    empty, and [JSON.parse] accepts the interior. *)
Theorem insights_handler_answers E K (req : Server.request Server.insights_fields) :
  let r := fst (Server.insights_handler E K req) in
  ((∃ insights, Server.status r = 200 ∧ Server.json r = Server.InsightsBody insights)
   ∨ (∃ error, (Server.status r = 405 ∨ Server.status r = 400 ∨ Server.status r = 500)
               ∧ Server.json r = Server.ErrorBody error ∧ error ≠ []))
  ∧ (Server.status r = 200
     ↔ Server.method req = utf16 "POST"
       ∧ key_set E
       ∧ ∃ searchParams jobResultsCount rawText jsonString insights,
           Server.body req
           = Server.Object {| Server.searchParams := Some searchParams;
                              Server.jobResultsCount := jobResultsCount |}
           ∧ Server.generateContent K (Server.insightsPrompt searchParams jobResultsCount)
             = Normal rawText
           ∧ Server.json_block rawText = Some jsonString ∧ jsonString ≠ []
           ∧ Server.JSON_parse K jsonString = Normal insights
           ∧ Server.json r = Server.InsightsBody insights).
Proof.
  cbv zeta. unfold Server.insights_handler, key_set.
  destruct (same (Server.method req) (utf16 "POST")) eqn:Hm; cbn [negb fst];
    [apply same_eq in Hm|
     assert (Server.method req ≠ utf16 "POST") as Hne
       by (intros H; apply same_eq in H; congruence)].
  2:{ cbn [Server.status Server.json]. split.
      - right. eexists. split; [by left|]. split; [reflexivity|literal_nonempty].
      - split; [discriminate|]. intros [H _]. by destruct Hne. }
  destruct (Server.GEMINI_API_KEY E) as [[|k0 apiKey]|] eqn:Hkey.
  1,3: cbn [fst Server.status Server.json]; split;
    [right; eexists; split; [by right; right|]; split; [reflexivity|];
     destruct (missing_key_message E) as [Hne _];
     destruct (message (Server.missing_key E)); [by destruct Hne|discriminate]
    |split; [discriminate|]; intros (_ & (c & k & [=]) & _)].
  destruct req as [method [|[[searchParams|] jobResultsCount]]];
    cbn [Server.body Server.searchParams Server.jobResultsCount Server.method] in *.
  1,3: cbn [fst Server.status Server.json is_empty message]; split;
    [right; eexists; split; [|split; [reflexivity|literal_nonempty]]; auto
    |split; [discriminate|]; intros (_ & _ & (? & ? & ? & ? & ? & [=] & _))].
  destruct (Server.generateContent K (Server.insightsPrompt searchParams jobResultsCount))
    as [text|error] eqn:Hgen.
  2:{ cbn [fst Server.status Server.json]. split.
      - right. eexists. split; [by right; right|]. split; [reflexivity|].
        destruct (message error); [literal_nonempty|discriminate].
      - split; [discriminate|].
        intros (_ & _ & (? & ? & ? & ? & ? & [= <- <-] & Hg & _)). congruence. }
  destruct (Server.json_block text) as [[|j0 jsonString]|] eqn:Hblock.
  1,3: cbn [fst Server.status Server.json is_empty message]; split;
    [right; eexists; split; [by right; right|]; split; [reflexivity|literal_nonempty]
    |split; [discriminate|];
     intros (_ & _ & (? & ? & ? & ? & ? & [= <- <-] & Hg & Hb & Hj & _));
     rewrite Hgen in Hg; injection Hg as <-; congruence].
  destruct (Server.JSON_parse K (j0 :: jsonString)) as [insights|parseError] eqn:Hparse;
    cbn [fst Server.status Server.json].
  - split; [left; by exists insights|]. split; [|done]. intros _.
    split; [exact Hm|]. split; [by exists k0, apiKey|].
    exists searchParams, jobResultsCount, text, (j0 :: jsonString), insights. done.
  - split.
    + right. eexists. split; [by right; right|]. split; [reflexivity|literal_nonempty].
    + split; [discriminate|].
      intros (_ & _ & (? & ? & ? & ? & ? & [= <- <-] & Hg & Hb & Hj & Hp & _)).
      rewrite Hgen in Hg; injection Hg as <-. rewrite Hblock in Hb. injection Hb as <-.
      congruence.
Qed.

Lemma generated_app e1 e2 : generated (e1 ++ e2) = generated e1 ++ generated e2.
Proof. apply omap_app. Qed.


End HandlerFacts.

(** ** The serverless-backed search, from the reply to the screen *)

(** The job-listing stage on a response whose body could be parsed. *)
Lemma app_stage_on_reply combinedPrompt net code data :
  net 0%nat = Responded code (Normal data) →
  let stage := run (App.fetchStructuredJobData combinedPrompt) tt net in
  fst stage
  = (if (200 <=? code) && (code <=? 299) then Normal data
     else match App.error_or data (utf16 "HTTP error! status: " ++ decimal code) with
          | Normal msg => Throw (Error msg)
          | Throw e => Throw e
          end)
  ∧ network (snd stage) = (fun i => net (S i))
  ∧ fetched_urls (trace (snd stage)) = [utf16 "/api/search"].
Proof.
  intros Hnet. cbv zeta. split; [|split; [|apply app_stage_one_call]].
  - unfold App.fetchStructuredJobData, fetch. js_unfold. rewrite Hnet.
    cbn [fst snd ui trace network status json]. unfold ok. cbn [status].
    destruct ((200 <=? code) && (code <=? 299)); cbn [negb]; [reflexivity|].
    destruct (App.error_or _ _); reflexivity.
  - unfold App.fetchStructuredJobData, fetch. js_unfold. rewrite Hnet.
    cbn [fst snd ui trace network status json]. unfold ok. cbn [status].
    destruct ((200 <=? code) && (code <=? 299)); cbn [negb]; [reflexivity|].
    destruct (App.error_or _ _); reflexivity.
Qed.

(** The insights request, from any point of a run. *)
Lemma app_insights_on_reply searchParams jobResults (m : machine App.data unit) :
  let r := App.fetchAIInsights searchParams jobResults false m in
  fst r = insights_reply (network m 0%nat)
  ∧ fetched_urls (trace (snd r)) = fetched_urls (trace m) ++ [utf16 "/api/insights"].
Proof.
  cbv zeta. unfold App.fetchAIInsights, fetch, insights_reply. js_unfold.
  destruct (network m 0%nat) as [reason|code [data|e]];
    cbn [fst snd ui trace network status json].
  - split; [reflexivity|]. unfold fetched_urls. by rewrite omap_app.
  - unfold ok. cbn [status].
    destruct ((200 <=? code) && (code <=? 299)); cbn [negb].
    + destruct (App.insights_of data); cbn [fst snd ui trace network];
        (split; [reflexivity|]); unfold fetched_urls; by rewrite omap_app.
    + destruct (App.error_or _ _); cbn [fst snd ui trace network];
        (split; [reflexivity|]); unfold fetched_urls; by rewrite omap_app.
  - split; [reflexivity|]. unfold fetched_urls. by rewrite omap_app.
Qed.

(** The search with the testing switch off, on a stage that gave an array
    that is not empty. *)
Lemma app_on_array (s : App.state) net stage r job rest :
  App.useFallbackForTesting s = false →
  stage = run (App.fetchStructuredJobData (App.combinedPrompt_of (App.searchParams s))) tt net →
  r = run App.handleSearch s net →
  fst stage = Normal (App.DArray (job :: rest)) →
  match map_withStringId 0 (job :: rest) with
  | Throw e =>
      fst r = Throw e
      ∧ App.isSearching (ui (snd r)) = true
      ∧ App.jobs (ui (snd r)) = []
      ∧ trace (snd r) = trace (snd stage)
  | Normal finalJobs =>
      let insights :=
        App.fetchAIInsights (App.searchParams s) finalJobs false
          {| ui := tt; trace := trace (snd stage); network := network (snd stage) |} in
      fst r = Normal tt
      ∧ App.jobs (ui (snd r)) = finalJobs
      ∧ App.isFallbackMode (ui (snd r)) = false
      ∧ App.searchError (ui (snd r)) = []
      ∧ App.feedback (ui (snd r)) = ∅
      ∧ App.isSearching (ui (snd r)) = false
      ∧ App.searchProgress (ui (snd r)) = []
      ∧ App.aiInsights (ui (snd r)) = insights_shown (fst insights)
      ∧ fetched_urls (trace (snd r)) = fetched_urls (trace (snd insights))
  end.
Proof.
  intros Hoff -> -> Hstage.
  unfold App.handleSearch. js_unfold. rewrite Hoff.
  unfold run in Hstage.
  destruct (App.fetchStructuredJobData _ _) as [res m1].
  cbn [fst] in Hstage. subst res. cbn [fst snd ui trace network].
  destruct job as [job|]; [|cbn [map_withStringId fst snd ui]; app_ui; repeat split].
  cbn [map_withStringId].
  destruct (map_withStringId 1 rest) as [final|e];
    cbn [fst snd ui trace network length Nat.ltb Nat.leb];
    [|app_ui; repeat split].
  unfold App.generateAIInsights. js_unfold.
  destruct (App.fetchAIInsights _ _ _ _) as [[v|e] m2];
    cbn [fst snd ui trace network insights_shown]; app_ui.
  - repeat split.
  - repeat split. unfold fetched_urls. rewrite omap_app. apply app_nil_r.
Qed.

Lemma map_withStringId_null index items :
  None ∈ items →
  map_withStringId index items
  = Throw (Error (utf16 "Cannot read properties of null (reading 'id')")).
Proof.
  revert index. induction items as [|[job|] items IH]; intros index Hin.
  - by apply elem_of_nil in Hin.
  - apply elem_of_cons in Hin as [Hin|Hin]; [discriminate Hin|].
    cbn [map_withStringId]. by rewrite IH.
  - reflexivity.
Qed.

Lemma app_live_aux (s : App.state) net code job rest stage r :
  App.useFallbackForTesting s = false →
  stage = run (App.fetchStructuredJobData (App.combinedPrompt_of (App.searchParams s))) tt net →
  r = run App.handleSearch s net →
  net 0%nat = Responded code (Normal (App.DArray (map Some (job :: rest)))) →
  (200 <=? code) && (code <=? 299) = true →
  fst r = Normal tt
  ∧ App.jobs (ui (snd r)) = stringified (job :: rest)
  ∧ App.isFallbackMode (ui (snd r)) = false
  ∧ App.searchError (ui (snd r)) = []
  ∧ App.feedback (ui (snd r)) = ∅
  ∧ App.isSearching (ui (snd r)) = false
  ∧ App.searchProgress (ui (snd r)) = []
  ∧ App.aiInsights (ui (snd r)) = insights_shown (insights_reply (net 1%nat))
  ∧ fetched_urls (trace (snd r)) = [utf16 "/api/search"; utf16 "/api/insights"].
Proof.
  intros Hoff Hstage Hrun Hnet Hok.
  destruct (app_stage_on_reply (App.combinedPrompt_of (App.searchParams s)) net code _ Hnet)
    as (Hfst & Hnetwork & Hurls).
  cbv zeta in Hfst, Hnetwork, Hurls. rewrite <- Hstage in Hfst, Hnetwork, Hurls.
  rewrite Hok in Hfst. cbn [map] in Hfst.
  pose proof (app_on_array s net stage r (Some job) (map Some rest) Hoff Hstage Hrun Hfst)
    as Hlive.
  clear Hstage Hrun.
  change (Some job :: map Some rest) with (map Some (job :: rest)) in Hlive.
  rewrite map_withStringId_some in Hlive. cbv zeta in Hlive.
  destruct (app_insights_on_reply (App.searchParams s) (stringified (job :: rest))
              {| ui := tt; trace := trace (snd stage); network := network (snd stage) |})
    as (Hins & Hurls').
  cbv zeta in Hins, Hurls'. cbn [network trace] in Hins, Hurls'.
  rewrite Hnetwork in Hins, Hurls', Hlive. rewrite Hurls in Hurls'.
  destruct Hlive as (H1 & H2 & H3 & H4 & H5 & H6 & H7 & H8 & H9).
  rewrite Hins in H8. rewrite Hurls' in H9.
  split; [exact H1|]. split; [exact H2|]. split; [exact H3|]. split; [exact H4|].
  split; [exact H5|]. split; [exact H6|]. split; [exact H7|]. split; [exact H8|exact H9].
Qed.



(** ** The client against its endpoint *)

Lemma posted_prompt_method combinedPrompt :
  same (Server.method (posted_prompt combinedPrompt)) (utf16 "POST") = true.
Proof. vm_compute. reflexivity. Qed.

Lemma App_combinedPrompt_head searchParams :
  is_empty (App.combinedPrompt_of searchParams) = false.
Proof. reflexivity. Qed.

Lemma App_combinedPrompt_cons searchParams :
  ∃ c p, App.combinedPrompt_of searchParams = c :: p.
Proof.
  pose proof (App_combinedPrompt_head searchParams) as Hh.
  destruct (App.combinedPrompt_of searchParams) as [|c p]; [discriminate Hh|eauto].
Qed.

(** What the endpoint answers to the client when the key is not set. *)
Lemma search_handler_without_key googleSearch instructions E (K : Server.sdk App.data)
    combinedPrompt :
  Server.GEMINI_API_KEY E = None ∨ Server.GEMINI_API_KEY E = Some [] →
  Server.search_handler googleSearch instructions E K (posted_prompt combinedPrompt)
  = ({| Server.status := 500;
        Server.json := Server.ErrorBody (message (Server.missing_key E)) |},
     [Server.ConsoleError
        [CStr (utf16 "Error in /api/search:"); CError (Server.missing_key E)]]).
Proof.
  intros Hkey. unfold Server.search_handler. rewrite posted_prompt_method. cbn [negb].
  destruct (missing_key_message E) as [Hne _].
  destruct Hkey as [-> | ->];
    (destruct (message (Server.missing_key E)); [by destruct Hne|reflexivity]).
Qed.

(** What the endpoint answers when the model keeps to the strict form. *)
Lemma search_handler_on_block googleSearch instructions E (K : Server.sdk App.data)
    k0 apiKey c combinedPrompt text j0 jsonString jobs :
  Server.GEMINI_API_KEY E = Some (k0 :: apiKey) →
  Server.generateContent K ((c :: combinedPrompt) ++ instructions) = Normal text →
  Server.json_block text = Some (j0 :: jsonString) →
  Server.JSON_parse K (j0 :: jsonString) = Normal jobs →
  Server.search_handler googleSearch instructions E K (posted_prompt (c :: combinedPrompt))
  = ({| Server.status := 200; Server.json := Server.Parsed jobs |},
     [Server.Generate (k0 :: apiKey) googleSearch ((c :: combinedPrompt) ++ instructions)]).
Proof.
  intros Hkey Hgen Hblock Hparse.
  unfold Server.search_handler. rewrite posted_prompt_method. cbn [negb].
  rewrite Hkey. cbn [Server.body posted_prompt Server.combinedPrompt].
  rewrite Hgen, Hblock, Hparse. reflexivity.
Qed.

Lemma missing_key_aux googleSearch instructions E (K : Server.sdk App.data)
    (s : App.state) net stage r :
  App.useFallbackForTesting s = false →
  stage = run (App.fetchStructuredJobData (App.combinedPrompt_of (App.searchParams s))) tt net →
  r = run App.handleSearch s net →
  Server.GEMINI_API_KEY E = None ∨ Server.GEMINI_API_KEY E = Some [] →
  net 0%nat
  = received (fst (Server.search_handler googleSearch instructions E K
                     (posted_prompt (App.combinedPrompt_of (App.searchParams s))))) →
  fst r = Normal tt
  ∧ App.searchError (ui (snd r)) = App.configuration_error
  ∧ App.jobs (ui (snd r)) = []
  ∧ App.isFallbackMode (ui (snd r)) = false
  ∧ App.aiInsights (ui (snd r)) = App.null
  ∧ fetched_urls (trace (snd r)) = [utf16 "/api/search"].
Proof.
  intros Hoff Hstage Hrun Hkey Hnet.
  rewrite search_handler_without_key in Hnet by exact Hkey.
  unfold received in Hnet. cbn [fst Server.status Server.json] in Hnet.
  destruct (missing_key_message E) as [Hne Hinc].
  destruct (message (Server.missing_key E)) as [|m0 msg] eqn:Hmsg; [by destruct Hne|].
  cbn [is_empty] in Hnet.
  destruct (app_stage_on_reply (App.combinedPrompt_of (App.searchParams s)) net _ _ Hnet)
    as (Hfst & _ & Hurls).
  cbv zeta in Hfst, Hurls. rewrite <- Hstage in Hfst, Hurls.
  assert ((200 <=? 500) && (500 <=? 299) = false) as Hko by reflexivity.
  rewrite Hko in Hfst. cbn [App.error_or] in Hfst.
  destruct (app_on_error s net stage r _ Hoff Hstage Hrun Hfst)
    as (H1 & H2 & H3 & H4 & H5 & H6).
  cbn [message] in H4. rewrite Hinc in H4.
  rewrite H6, fetched_urls_console_r by (repeat constructor).
  split; [exact H1|]. split; [exact H4|]. split; [exact H2|]. split; [exact H3|].
  split; [exact H5|exact Hurls].
Qed.

(** X7.  When the key is not set on the server, in development or in
    production, the search of the client (testing switch off) ends with the
    configuration error on the screen, no listing, no fallback mark and no
    insights, after its one call of [/api/search]; the endpoint, in either
    revision, has answered without calling the model. *)
Theorem missing_key_reaches_the_user googleSearch instructions (E : Server.process_env)
    (K : Server.sdk App.data) (s : App.state) (net : nat → outcome App.data) :
  App.useFallbackForTesting s = false →
  Server.GEMINI_API_KEY E = None ∨ Server.GEMINI_API_KEY E = Some [] →
  let answer :=
    Server.search_handler googleSearch instructions E K
      (posted_prompt (App.combinedPrompt_of (App.searchParams s))) in
  net 0%nat = received (fst answer) →
  let r := run App.handleSearch s net in
  generated (snd answer) = []
  ∧ fst r = Normal tt
  ∧ App.searchError (ui (snd r)) = App.configuration_error
  ∧ App.jobs (ui (snd r)) = []
  ∧ App.isFallbackMode (ui (snd r)) = false
  ∧ App.aiInsights (ui (snd r)) = App.null
  ∧ fetched_urls (trace (snd r)) = [utf16 "/api/search"].
Proof.
  intros Hoff Hkey answer Hnet r. split.
  - subst answer. rewrite search_handler_without_key by exact Hkey. reflexivity.
  - exact (missing_key_aux googleSearch instructions E K s net _ _
             Hoff eq_refl eq_refl Hkey Hnet).
Qed.

Lemma missing_key_reaches_the_user_witness :
  let E := sample_process_env None in
  let K := sample_sdk "unused" App.DNull in
  let net := fun _ : nat =>
    received (fst (Server.handler E K
                     (posted_prompt (App.combinedPrompt_of
                                       (App.searchParams (sample_state false)))))) in
  App.useFallbackForTesting (sample_state false) = false
  ∧ App.searchError (ui (snd (run App.handleSearch (sample_state false) net)))
    = App.configuration_error.
Proof.
  cbv zeta. split; [reflexivity|].
  exact (proj1 (proj2 (proj2
    (missing_key_reaches_the_user false Server.instructions
       (sample_process_env None) (sample_sdk "unused" App.DNull) (sample_state false)
       (fun _ => received (fst (Server.handler (sample_process_env None)
                                  (sample_sdk "unused" App.DNull)
                                  (posted_prompt (App.combinedPrompt_of
                                     (App.searchParams (sample_state false)))))))
       eq_refl (or_introl eq_refl) eq_refl)))).
Defined.

Lemma end_to_end_aux googleSearch instructions E (K : Server.sdk App.data)
    (s : App.state) net k0 apiKey text j0 jsonString job rest stage r :
  App.useFallbackForTesting s = false →
  stage = run (App.fetchStructuredJobData (App.combinedPrompt_of (App.searchParams s))) tt net →
  r = run App.handleSearch s net →
  Server.GEMINI_API_KEY E = Some (k0 :: apiKey) →
  Server.generateContent K (App.combinedPrompt_of (App.searchParams s) ++ instructions)
  = Normal text →
  Server.json_block text = Some (j0 :: jsonString) →
  Server.JSON_parse K (j0 :: jsonString) = Normal (App.DArray (map Some (job :: rest))) →
  net 0%nat
  = received (fst (Server.search_handler googleSearch instructions E K
                     (posted_prompt (App.combinedPrompt_of (App.searchParams s))))) →
  generated (snd (Server.search_handler googleSearch instructions E K
                    (posted_prompt (App.combinedPrompt_of (App.searchParams s)))))
  = [(k0 :: apiKey, googleSearch,
      App.combinedPrompt_of (App.searchParams s) ++ instructions)]
  ∧ fst r = Normal tt
  ∧ App.jobs (ui (snd r)) = stringified (job :: rest)
  ∧ App.isFallbackMode (ui (snd r)) = false
  ∧ App.searchError (ui (snd r)) = []
  ∧ App.isSearching (ui (snd r)) = false.
Proof.
  intros Hoff Hstage Hrun Hkey Hgen Hblock Hparse Hnet.
  destruct (App_combinedPrompt_cons (App.searchParams s)) as (c & p & Hprompt).
  rewrite Hprompt in Hgen, Hnet |- *.
  rewrite (search_handler_on_block googleSearch instructions E K _ _ _ _ _ _ _ _
             Hkey Hgen Hblock Hparse) in Hnet |- *.
  unfold received in Hnet. cbn [fst snd Server.status Server.json] in Hnet |- *.
  split; [reflexivity|].
  destruct (app_live_aux s net 200 job rest stage r Hoff Hstage Hrun Hnet eq_refl)
    as (H1 & H2 & H3 & H4 & _ & H6 & _).
  split; [exact H1|]. split; [exact H2|]. split; [exact H3|]. split; [exact H4|exact H6].
Qed.

(** X8.  The whole path of a search.  When the key is set and the model
    answers the prompt of the client, followed by the instructions of the
    endpoint, with a text whose first [json] block in the strict form has
    an interior that [JSON.parse] reads as an array of listings that is not
    empty, the client (testing switch off) shows exactly those listings,
    with their ids as strings, no fallback mark and no error; the model has
    been called once, with the key of the environment. *)
Theorem search_end_to_end googleSearch instructions (E : Server.process_env)
    (K : Server.sdk App.data) (s : App.state) (net : nat → outcome App.data)
    (apiKey text jsonString : jsstring) (job : listing) (rest : list listing) :
  App.useFallbackForTesting s = false →
  Server.GEMINI_API_KEY E = Some apiKey →
  is_empty apiKey = false →
  Server.generateContent K (App.combinedPrompt_of (App.searchParams s) ++ instructions)
  = Normal text →
  Server.json_block text = Some jsonString →
  is_empty jsonString = false →
  Server.JSON_parse K jsonString = Normal (App.DArray (map Some (job :: rest))) →
  let answer :=
    Server.search_handler googleSearch instructions E K
      (posted_prompt (App.combinedPrompt_of (App.searchParams s))) in
  net 0%nat = received (fst answer) →
  let r := run App.handleSearch s net in
  generated (snd answer)
  = [(apiKey, googleSearch, App.combinedPrompt_of (App.searchParams s) ++ instructions)]
  ∧ fst r = Normal tt
  ∧ App.jobs (ui (snd r)) = stringified (job :: rest)
  ∧ App.isFallbackMode (ui (snd r)) = false
  ∧ App.searchError (ui (snd r)) = []
  ∧ App.isSearching (ui (snd r)) = false.
Proof.
  intros Hoff Hkey Hset Hgen Hblock Hin Hparse answer Hnet r.
  destruct apiKey as [|k0 apiKey]; [discriminate Hset|].
  destruct jsonString as [|j0 jsonString]; [discriminate Hin|].
  exact (end_to_end_aux googleSearch instructions E K s net k0 apiKey text j0 jsonString
           job rest _ _ Hoff eq_refl eq_refl Hkey Hgen Hblock Hparse Hnet).
Qed.

Lemma search_end_to_end_witness :
  let E := sample_process_env (Some "AIza-sample-key") in
  let K := sample_sdk ("Here you are:" +:+ lf +:+ "```json" +:+ lf +:+ "[1]" +:+ lf +:+ "```")
                      (App.DArray [Some (sample_listing 1)]) in
  let net := fun _ : nat =>
    received (fst (Server.search_handler true Server.grounded_instructions E K
                     (posted_prompt (App.combinedPrompt_of
                                       (App.searchParams (sample_state false)))))) in
  Server.json_block (utf16 ("Here you are:" +:+ lf +:+ "```json" +:+ lf +:+ "[1]" +:+ lf +:+ "```"))
  = Some (utf16 "[1]")
  ∧ App.jobs (ui (snd (run App.handleSearch (sample_state false) net)))
    = stringified [sample_listing 1].
Proof.
  cbv zeta. split; [vm_compute; reflexivity|].
  refine (proj1 (proj2 (proj2
    (search_end_to_end true Server.grounded_instructions
       (sample_process_env (Some "AIza-sample-key"))
       (sample_sdk ("Here you are:" +:+ lf +:+ "```json" +:+ lf +:+ "[1]" +:+ lf +:+ "```")
                   (App.DArray [Some (sample_listing 1)]))
       (sample_state false) _
       (utf16 "AIza-sample-key")
       (utf16 ("Here you are:" +:+ lf +:+ "```json" +:+ lf +:+ "[1]" +:+ lf +:+ "```"))
       (utf16 "[1]") (sample_listing 1) []
       _ _ _ _ _ _ _ _)))).
  - reflexivity.
  - reflexivity.
  - vm_compute; reflexivity.
  - reflexivity.
  - vm_compute; reflexivity.
  - vm_compute; reflexivity.
  - reflexivity.
  - reflexivity.
Defined.

(** ** A search that is rejected *)

Lemma app_null_aux (s : App.state) net code items stage r :
  App.useFallbackForTesting s = false →
  stage = run (App.fetchStructuredJobData (App.combinedPrompt_of (App.searchParams s))) tt net →
  r = run App.handleSearch s net →
  net 0%nat = Responded code (Normal (App.DArray items)) →
  (200 <=? code) && (code <=? 299) = true →
  None ∈ items →
  fst r = Throw (Error (utf16 "Cannot read properties of null (reading 'id')"))
  ∧ App.isSearching (ui (snd r)) = true
  ∧ App.jobs (ui (snd r)) = []
  ∧ fetched_urls (trace (snd r)) = [utf16 "/api/search"].
Proof.
  intros Hoff Hstage Hrun Hnet Hok Hin.
  destruct (app_stage_on_reply (App.combinedPrompt_of (App.searchParams s)) net code _ Hnet)
    as (Hfst & _ & Hurls).
  cbv zeta in Hfst, Hurls. rewrite <- Hstage in Hfst, Hurls.
  rewrite Hok in Hfst.
  destruct items as [|job rest]; [by apply elem_of_nil in Hin|].
  pose proof (app_on_array s net stage r job rest Hoff Hstage Hrun Hfst) as Hlive.
  rewrite (map_withStringId_null 0 (job :: rest) Hin) in Hlive.
  destruct Hlive as (H1 & H2 & H3 & H4). rewrite H4.
  split; [exact H1|]. split; [exact H2|]. split; [exact H3|exact Hurls].
Qed.

(** The insights of the direct-API client are never the empty text. *)
Lemma simulated_analysis_nonempty : is_empty simulated_analysis = false.
Proof. vm_compute. reflexivity. Qed.

Lemma legacy_insights_nonempty E searchParams jobResults isFallback
    (m : machine Legacy.envelope unit) v :
  fst (Legacy.fetchAIInsights E searchParams jobResults isFallback m) = Normal v →
  is_empty v = false.
Proof.
  unfold Legacy.fetchAIInsights. destruct isFallback.
  - unfold ret. cbn [fst]. intros [= <-]. exact simulated_analysis_nonempty.
  - rewrite userQuery_nonempty. js_unfold.
    destruct (Legacy.insights_loop _ _ _ _) as [[[[|[[|c t]|]]|]|e] m1];
      cbn [fst]; intros [= <-]; reflexivity.
Qed.

(** [generateAIInsights] never throws, and sets the insights and nothing
    else of the state. *)
Lemma legacy_generateAIInsights_total E searchParams jobResults isFallback
    (m : machine Legacy.envelope Legacy.state) :
  ∃ v m',
    Legacy.generateAIInsights E searchParams jobResults isFallback m = (Normal tt, m')
    ∧ ui m' = Legacy.with_aiInsights v (ui m)
    ∧ is_empty v = false.
Proof.
  unfold Legacy.generateAIInsights. js_unfold.
  destruct (Legacy.fetchAIInsights E _ _ _ _) as [[v|e] m2] eqn:Hf;
    cbn [fst snd ui trace network].
  - eexists _, _. split; [reflexivity|]. split; [reflexivity|].
    eapply legacy_insights_nonempty. rewrite Hf. reflexivity.
  - eexists _, _. split; [reflexivity|]. split; [reflexivity|]. reflexivity.
Qed.

Lemma legacy_generateAIInsights_spec E searchParams jobResults isFallback
    (m : machine Legacy.envelope Legacy.state) res m' :
  Legacy.generateAIInsights E searchParams jobResults isFallback m = (res, m') →
  res = Normal tt
  ∧ ∃ v, ui m' = Legacy.with_aiInsights v (ui m) ∧ is_empty v = false.
Proof.
  intros H.
  destruct (legacy_generateAIInsights_total E searchParams jobResults isFallback m)
    as (v & m2 & H2 & Hui & Hv).
  rewrite H in H2. injection H2 as -> ->. eauto.
Qed.

Lemma app_generateAIInsights_total searchParams jobResults isFallback
    (m : machine App.data App.state) :
  ∃ v m',
    App.generateAIInsights searchParams jobResults isFallback m = (Normal tt, m')
    ∧ ui m' = App.with_aiInsights v (ui m).
Proof.
  unfold App.generateAIInsights. js_unfold.
  destruct (App.fetchAIInsights _ _ _ _) as [[v|e] m2];
    cbn [fst snd ui trace network]; eexists _, _; split; reflexivity.
Qed.

(** The direct-API search on a stage that gave an array that is not
    empty. *)
Lemma legacy_live_edge E (s : Legacy.state) net :
  let stage :=
    run (Legacy.fetchStructuredJobData E (Legacy.combinedPrompt_of (Legacy.searchParams s)))
        tt net in
  let r := run (Legacy.handleSearch E) s net in
  match fst stage with
  | Normal (Legacy.IsArray (job :: rest)) =>
      match map_withStringId 0 (job :: rest) with
      | Throw e =>
          fst r = Throw e
          ∧ Legacy.isSearching (ui (snd r)) = true
          ∧ Legacy.jobs (ui (snd r)) = []
          ∧ trace (snd r) = trace (snd stage)
      | Normal finalJobs =>
          fst r = Normal tt
          ∧ Legacy.jobs (ui (snd r)) = finalJobs
          ∧ Legacy.isFallbackMode (ui (snd r)) = false
          ∧ Legacy.searchError (ui (snd r)) = []
          ∧ Legacy.feedback (ui (snd r)) = ∅
          ∧ Legacy.isSearching (ui (snd r)) = false
          ∧ Legacy.searchProgress (ui (snd r)) = []
          ∧ is_empty (Legacy.aiInsights (ui (snd r))) = false
      end
  | _ => True
  end.
Proof.
  intros stage r. subst stage r.
  unfold Legacy.handleSearch. js_unfold.
  destruct (Legacy.fetchStructuredJobData E _ _) as [[[[|job rest]|]|e] m1];
    cbn [fst snd ui trace network]; [exact I| |exact I|exact I].
  destruct (map_withStringId 0 (job :: rest)) as [finalJobs|e];
    cbn [fst snd ui trace network]; [|legacy_ui; repeat split].
  destruct (Legacy.generateAIInsights E _ _ _ _) as [res m'] eqn:Hg.
  apply legacy_generateAIInsights_spec in Hg as (-> & v & Hui & Hv).
  cbn [fst snd ui trace network]. rewrite Hui. clear Hui.
  legacy_ui. repeat split. exact Hv.
Qed.

Lemma legacy_on_array E (s : Legacy.state) net stage r job rest :
  stage = run (Legacy.fetchStructuredJobData E (Legacy.combinedPrompt_of (Legacy.searchParams s))) tt net →
  r = run (Legacy.handleSearch E) s net →
  fst stage = Normal (Legacy.IsArray (job :: rest)) →
  match map_withStringId 0 (job :: rest) with
  | Throw e =>
      fst r = Throw e
      ∧ Legacy.isSearching (ui (snd r)) = true
      ∧ Legacy.jobs (ui (snd r)) = []
      ∧ trace (snd r) = trace (snd stage)
  | Normal finalJobs =>
      fst r = Normal tt
      ∧ Legacy.jobs (ui (snd r)) = finalJobs
      ∧ Legacy.isFallbackMode (ui (snd r)) = false
      ∧ Legacy.searchError (ui (snd r)) = []
      ∧ Legacy.feedback (ui (snd r)) = ∅
      ∧ Legacy.isSearching (ui (snd r)) = false
      ∧ Legacy.searchProgress (ui (snd r)) = []
      ∧ is_empty (Legacy.aiInsights (ui (snd r))) = false
  end.
Proof.
  intros Hstage Hrun He. pose proof (legacy_live_edge E s net) as Hedge.
  cbv zeta in Hedge. rewrite <- Hstage, <- Hrun in Hedge.
  rewrite He in Hedge. exact Hedge.
Qed.

(** X9.  A listing that is [null] in the array of a 2xx response makes the
    search of the serverless-backed client reject with a TypeError: no
    listing is shown, and the component is left searching, since the line
    that ends the search is never reached. *)
Theorem null_listing_rejects_the_search (s : App.state) (net : nat → outcome App.data)
    (code : N) (before after : list (option listing)) :
  App.useFallbackForTesting s = false →
  net 0%nat = Responded code (Normal (App.DArray (before ++ None :: after))) →
  (200 <=? code) && (code <=? 299) = true →
  let r := run App.handleSearch s net in
  fst r = Throw (Error (utf16 "Cannot read properties of null (reading 'id')"))
  ∧ App.isSearching (ui (snd r)) = true
  ∧ App.jobs (ui (snd r)) = []
  ∧ fetched_urls (trace (snd r)) = [utf16 "/api/search"].
Proof.
  intros Hoff Hnet Hok.
  refine (app_null_aux s net code _ _ _ Hoff eq_refl eq_refl Hnet Hok _).
  apply elem_of_app. right. apply list_elem_of_here.
Qed.

Lemma null_listing_rejects_the_search_witness :
  let net := fun _ : nat =>
    Responded 200 (Normal (App.DArray ([Some (sample_listing 1)] ++ None :: []))) in
  App.useFallbackForTesting (sample_state false) = false
  ∧ App.isSearching (ui (snd (run App.handleSearch (sample_state false) net))) = true.
Proof.
  cbv zeta. split; [reflexivity|].
  exact (proj1 (proj2
    (null_listing_rejects_the_search (sample_state false)
       (fun _ => Responded 200 (Normal (App.DArray ([Some (sample_listing 1)] ++ None :: []))))
       200 [Some (sample_listing 1)] [] eq_refl eq_refl eq_refl))).
Defined.

(** X10.  The same in the direct-API client, for an array with a [null]
    that its job-listing stage parsed: the search rejects, shows no listing
    (not even the fallback dataset) and is left searching. *)
Theorem legacy_null_listing_rejects_the_search (E : Legacy.env) (s : Legacy.state)
    (net : nat → outcome Legacy.envelope) (before after : list (option listing)) :
  let stage :=
    run (Legacy.fetchStructuredJobData E (Legacy.combinedPrompt_of (Legacy.searchParams s)))
        tt net in
  fst stage = Normal (Legacy.IsArray (before ++ None :: after)) →
  let r := run (Legacy.handleSearch E) s net in
  fst r = Throw (Error (utf16 "Cannot read properties of null (reading 'id')"))
  ∧ Legacy.isSearching (ui (snd r)) = true
  ∧ Legacy.jobs (ui (snd r)) = []
  ∧ trace (snd r) = trace (snd stage).
Proof.
  intros stage Hstage r.
  assert (None ∈ before ++ None :: after) as Hin
    by (apply elem_of_app; right; apply list_elem_of_here).
  destruct (before ++ None :: after) as [|job rest] eqn:Heq;
    [by apply elem_of_nil in Hin|].
  pose proof (legacy_on_array E s net stage r job rest eq_refl eq_refl Hstage) as Hlive.
  rewrite (map_withStringId_null 0 (job :: rest) Hin) in Hlive. exact Hlive.
Qed.

Lemma legacy_null_listing_rejects_the_search_witness :
  let E := sample_env_reading (Legacy.IsArray ([] ++ None :: [])) in
  fst (run (Legacy.fetchStructuredJobData E
              (Legacy.combinedPrompt_of (Legacy.searchParams sample_legacy_state)))
           tt (fun _ => replies "[null]"))
  = Normal (Legacy.IsArray ([] ++ None :: []))
  ∧ Legacy.isSearching
      (ui (snd (run (Legacy.handleSearch E) sample_legacy_state (fun _ => replies "[null]"))))
    = true.
Proof.
  cbv zeta. split; [vm_compute; reflexivity|].
  refine (proj1 (proj2
    (legacy_null_listing_rejects_the_search
       (sample_env_reading (Legacy.IsArray ([] ++ None :: []))) sample_legacy_state
       (fun _ => replies "[null]") [] [] _))).
  vm_compute; reflexivity.
Defined.

(** X11.  In the direct-API client, an array of listings that is not empty
    is what the search shows when its job-listing stage parsed it: the
    listings with their ids as strings, no fallback mark, no error, the
    feedback cleared, the progress line empty, the search over, and
    insights that are never the empty text, whatever becomes of the
    insights request. *)
Theorem legacy_live_search_shows_the_listings (E : Legacy.env) (s : Legacy.state)
    (net : nat → outcome Legacy.envelope) (job : listing) (rest : list listing) :
  let stage :=
    run (Legacy.fetchStructuredJobData E (Legacy.combinedPrompt_of (Legacy.searchParams s)))
        tt net in
  fst stage = Normal (Legacy.IsArray (map Some (job :: rest))) →
  let r := run (Legacy.handleSearch E) s net in
  fst r = Normal tt
  ∧ Legacy.jobs (ui (snd r)) = stringified (job :: rest)
  ∧ Legacy.isFallbackMode (ui (snd r)) = false
  ∧ Legacy.searchError (ui (snd r)) = []
  ∧ Legacy.feedback (ui (snd r)) = ∅
  ∧ Legacy.isSearching (ui (snd r)) = false
  ∧ Legacy.searchProgress (ui (snd r)) = []
  ∧ is_empty (Legacy.aiInsights (ui (snd r))) = false.
Proof.
  intros stage Hstage r.
  pose proof (legacy_on_array E s net stage r (Some job) (map Some rest)
                eq_refl eq_refl Hstage) as Hlive.
  change (Some job :: map Some rest) with (map Some (job :: rest)) in Hlive.
  rewrite map_withStringId_some in Hlive. exact Hlive.
Qed.

Lemma legacy_live_search_shows_the_listings_witness :
  let E := sample_env_reading (Legacy.IsArray (map Some [sample_listing 7])) in
  fst (run (Legacy.fetchStructuredJobData E
              (Legacy.combinedPrompt_of (Legacy.searchParams sample_legacy_state)))
           tt (fun _ => replies "[7]"))
  = Normal (Legacy.IsArray (map Some [sample_listing 7]))
  ∧ Legacy.jobs
      (ui (snd (run (Legacy.handleSearch E) sample_legacy_state (fun _ => replies "[7]"))))
    = stringified [sample_listing 7].
Proof.
  cbv zeta. split; [vm_compute; reflexivity|].
  refine (proj1 (proj2
    (legacy_live_search_shows_the_listings
       (sample_env_reading (Legacy.IsArray (map Some [sample_listing 7]))) sample_legacy_state
       (fun _ => replies "[7]") (sample_listing 7) [] _))).
  vm_compute; reflexivity.
Defined.

(** ** What a search leaves behind *)

Lemma app_generateAIInsights_spec searchParams jobResults isFallback
    (m : machine App.data App.state) res m' :
  App.generateAIInsights searchParams jobResults isFallback m = (res, m') →
  res = Normal tt ∧ ∃ v, ui m' = App.with_aiInsights v (ui m).
Proof.
  intros H.
  destruct (app_generateAIInsights_total searchParams jobResults isFallback m)
    as (v & m2 & H2 & Hui).
  rewrite H in H2. injection H2 as -> ->. eauto.
Qed.

Lemma app_handleSearch_settles (s : App.state) net :
  let r := run App.handleSearch s net in
  App.searchParams (ui (snd r)) = App.searchParams s
  ∧ App.showSettings (ui (snd r)) = App.showSettings s
  ∧ App.useFallbackForTesting (ui (snd r)) = App.useFallbackForTesting s
  ∧ match fst r with
    | Normal _ =>
        App.isSearching (ui (snd r)) = false ∧ App.searchProgress (ui (snd r)) = []
    | Throw _ =>
        App.isSearching (ui (snd r)) = true ∧ App.jobs (ui (snd r)) = []
    end.
Proof.
  intros r. subst r. unfold App.handleSearch. js_unfold.
  destruct (App.useFallbackForTesting s) eqn:Hswitch.
  - rewrite map_withStringId_some. cbn [fst snd ui trace network].
    destruct (App.generateAIInsights _ _ _ _) as [res m'] eqn:Hg.
    apply app_generateAIInsights_spec in Hg as (-> & v & Hui).
    cbn [fst snd ui trace network]. rewrite Hui. clear Hui.
    app_ui. repeat split. exact Hswitch.
  - destruct (App.fetchStructuredJobData _ _) as [[[|[|job rest]|]|e] m1];
      cbn [fst snd ui trace network].
    1,2,4: app_ui; repeat split; exact Hswitch.
    + destruct (map_withStringId 0 (job :: rest)) as [finalJobs|e] eqn:Hmap;
        cbn [fst snd ui trace network]; [|app_ui; repeat split; exact Hswitch].
      destruct (0 <? length finalJobs)%nat; cbn [fst snd ui trace network].
      * destruct (App.generateAIInsights _ _ _ _) as [res m'] eqn:Hg.
        apply app_generateAIInsights_spec in Hg as (-> & v & Hui).
        cbn [fst snd ui trace network]. rewrite Hui. clear Hui.
        app_ui. repeat split. exact Hswitch.
      * app_ui. repeat split. exact Hswitch.
    + destruct (includes (message e) (utf16 "GEMINI_API_KEY"));
        cbn [fst snd ui trace network]; app_ui; repeat split; exact Hswitch.
Qed.

Lemma legacy_handleSearch_settles E (s : Legacy.state) net :
  let r := run (Legacy.handleSearch E) s net in
  Legacy.searchParams (ui (snd r)) = Legacy.searchParams s
  ∧ Legacy.showSettings (ui (snd r)) = Legacy.showSettings s
  ∧ match fst r with
    | Normal _ =>
        Legacy.isSearching (ui (snd r)) = false ∧ Legacy.searchProgress (ui (snd r)) = []
    | Throw _ =>
        Legacy.isSearching (ui (snd r)) = true ∧ Legacy.jobs (ui (snd r)) = []
    end.
Proof.
  intros r. subst r. unfold Legacy.handleSearch. js_unfold.
  destruct (Legacy.fetchStructuredJobData E _ _) as [[[[|job rest]|]|e] m1];
    cbn [fst snd ui trace network].
  - rewrite map_withStringId_some. cbn [fst snd ui trace network].
    destruct (Legacy.generateAIInsights E _ _ _ _) as [res m'] eqn:Hg.
    apply legacy_generateAIInsights_spec in Hg as (-> & v & Hui & _).
    cbn [fst snd ui trace network]. rewrite Hui. clear Hui.
    legacy_ui. repeat split.
  - destruct (map_withStringId 0 (job :: rest)) as [finalJobs|e] eqn:Hmap;
      cbn [fst snd ui trace network]; [|legacy_ui; repeat split].
    destruct (Legacy.generateAIInsights E _ _ _ _) as [res m'] eqn:Hg.
    apply legacy_generateAIInsights_spec in Hg as (-> & v & Hui & _).
    cbn [fst snd ui trace network]. rewrite Hui. clear Hui.
    legacy_ui. repeat split.
  - rewrite map_withStringId_some. cbn [fst snd ui trace network].
    destruct (Legacy.generateAIInsights E _ _ _ _) as [res m'] eqn:Hg.
    apply legacy_generateAIInsights_spec in Hg as (-> & v & Hui & _).
    cbn [fst snd ui trace network]. rewrite Hui. clear Hui.
    legacy_ui. repeat split.
  - destruct (includes (message e) (utf16 "HTTP error! status: 401"));
      cbn [fst snd ui trace network];
      rewrite map_withStringId_some; cbn [fst snd ui trace network];
      (destruct (Legacy.generateAIInsights E _ _ _ _) as [res m'] eqn:Hg);
      apply legacy_generateAIInsights_spec in Hg as (-> & v & Hui & _);
      cbn [fst snd ui trace network]; rewrite Hui; clear Hui;
      legacy_ui; repeat split.
Qed.

(** ** Ids after post-processing *)

Section Ids.

(** The decimal digits are ASCII: [utf16] maps them one by one. *)
Lemma utf16_digits d :
  utf16 (NilEmpty.string_of_uint d)
  = map N_of_ascii (list_ascii_of_string (NilEmpty.string_of_uint d)).
Proof. induction d; cbn [NilEmpty.string_of_uint]; [reflexivity|..]; simpl; by f_equal. Qed.

Lemma N_of_ascii_inj a b : N_of_ascii a = N_of_ascii b → a = b.
Proof. intros H. by rewrite <- (ascii_N_embedding a), <- (ascii_N_embedding b), H. Qed.

Lemma list_ascii_of_string_inj s t :
  list_ascii_of_string s = list_ascii_of_string t → s = t.
Proof.
  intros H.
  by rewrite <- (string_of_list_ascii_of_string s), <- (string_of_list_ascii_of_string t), H.
Qed.

Lemma string_of_uint_inj d d' :
  NilEmpty.string_of_uint d = NilEmpty.string_of_uint d' → d = d'.
Proof.
  intros H. pose proof (NilEmpty.usu d) as Hd. rewrite H, NilEmpty.usu in Hd. congruence.
Qed.

(** [String(n)] tells the numbers apart. *)
Lemma decimal_inj n n' : decimal n = decimal n' → n = n'.
Proof.
  unfold decimal. rewrite !utf16_digits. intros H.
  apply DecimalN.Unsigned.to_uint_inj, string_of_uint_inj, list_ascii_of_string_inj.
  revert H. generalize (list_ascii_of_string (NilEmpty.string_of_uint (N.to_uint n))).
  generalize (list_ascii_of_string (NilEmpty.string_of_uint (N.to_uint n'))).
  intros l' l. revert l'. induction l as [|a l IH]; intros [|a' l'] H; try done.
  injection H as Ha Hl. f_equal; [by apply N_of_ascii_inj|by apply IH].
Qed.




Lemma stringified_lookup jobs i :
  stringified jobs !! i = (fun job => withStringId job i) <$> jobs !! i.
Proof. unfold stringified. apply list_lookup_imap. Qed.


Lemma keys_lookup jobs i : keys jobs !! i = (fun job => String_ (id job)) <$> jobs !! i.
Proof. unfold keys. apply list_lookup_fmap. Qed.

(** X13.  Listings that all came without a usable [id] (none, [null],
    [false], [0] or the empty string) get the keys ["fallback-job-0"],
    ["fallback-job-1"], ... by their place, and these keys are pairwise
    different. *)
Theorem synthetic_ids_are_distinct (jobs : list listing) :
  forallb (fun job => negb (truthy (id job))) jobs = true →
  keys (stringified jobs)
  = imap (fun index _ => utf16 "fallback-job-" ++ decimal (N.of_nat index)) jobs
  ∧ NoDup (keys (stringified jobs)).
Proof.
  intros Hall.
  assert (keys (stringified jobs)
          = imap (fun index _ => utf16 "fallback-job-" ++ decimal (N.of_nat index)) jobs)
    as Hkeys.
  { apply list_eq. intros i.
    rewrite keys_lookup, stringified_lookup, list_lookup_imap.
    destruct (jobs !! i) as [job|] eqn:Hjob; [|reflexivity].
    cbn [fmap option_fmap option_map]. f_equal.
    rewrite forallb_forall in Hall.
    assert (truthy (id job) = false) as Hfalsy.
    { apply negb_true_iff, Hall, list_elem_of_In. by eapply list_elem_of_lookup_2. }
    unfold withStringId. cbn [id String_]. by rewrite Hfalsy. }
  split; [exact Hkeys|]. rewrite Hkeys.
  apply NoDup_alt. intros i j x Hi Hj.
  rewrite list_lookup_imap in Hi, Hj.
  destruct (jobs !! i); [|discriminate Hi]. destruct (jobs !! j); [|discriminate Hj].
  cbn [fmap option_fmap option_map] in Hi, Hj.
  assert (utf16 "fallback-job-" ++ decimal (N.of_nat i)
          = utf16 "fallback-job-" ++ decimal (N.of_nat j)) as Heq by congruence.
  apply app_inv_head, decimal_inj in Heq. lia.
Qed.

Lemma synthetic_ids_are_distinct_witness :
  forallb (fun job => negb (truthy (id job)))
          [anonymous_listing "A"; anonymous_listing "B"] = true
  ∧ keys (stringified [anonymous_listing "A"; anonymous_listing "B"])
    = [utf16 "fallback-job-0"; utf16 "fallback-job-1"].
Proof.
  split; [reflexivity|].
  rewrite (proj1 (synthetic_ids_are_distinct
                    [anonymous_listing "A"; anonymous_listing "B"] eq_refl)).
  vm_compute. reflexivity.
Defined.

End Ids.

(** ** The direct-API requests *)

Lemma attempt_on_2xx code body :
  (200 <=? code) && (code <=? 299) = true →
  job_search_attempt (Responded code body) = body.
Proof.
  intros Hok. unfold job_search_attempt. rewrite Hok.
  destruct (N.eqb_spec code 401) as [->|_]; [discriminate Hok|reflexivity].
Qed.

(** X14.  A first response in the 2xx range ends the job search after that
    one attempt, without a wait, whatever its body: a body that is falsy
    or has no text gives an error and is not asked for again, and a text
    is handed to [extractJsonFromText] and then to [JSON.parse], whose
    value is the result, and whose error is replaced by a fixed one. *)
Theorem job_search_on_a_2xx_response (E : Legacy.env) (combinedPrompt : jsstring)
    (net : nat → outcome Legacy.envelope) (code : N) (body : Legacy.envelope) :
  is_empty combinedPrompt = false →
  net 0%nat = Responded code (Normal body) →
  (200 <=? code) && (code <=? 299) = true →
  let r := run (Legacy.fetchStructuredJobData E combinedPrompt) tt net in
  attempts (trace (snd r)) = 1%nat
  ∧ timeouts (trace (snd r)) = []
  ∧ fst r
    = match body with
      | Legacy.Falsy => Throw (Error (utf16 "API call failed after all retries."))
      | Legacy.Candidates None | Legacy.Candidates (Some []) =>
          Throw (Error (utf16 "API response was valid, but contained no content."))
      | Legacy.Candidates (Some rawText) =>
          match Legacy.JSON_parse E (Extractor.extractJsonFromText rawText) with
          | Normal parsed => Normal parsed
          | Throw _ =>
              Throw (Error (utf16 "Failed to parse structured job data: The AI returned improperly formatted data."))
          end
      end.
Proof.
  intros Hp Hnet Hok. destruct combinedPrompt as [|c p]; [discriminate Hp|]. clear Hp.
  cbv zeta. unfold Legacy.fetchStructuredJobData. cbn [is_empty]. js_unfold.
  unfold Legacy.maxRetries. rewrite job_search_loop_step. cbn [network].
  rewrite Hnet, (attempt_on_2xx _ _ Hok).
  unfold fetched, attempts, backoff, timeouts, Legacy.extractJsonFromText.
  cbn [fst snd ui trace network].
  destruct body as [|[[|c0 rawText]|]]; cbn [fst snd ui trace network app].
  1-2,4: repeat split.
  destruct (Legacy.JSON_parse E _); cbn [fst snd ui trace network app]; repeat split.
Qed.

Lemma job_search_on_a_2xx_response_witness :
  is_empty (utf16 "jobs in Vienna") = false
  ∧ fst (run (Legacy.fetchStructuredJobData sample_env (utf16 "jobs in Vienna")) tt
             (fun _ => Responded 204 (Normal (Legacy.Candidates None))))
    = Throw (Error (utf16 "API response was valid, but contained no content.")).
Proof.
  split; [reflexivity|].
  exact (proj2 (proj2
    (job_search_on_a_2xx_response sample_env (utf16 "jobs in Vienna")
       (fun _ => Responded 204 (Normal (Legacy.Candidates None)))
       204 (Legacy.Candidates None) eq_refl eq_refl eq_refl))).
Defined.

Lemma total_wait_doubling k :
  (k ≤ 4)%nat →
  foldr N.add 0 (doubling 0 k) = (2 ^ N.of_nat k - 1) * 1000
  ∧ foldr N.add 0 (doubling 0 k) ≤ 15000.
Proof.
  intros Hk. do 5 (destruct k as [|k]; [vm_compute; split; [reflexivity|discriminate]|]).
  lia.
Qed.

(** X15.  The time a request function of the direct-API client spends
    waiting between its attempts is [2 ^ (n - 1) - 1] seconds when it makes
    [n] attempts, and so never more than fifteen seconds. *)
Theorem backoff_is_bounded (E : Legacy.env) (net : nat → outcome Legacy.envelope)
    (combinedPrompt : jsstring) (searchParams : Criteria.t)
    (jobResults : list listing) :
  let search := run (Legacy.fetchStructuredJobData E combinedPrompt) tt net in
  let insights := run (Legacy.fetchAIInsights E searchParams jobResults false) tt net in
  (total_wait (trace (snd search))
   = (2 ^ N.of_nat (attempts (trace (snd search)) - 1) - 1) * 1000
   ∧ total_wait (trace (snd search)) ≤ 15000)
  ∧ (total_wait (trace (snd insights))
     = (2 ^ N.of_nat (attempts (trace (snd insights)) - 1) - 1) * 1000
     ∧ total_wait (trace (snd insights)) ≤ 15000).
Proof.
  intros search insights. split.
  - destruct combinedPrompt as [|c p].
    + subst search. rewrite fetchStructuredJobData_empty.
      cbn [fst snd trace]. vm_compute. split; [reflexivity|discriminate].
    + destruct (fetchStructuredJobData_spec E (c :: p) net ltac:(done))
        as (k & Hk & Hb & Ht & _).
      fold search in Hb, Ht. unfold total_wait, attempts. rewrite Hb, Ht.
      cbn [length]. rewrite length_doubling. replace (S k - 1)%nat with k by lia.
      by apply total_wait_doubling.
  - destruct (fetchAIInsights_spec E searchParams jobResults net)
      as (k & Hk & Hb & Ht & _).
    fold insights in Hb, Ht. unfold total_wait, attempts. rewrite Hb, Ht.
    cbn [length]. rewrite length_doubling. replace (S k - 1)%nat with k by lia.
    by apply total_wait_doubling.
Qed.

Lemma insights_attempt_on_401 body :
  insights_attempt (Responded 401 body) = Throw (Error (utf16 "HTTP error! status: 401")).
Proof. vm_compute. reflexivity. Qed.

(** X16.  The insights request has no test for a 401: it takes an
    unauthorized response for a failure like any other, asks again after
    1, 2, 4 and 8 seconds, and throws the error of the fifth attempt. *)
Theorem insights_request_retries_a_401 (E : Legacy.env) (searchParams : Criteria.t)
    (jobResults : list listing) (net : nat → outcome Legacy.envelope) :
  (∀ i, (i < 5)%nat → ∃ body, net i = Responded 401 body) →
  let r := run (Legacy.fetchAIInsights E searchParams jobResults false) tt net in
  attempts (trace (snd r)) = 5%nat
  ∧ timeouts (trace (snd r)) = [1000; 2000; 4000; 8000]
  ∧ fst r = Throw (Error (utf16 "HTTP error! status: 401")).
Proof.
  intros H401 r.
  destruct (fetchAIInsights_spec E searchParams jobResults net)
    as (k & Hk & Hb & Ht & _ & Hat & Herr).
  fold r in Hb, Ht, Herr. clearbody r.
  assert (k = 4%nat) as ->.
  { destruct (decide (k < 4)%nat) as [Hlt|]; [|lia].
    destruct (H401 k ltac:(lia)) as [body Hnet].
    specialize (Hat Hlt). rewrite Hnet, insights_attempt_on_401 in Hat.
    discriminate Hat. }
  destruct (H401 4%nat ltac:(lia)) as [body Hnet].
  rewrite Hnet, insights_attempt_on_401 in Herr.
  unfold attempts. rewrite Hb, Ht.
  split; [reflexivity|]. split; [reflexivity|]. exact (Herr _ eq_refl).
Qed.

Lemma insights_request_retries_a_401_witness :
  attempts (trace (snd (run (Legacy.fetchAIInsights sample_env sample_criteria [] false) tt
                            (fun _ => Responded 401 (Normal Legacy.Falsy))))) = 5%nat.
Proof.
  refine (proj1 (insights_request_retries_a_401 sample_env sample_criteria []
                   (fun _ => Responded 401 (Normal Legacy.Falsy)) _)).
  intros i _. eexists. reflexivity.
Defined.

(** X17.  Whatever the network answers, a search leaves the criteria, the
    settings panel and the testing switch as they were.  When it returns,
    the component is no longer searching and the progress line is empty;
    when it rejects, the component is left searching, with no listing. *)
Theorem handleSearch_settles (E : Legacy.env) (s : Legacy.state)
    (net : nat → outcome Legacy.envelope)
    (s' : App.state) (net' : nat → outcome App.data) :
  (let r := run (Legacy.handleSearch E) s net in
   Legacy.searchParams (ui (snd r)) = Legacy.searchParams s
   ∧ Legacy.showSettings (ui (snd r)) = Legacy.showSettings s
   ∧ match fst r with
     | Normal _ =>
         Legacy.isSearching (ui (snd r)) = false ∧ Legacy.searchProgress (ui (snd r)) = []
     | Throw _ =>
         Legacy.isSearching (ui (snd r)) = true ∧ Legacy.jobs (ui (snd r)) = []
     end)
  ∧ (let r := run App.handleSearch s' net' in
     App.searchParams (ui (snd r)) = App.searchParams s'
     ∧ App.showSettings (ui (snd r)) = App.showSettings s'
     ∧ App.useFallbackForTesting (ui (snd r)) = App.useFallbackForTesting s'
     ∧ match fst r with
       | Normal _ =>
           App.isSearching (ui (snd r)) = false ∧ App.searchProgress (ui (snd r)) = []
       | Throw _ =>
           App.isSearching (ui (snd r)) = true ∧ App.jobs (ui (snd r)) = []
       end).
Proof.
  split; [exact (legacy_handleSearch_settles E s net)|exact (app_handleSearch_settles s' net')].
Qed.

(** ** The settings panel *)

Lemma same_neq a b : same a b = false ↔ a ≠ b.
Proof.
  rewrite <- same_eq. destruct (same a b); split; try done.
Qed.

(** X18.  After a change of the checkbox of a job type, the box shows what
    the event said: the type is among the job types exactly when the box
    was ticked.  The boxes of the other types, the order of the other
    types and the other criteria stay as they were; unticking removes
    every occurrence of the type. *)
Theorem job_type_checkbox (type : jsstring) (checked : bool) (prev : Criteria.t) :
  let next := onJobTypeChange type checked prev in
  jobTypeChecked type next = checked
  ∧ (∀ other, other ≠ type → jobTypeChecked other next = jobTypeChecked other prev)
  ∧ List.filter (fun t => negb (same t type)) (Criteria.jobTypes next)
    = List.filter (fun t => negb (same t type)) (Criteria.jobTypes prev)
  ∧ (checked = false → type ∉ Criteria.jobTypes next)
  ∧ Criteria.location next = Criteria.location prev
  ∧ Criteria.keywords next = Criteria.keywords prev
  ∧ Criteria.excludeKeywords next = Criteria.excludeKeywords prev.
Proof.
  cbv zeta. unfold onJobTypeChange, jobTypeChecked.
  assert (∀ l, existsb (fun t => same t type)
                 (List.filter (fun t => negb (same t type)) l) = false) as Hgone.
  { induction l as [|t l IH]; [reflexivity|]. cbn [List.filter].
    destruct (same t type) eqn:Ht; cbn [negb]; [exact IH|].
    cbn [existsb]. by rewrite Ht, IH. }
  assert (∀ other l, other ≠ type →
            existsb (fun t => same t other)
              (List.filter (fun t => negb (same t type)) l)
            = existsb (fun t => same t other) l) as Hkept.
  { intros other l Hother. induction l as [|t l IH]; [reflexivity|]. cbn [List.filter existsb].
    destruct (same t type) eqn:Ht; cbn [negb existsb]; [|by rewrite IH].
    apply same_eq in Ht as ->.
    assert (same type other = false) as -> by (apply same_neq; congruence).
    exact IH. }
  assert (∀ l, List.filter (fun t => negb (same t type))
                 (List.filter (fun t => negb (same t type)) l)
               = List.filter (fun t => negb (same t type)) l) as Hidem.
  { induction l as [|t l IH]; [reflexivity|]. cbn [List.filter].
    destruct (same t type) eqn:Ht; cbn [negb List.filter]; [exact IH|].
    rewrite Ht. cbn [negb]. by rewrite IH. }
  destruct checked; cbn [Criteria.jobTypes Criteria.location Criteria.keywords
                         Criteria.excludeKeywords].
  - split; [|split; [|split; [|split; [discriminate|done]]]].
    + rewrite existsb_app. cbn [existsb]. rewrite same_refl. apply orb_true_r.
    + intros other Hother. rewrite existsb_app. cbn [existsb].
      assert (same type other = false) as -> by (apply same_neq; congruence).
      by rewrite !orb_false_r.
    + rewrite List.filter_app. cbn [List.filter]. rewrite same_refl. cbn [negb].
      apply app_nil_r.
  - split; [apply Hgone|]. split; [intros other; apply Hkept|].
    split; [apply Hidem|]. split; [|done].
    intros _ Hin%list_elem_of_In.
    assert (existsb (fun t => same t type)
              (List.filter (fun t => negb (same t type)) (Criteria.jobTypes prev)) = true)
      as Hex by (apply existsb_exists; exists type; split; [exact Hin|apply same_refl]).
    by rewrite Hgone in Hex.
Qed.

(** ** Feedback on two listings *)

(** X19.  Feedback on two listings whose ids print differently does not
    depend on the order of the two clicks. *)
Theorem feedback_commutes (prevFeedback : gmap jsstring jsstring)
    (job1 job2 : listing) (type1 type2 : jsstring) :
  same (String_ (id job1)) (String_ (id job2)) = false →
  handleFeedback job1 type1 (handleFeedback job2 type2 prevFeedback)
  = handleFeedback job2 type2 (handleFeedback job1 type1 prevFeedback).
Proof.
  intros Hne%same_neq. unfold handleFeedback.
  set (k1 := String_ (id job1)) in *. set (k2 := String_ (id job2)) in *.
  destruct (bool_decide (prevFeedback !! k1 = Some type1)) eqn:H1;
    destruct (bool_decide (prevFeedback !! k2 = Some type2)) eqn:H2;
    rewrite ?lookup_delete_ne, ?lookup_insert_ne by congruence;
    rewrite ?H1, ?H2.
  all: apply map_eq; intros k;
    destruct (decide (k = k1)) as [Hk1|Hk1], (decide (k = k2)) as [Hk2|Hk2];
    by simplify_map_eq.
Qed.

Lemma feedback_commutes_witness :
  same (String_ (id (sample_listing 1))) (String_ (id (sample_listing 2))) = false
  ∧ handleFeedback (sample_listing 1) (utf16 "positive")
      (handleFeedback (sample_listing 2) (utf16 "negative") ∅)
    = handleFeedback (sample_listing 2) (utf16 "negative")
        (handleFeedback (sample_listing 1) (utf16 "positive") ∅).
Proof.
  split; [reflexivity|].
  exact (feedback_commutes ∅ (sample_listing 1) (sample_listing 2)
           (utf16 "positive") (utf16 "negative") eq_refl).
Defined.

(** ** The two patterns on a reply in the strict form *)

Section StrictReply.
Import Extractor.

Lemma includes_occurs s p : includes s p = true ↔ occurs p s.
Proof.
  induction s as [|x s IH]; cbn [includes].
  - rewrite orb_false_r, startsWith_true. split.
    + intros [r Hr]. by exists [], r.
    + intros ([|??] & c & Heq); [by exists c|discriminate].
  - rewrite orb_true_iff, startsWith_true, IH. split.
    + intros [[r Hr]|Hocc]; [by exists [], r|by apply occurs_cons].
    + intros ([|y a] & c & Heq); [left; by exists c|].
      right. injection Heq as _ ->. by exists a, c.
Qed.

(** A text that starts with a fence before a line feed has come starts
    with that fence in its own part. *)
Lemma fence_before_line g rest :
  startsWith (g ++ 10 :: rest) fence = true → ∃ d, g = fence ++ d.
Proof.
  intros [r Hr]%startsWith_true.
  destruct g as [|a [|b [|c d]]]; try discriminate Hr.
  injection Hr as -> -> -> _. by exists d.
Qed.

Lemma leftmost_closing_line g post :
  ¬ occurs fence g → leftmost Server.closing_line g post.
Proof.
  induction g as [|x g IH]; intros Hno; [apply leftmost_nil|].
  apply leftmost_cons.
  - apply startsWith_false. intros [r Hr]. injection Hr as -> Hr.
    destruct (fence_before_line g (fence ++ post)) as [d ->].
    { apply startsWith_true. by exists r. }
    apply Hno. by exists [10], d.
  - apply IH. intros Hocc. by apply Hno, occurs_cons.
Qed.

Lemma leftmost_fence_line u c :
  ¬ occurs fence u → leftmost fence (u ++ [10]) c.
Proof.
  induction u as [|x u IH]; intros Hno.
  - apply leftmost_cons; [reflexivity|apply leftmost_nil].
  - apply leftmost_cons.
    + apply startsWith_false. intros [r Hr].
      destruct (fence_before_line (x :: u) (fence ++ c)) as [d Hd].
      { apply startsWith_true. exists r. rewrite <- Hr. by rewrite <- !app_assoc. }
      apply Hno. exists [], d. by rewrite Hd.
    + apply IH. intros Hocc. by apply Hno, occurs_cons.
Qed.

Lemma leftmost_unique p a c a' c' :
  a ++ p ++ c = a' ++ p ++ c' → leftmost p a c → leftmost p a' c' → a = a' ∧ c = c'.
Proof.
  intros Heq Hl Hl'.
  assert (length a = length a') as Hlen.
  { specialize (Hl a' c' Heq). specialize (Hl' a c (eq_sym Heq)). lia. }
  apply app_inj_1 in Heq as [-> Heq]; [|exact Hlen].
  split; [reflexivity|]. by apply app_inv_head in Heq.
Qed.

Lemma trim_space_l x s : is_space x = true → trim (x :: s) = trim s.
Proof. intros Hx. unfold trim. cbn [trimStart]. by rewrite Hx. Qed.

Lemma trim_space_r s x : is_space x = true → trim (s ++ [x]) = trim s.
Proof.
  intros Hx. unfold trim. rewrite trimStart_app.
  destruct (forallb is_space s) eqn:Hall.
  - rewrite (trimStart_all_space s Hall). cbn [trimStart]. by rewrite Hx.
  - unfold trimEnd. rewrite rev_app_distr. cbn [rev app trimStart]. by rewrite Hx.
Qed.

Lemma json_block_skip x t :
  (x =? backtick) = false → Server.json_block (x :: t) = Server.json_block t.
Proof.
  intros Hx. cbn [Server.json_block]. unfold Server.match_block_here, Server.opening.
  cbn [fence app strip_prefix]. rewrite N.eqb_sym, Hx. reflexivity.
Qed.

Lemma markdownMatch_skip x t :
  (x =? backtick) = false → markdownMatch (x :: t) = markdownMatch t.
Proof.
  intros Hx. cbn [markdownMatch]. unfold match_fence_here.
  cbn [fence strip_prefix]. rewrite N.eqb_sym, Hx. reflexivity.
Qed.

Lemma strict_block_at_the_head g post :
  ¬ occurs fence g →
  Server.json_block (Server.opening ++ g ++ Server.closing_line ++ post) = Some g
  ∧ markdownMatch (Server.opening ++ g ++ Server.closing_line ++ post) = Some (trim g).
Proof.
  intros Hno. split.
  - destruct (Server.opening ++ g ++ Server.closing_line ++ post) as [|x t] eqn:Ht;
      [discriminate Ht|].
    cbn [Server.json_block]. unfold Server.match_block_here.
    rewrite <- Ht, strip_prefix_app.
    destruct (lazy_to_close_spec (g ++ Server.closing_line ++ post))
      as [(g' & post' & Heq & Hl & ->)|[Hnone _]].
    + destruct (leftmost_unique _ _ _ _ _ Heq (leftmost_closing_line g post Hno) Hl)
        as [-> _].
      reflexivity.
    + destruct Hnone. by exists g, post.
  - set (text := Server.opening ++ g ++ Server.closing_line ++ post).
    assert (text = [] ++ fence ++ json_tag ++ ((10 :: g) ++ [10]) ++ fence ++ post) as Htext
      by (subst text; unfold Server.opening, Server.closing_line;
          cbn [app]; by rewrite <- !app_assoc).
    assert (¬ occurs fence (10 :: g)) as Hno'
      by (intros Hocc; by apply Hno, (occurs_fence_tail 10)).
    destruct (markdownMatch_spec text) as [(tag & i & Hb & ->)|[Hnone _]].
    + f_equal. destruct Hb as (pre' & post' & Heq & Hl & Htag & Hi).
      rewrite Htext in Heq.
      destruct (leftmost_unique _ _ _ _ _ Heq (leftmost_nil _ _) Hl) as [<- Hrest].
      destruct Htag as [->|[-> Hstart]].
      * apply app_inv_head in Hrest.
        destruct (leftmost_unique _ _ _ _ _ Hrest (leftmost_fence_line _ post Hno') Hi)
          as [<- _].
        change ((10 :: g) ++ [10]) with (10 :: g ++ [10]).
        rewrite trim_space_l by reflexivity. by apply trim_space_r.
      * apply startsWith_false in Hstart. destruct Hstart.
        exists (((10 :: g) ++ [10]) ++ fence ++ post). cbn [app] in Hrest. by rewrite <- Hrest.
    + destruct Hnone. exists [], (json_tag ++ (10 :: g) ++ [10]), post.
      rewrite Htext. by rewrite <- !app_assoc.
Qed.

(** X20.  On a reply in the strict form (no backtick before the block, no
    fence inside it) the pattern of the endpoint and [extractJsonFromText]
    of the direct-API client read the same payload: the endpoint captures
    it as it is, the client returns it trimmed. *)
Theorem strict_reply_is_read_alike (pre g post : jsstring) :
  forallb (fun c => negb (c =? backtick)) pre = true →
  includes g fence = false →
  let text := pre ++ Server.opening ++ g ++ Server.closing_line ++ post in
  Server.json_block text = Some g
  ∧ extractJsonFromText text = trim g.
Proof.
  intros Hpre Hg text.
  assert (¬ occurs fence g) as Hno
    by (intros Hocc%includes_occurs; rewrite Hocc in Hg; discriminate Hg).
  destruct (strict_block_at_the_head g post Hno) as [Hserver Hclient].
  assert (Server.json_block text = Some g ∧ markdownMatch text = Some (trim g)) as [H1 H2].
  { subst text. induction pre as [|x pre IH]; [by split|].
    cbn [forallb] in Hpre. apply andb_true_iff in Hpre as [Hx Hpre].
    apply negb_true_iff in Hx. cbn [app].
    rewrite json_block_skip, markdownMatch_skip by exact Hx. by apply IH. }
  split; [exact H1|]. unfold extractJsonFromText. rewrite H2. apply trim_idem.
Qed.

Lemma strict_reply_is_read_alike_witness :
  includes (utf16 "[1]") fence = false
  ∧ extractJsonFromText
      (utf16 ("Here you are:" +:+ lf) ++ Server.opening ++ utf16 "[1]"
       ++ Server.closing_line ++ [])
    = utf16 "[1]".
Proof.
  split; [reflexivity|].
  rewrite (proj2 (strict_reply_is_read_alike (utf16 ("Here you are:" +:+ lf))
                    (utf16 "[1]") [] eq_refl eq_refl)).
  vm_compute. reflexivity.
Defined.

End StrictReply.

(** ** The key header of the job search *)

Lemma discreet_sound name options tr :
  Forall (discreet name options) tr →
  existsb (logs_header name) tr = false
  ∧ Forall (fun h => h = req_headers options) (sent_headers tr).
Proof.
  induction 1 as [|e tr [He Hr] _ [IH1 IH2]]; [by split|].
  cbn [existsb]. rewrite He, IH1. split; [reflexivity|].
  unfold sent_headers. destruct e as [r| |]; cbn [omap list_omap]; try exact IH2.
  constructor; [by rewrite Hr|exact IH2].
Qed.

Lemma job_search_loop_discreet name options n attempt
    (m : machine Legacy.envelope unit) :
  Forall (discreet name options) (trace m) →
  Forall (discreet name options) (trace (snd (Legacy.job_search_loop options n attempt m))).
Proof.
  revert attempt m. induction n as [|n IH]; intros attempt m Hm; [exact Hm|].
  rewrite job_search_loop_step.
  assert (Forall (discreet name options) (trace (fetched options m))) as Hf
    by (apply Forall_app; split; [exact Hm|by repeat constructor]).
  destruct (job_search_attempt (network m 0%nat)) as [v|e]; [exact Hf|].
  destruct (mentions_401 e); [exact Hf|].
  destruct (attempt =? 4).
  - apply Forall_app. split; [exact Hf|by repeat constructor].
  - apply IH. apply Forall_app. split; [exact Hf|by repeat constructor].
Qed.

(** The headers that the job search writes out. *)
Lemma headersForLogging E :
  filter (fun h => same (fst h) (utf16 "x-goog-api-key") = false) (Legacy.headers E)
  = [(utf16 "Content-Type", utf16 "application/json")].
Proof.
  unfold Legacy.headers. destruct (is_empty (Legacy.API_KEY E)).
  - rewrite filter_cons_True by (vm_compute; reflexivity). reflexivity.
  - rewrite filter_cons_True by (vm_compute; reflexivity).
    rewrite filter_cons_False; [reflexivity|]. vm_compute. discriminate.
Qed.

(** X21.  The job search sends every request with the headers of the
    client, the key among them when there is one, and never writes a header
    named [x-goog-api-key] to the console: what it writes out as the headers
    is the content type alone. *)
Theorem job_search_keeps_the_key_header_out (E : Legacy.env) (combinedPrompt : jsstring)
    (net : nat → outcome Legacy.envelope) :
  let r := run (Legacy.fetchStructuredJobData E combinedPrompt) tt net in
  existsb (logs_header (utf16 "x-goog-api-key")) (trace (snd r)) = false
  ∧ Forall (fun h => h = Legacy.headers E) (sent_headers (trace (snd r)))
  ∧ (is_empty (Legacy.API_KEY E) = false →
     (utf16 "x-goog-api-key", Legacy.API_KEY E) ∈ Legacy.headers E).
Proof.
  intros r. split; [|split].
  3:{ intros Hkey. unfold Legacy.headers. rewrite Hkey.
      apply list_elem_of_further, list_elem_of_here. }
  all: subst r; destruct combinedPrompt as [|c p];
    [rewrite fetchStructuredJobData_empty; cbn [snd trace]; first [reflexivity|constructor]|].
  all: unfold Legacy.fetchStructuredJobData; cbn [is_empty]; js_unfold;
    cbn [req_headers]; rewrite headersForLogging.
  all: match goal with
       | |- context [Legacy.job_search_loop ?o Legacy.maxRetries 0 ?m] =>
           pose proof (job_search_loop_discreet (utf16 "x-goog-api-key") o
                         Legacy.maxRetries 0 m) as Hloop;
           destruct (Legacy.job_search_loop o Legacy.maxRetries 0 m) as [lr m1]
       end.
  all: cbn [fst snd ui trace network] in *.
  all: assert (Forall (discreet (utf16 "x-goog-api-key")
                   {| req_url := Legacy.API_ENDPOINT; req_headers := Legacy.headers E;
                      req_body := GeminiPayload (c :: p) (Some (Legacy.jobSearchInstruction E)) true |})
                 (trace m1)) as Hm1 by (apply Hloop; repeat constructor).
  all: clear Hloop.
  all: assert (∀ after,
                 Forall (discreet (utf16 "x-goog-api-key")
                   {| req_url := Legacy.API_ENDPOINT; req_headers := Legacy.headers E;
                      req_body := GeminiPayload (c :: p) (Some (Legacy.jobSearchInstruction E)) true |})
                   after →
                 existsb (logs_header (utf16 "x-goog-api-key")) (trace m1 ++ after) = false
                 ∧ Forall (fun h => h = Legacy.headers E) (sent_headers (trace m1 ++ after)))
         as Hgen
         by (intros after Hafter; apply (discreet_sound _ _ _ (proj2 (Forall_app _ _ _) (conj Hm1 Hafter)))).
  all: destruct lr as [[[|[[|c0 rawText]|]]|]|e]; cbn [fst snd ui trace network].
  all: try (destruct (Legacy.JSON_parse E _); cbn [fst snd ui trace network]).
  all: rewrite <- ?app_assoc.
  all: first [ apply Hgen; repeat constructor
             | rewrite <- (app_nil_r (trace m1)); apply Hgen; constructor ].
Qed.
